(** * Lesson-enrichment pipeline of [backend/routes/test.js]

    A shallow embedding of the function [test]: the retry loop around the
    content generator, the fence stripping and shape validation of the
    model output, the positional walk over the course tree, the per-block
    validation and the nested [prisma.lesson.update] write, over the
    tables of the SQL migration; with the route that reads a lesson back
    ([GET /lessons/:id/full] of [backend/routes/moduleroutes.js], behind
    [authenticateToken]) and the length of a course as [POST /generate]
    of [backend/routes/airoutes.js] computes it. *)

From Stdlib Require Import List String Ascii ZArith QArith Bool Arith Lia DecimalString.
From Stdlib Require Import Permutation.
Import ListNotations.
Close Scope Q_scope.
Local Open Scope string_scope.
Local Open Scope list_scope.

Set Implicit Arguments.
Set Warnings "-register-all".

(* ================================================================== *)
(** ** JavaScript values obtained from [JSON.parse] *)

(** A number is a rational, as every finite double is. An object is its
    member list in text order. *)
Inductive JSON : Type :=
| JNull
| JBool (b : bool)
| JNum (q : Q)
| JStr (s : string)
| JArr (items : list JSON)
| JObj (members : list (string * JSON)).

(** A JavaScript value that may be [undefined]: [None] is [undefined]. *)
Definition JSV := option JSON.

(** Outcome of an expression that may throw; the payload of [Throw] is
    [error.message]. *)
Inductive Res (A : Type) : Type :=
| Ok (a : A)
| Throw (msg : string).
Arguments Ok {A} a.
Arguments Throw {A} msg.

Definition res_bind {A B} (r : Res A) (f : A -> Res B) : Res B :=
  match r with
  | Ok a => f a
  | Throw m => Throw m
  end.

Declare Scope res_scope.
Delimit Scope res_scope with res.
Notation "'let?' x ':=' r 'in' k" := (res_bind r (fun x => k))
  (at level 10, x name, r at level 100, k at level 200) : res_scope.

Fixpoint res_map {A B} (f : A -> Res B) (l : list A) : Res (list B) :=
  match l with
  | [] => Ok []
  | a :: r =>
      (let? b := f a in
       let? bs := res_map f r in
       Ok (b :: bs))%res
  end.

(** [JSON.parse] keeps the last member of a repeated key. *)
Fixpoint lookup_member (k : string) (ms : list (string * JSON)) : JSV :=
  match ms with
  | [] => None
  | (k', v) :: r =>
      match lookup_member k r with
      | Some w => Some w
      | None => if String.eqb k k' then Some v else None
      end
  end.

(** [v.k] for the names the pipeline reads ([modules], [lessons],
    [content], [type], [text], [language], [question], [options],
    [answer], [explanation]): none of them is a property of arrays,
    strings, numbers or booleans, and reading a property of [null]
    throws a TypeError. *)
Definition getProp (v : JSON) (k : string) : Res JSV :=
  match v with
  | JNull => Throw ("Cannot read properties of null (reading '" ++ k ++ "')")
  | JObj ms => Ok (lookup_member k ms)
  | _ => Ok None
  end.

(** Truthiness: [undefined], [null], [false], [0] and the empty string are falsy. *)
Definition truthy (v : JSV) : bool :=
  match v with
  | None => false
  | Some JNull => false
  | Some (JBool b) => b
  | Some (JNum q) => negb (Z.eqb (Qnum q) 0)
  | Some (JStr s) => negb (String.eqb s EmptyString)
  | Some (JArr _) => true
  | Some (JObj _) => true
  end.

(** [a || b] *)
Definition js_or (a b : JSV) : JSV := if truthy a then a else b.

(** [Array.isArray(v)] *)
Definition isArray (v : JSV) : bool :=
  match v with
  | Some (JArr _) => true
  | _ => false
  end.

(** [v == null] *)
Definition eq_null (v : JSV) : bool :=
  match v with
  | None => true
  | Some JNull => true
  | _ => false
  end.

(** [v === 'lit'] *)
Definition strict_eq_str (v : JSV) (lit : string) : bool :=
  match v with
  | Some (JStr s) => String.eqb s lit
  | _ => false
  end.

(** [[lits].includes(v)] for an array of string literals. *)
Definition includes (lits : list string) (v : JSV) : bool :=
  existsb (strict_eq_str v) lits.

Definition allowedTypes : list string := ["paragraph"; "video"; "mcq"].

(* ================================================================== *)
(** ** Per-block validation (the callback of [contentBlocks.filter]) *)

Inductive Verdict : Type :=
| Keep
| InvalidType
| InvalidMcq.

Definition classify (block : JSON) : Res Verdict :=
  (let? ty := getProp block "type" in
   if negb (truthy ty) || negb (includes allowedTypes ty) then Ok InvalidType
   else if strict_eq_str ty "mcq" then
     let? question := getProp block "question" in
     let? options := getProp block "options" in
     let? answer := getProp block "answer" in
     let? explanation := getProp block "explanation" in
     if negb (truthy question) || negb (isArray options)
        || eq_null answer || negb (truthy explanation)
     then Ok InvalidMcq
     else Ok Keep
   else Ok Keep)%res.

(* ================================================================== *)
(** ** String built-ins used by the pipeline *)

(** [String.prototype.toUpperCase] on the ASCII letters. *)
Definition upper_ascii (c : ascii) : ascii :=
  let n := nat_of_ascii c in
  if (97 <=? n)%nat && (n <=? 122)%nat then ascii_of_nat (n - 32) else c.

Fixpoint toUpperCase (s : string) : string :=
  match s with
  | EmptyString => EmptyString
  | String c r => String (upper_ascii c) (toUpperCase r)
  end.

(** Strings hold text in UTF-8. The characters that [trim] removes and
    that the class [\s] matches are the white space and the line
    terminators of ECMAScript; by the bytes of their encoding:
    - one byte: U+0009 to U+000D and U+0020;
    - two bytes: U+00A0 (C2 A0);
    - three bytes: U+1680 (E1 9A 80), U+2000 to U+200A (E2 80 80 to
      E2 80 8A), U+2028 and U+2029 (E2 80 A8 and A9), U+202F
      (E2 80 AF), U+205F (E2 81 9F), U+3000 (E3 80 80) and U+FEFF
      (EF BB BF). *)
Definition is_space (c : ascii) : bool :=
  let n := nat_of_ascii c in
  ((9 <=? n)%nat && (n <=? 13)%nat) || (n =? 32)%nat.

Definition is_space2 (c1 c2 : ascii) : bool :=
  (nat_of_ascii c1 =? 194)%nat && (nat_of_ascii c2 =? 160)%nat.

Definition is_space3 (c1 c2 c3 : ascii) : bool :=
  let n1 := nat_of_ascii c1 in
  let n2 := nat_of_ascii c2 in
  let n3 := nat_of_ascii c3 in
  ((n1 =? 225)%nat && (n2 =? 154)%nat && (n3 =? 128)%nat)
  || ((n1 =? 226)%nat && (n2 =? 128)%nat
      && (((128 <=? n3)%nat && (n3 <=? 138)%nat)
          || (n3 =? 168)%nat || (n3 =? 169)%nat || (n3 =? 175)%nat))
  || ((n1 =? 226)%nat && (n2 =? 129)%nat && (n3 =? 159)%nat)
  || ((n1 =? 227)%nat && (n2 =? 128)%nat && (n3 =? 128)%nat)
  || ((n1 =? 239)%nat && (n2 =? 187)%nat && (n3 =? 191)%nat).

(** What follows the white-space character that [s] starts with, if it
    starts with one. *)
Definition skip_space (s : string) : option string :=
  match s with
  | EmptyString => None
  | String c1 r1 =>
      if is_space c1 then Some r1
      else
        match r1 with
        | EmptyString => None
        | String c2 r2 =>
            if is_space2 c1 c2 then Some r2
            else
              match r2 with
              | EmptyString => None
              | String c3 r3 => if is_space3 c1 c2 c3 then Some r3 else None
              end
        end
  end.

Fixpoint trimStart (s : string) : string :=
  match s with
  | EmptyString => EmptyString
  | String c1 r1 =>
      if is_space c1 then trimStart r1
      else
        match r1 with
        | EmptyString => s
        | String c2 r2 =>
            if is_space2 c1 c2 then trimStart r2
            else
              match r2 with
              | EmptyString => s
              | String c3 r3 => if is_space3 c1 c2 c3 then trimStart r3 else s
              end
        end
  end.

(** A string of white space only. *)
Fixpoint all_space (s : string) : bool :=
  match s with
  | EmptyString => true
  | String c1 r1 =>
      if is_space c1 then all_space r1
      else
        match r1 with
        | EmptyString => false
        | String c2 r2 =>
            if is_space2 c1 c2 then all_space r2
            else
              match r2 with
              | EmptyString => false
              | String c3 r3 => if is_space3 c1 c2 c3 then all_space r3 else false
              end
        end
  end.

(** [trimEnd] cuts the string where what is left is white space only. *)
Fixpoint trimEnd (s : string) : string :=
  match s with
  | EmptyString => EmptyString
  | String c r => if all_space s then EmptyString else String c (trimEnd r)
  end.

Definition trim (s : string) : string := trimEnd (trimStart s).


(** A byte that starts a character: not one of the continuation bytes
    80 to BF. *)
Definition boundary (c : ascii) : bool :=
  let n := nat_of_ascii c in
  (n <? 128)%nat || (192 <=? n)%nat.

Definition starts_at_boundary (s : string) : bool :=
  match s with
  | EmptyString => true
  | String c _ => boundary c
  end.

Fixpoint strip_prefix (p s : string) : option string :=
  match p with
  | EmptyString => Some s
  | String a p' =>
      match s with
      | EmptyString => None
      | String b s' => if Ascii.eqb a b then strip_prefix p' s' else None
      end
  end.

(** [s.replace(/^p/, '')] for a literal [p]. *)
Definition replace_leading (p s : string) : string :=
  match strip_prefix p s with
  | Some r => r
  | None => s
  end.

(** [s.replace(/p$/, '')] for a literal [p]. *)
Fixpoint replace_trailing (p s : string) : string :=
  if String.eqb s p then EmptyString
  else match s with
       | EmptyString => EmptyString
       | String c r => String c (replace_trailing p r)
       end.

Definition fence_open : string := "```json".
Definition fence_close : string := "```".

(** [output.trim().replace(/^```json/, '').replace(/```$/, '').trim()] *)
Definition strip_fences (output : string) : string :=
  trim (replace_trailing fence_close (replace_leading fence_open (trim output))).

(* ================================================================== *)
(** ** Persisted state: the tables of the migration *)

(** Row identifiers are opaque TEXT keys; they are drawn from a counter. *)
Definition Id := nat.

Inductive BlockType : Type :=
| HEADING
| PARAGRAPH
| CODE
| VIDEO
| MCQ.

Record CourseRow : Type := mkCourseRow {
  course_id : Id;
  course_title : string
}.

Record ModuleRow : Type := mkModuleRow {
  module_id : Id;
  module_title : string;
  module_courseId : Id
}.

Record LessonRow : Type := mkLessonRow {
  lesson_id : Id;
  lesson_title : string;
  lesson_objectives : list string;
  lesson_isEnriched : bool;
  lesson_moduleId : Id
}.

Record ContentBlockRow : Type := mkContentBlockRow {
  cb_id : Id;
  cb_order : Z;
  cb_type : BlockType;
  cb_text : option string;
  cb_language : option string;
  cb_videoUrl : option string;
  cb_lessonId : Id;
  cb_mcqId : option Id
}.

Record MCQOptionRow : Type := mkMCQOptionRow {
  mcq_id : Id;
  mcq_question : string;
  mcq_options : list string;
  mcq_answer : Z;
  mcq_explanation : option string
}.

Record VideoSearchRow : Type := mkVideoSearchRow {
  vs_id : Id;
  vs_query : string;
  vs_lessonId : Id
}.

Record DB : Type := mkDB {
  courses : list CourseRow;
  modules : list ModuleRow;
  lessons : list LessonRow;
  contentBlocks : list ContentBlockRow;
  mcqOptions : list MCQOptionRow;
  videoSearches : list VideoSearchRow;
  nextId : Id
}.

(** The value of [course] after [findUnique] with its [include]. *)
Record Module : Type := mkModule {
  m_title : string;
  m_lessons : list LessonRow
}.

Record Course : Type := mkCourse {
  c_title : string;
  c_modules : list Module
}.

Definition course_findUnique (d : DB) (courseId : Id) : option Course :=
  match find (fun c => Nat.eqb (course_id c) courseId) (courses d) with
  | None => None
  | Some c =>
      Some {| c_title := course_title c;
              c_modules :=
                map (fun m =>
                       {| m_title := module_title m;
                          m_lessons :=
                            filter (fun l => Nat.eqb (lesson_moduleId l) (module_id m))
                                   (lessons d) |})
                    (filter (fun m => Nat.eqb (module_courseId m) (course_id c))
                            (modules d)) |}
  end.

(* ================================================================== *)
(** ** The argument of [prisma.lesson.update] *)

Record McqCreate : Type := mkMcqCreate {
  mc_question : JSV;
  mc_options : JSV;
  mc_answer : JSV;
  mc_explanation : JSV
}.

Record BlockCreate : Type := mkBlockCreate {
  bc_order : nat;
  bc_type : string;
  bc_text : JSV;
  bc_language : JSV;
  bc_videoUrl : JSV;
  bc_mcq : option McqCreate
}.

Record VideoCreate : Type := mkVideoCreate {
  vc_query : JSV
}.

(** A nested write [{ deleteMany: {}, create: [...] }]. *)
Record NestedWrite (A : Type) : Type := mkNestedWrite {
  nw_deleteMany : bool;
  nw_create : list A
}.

Record LessonUpdateData : Type := mkLessonUpdateData {
  d_isEnriched : bool;
  d_objectives : list string;
  d_contentBlocks : NestedWrite BlockCreate;
  d_videos : NestedWrite VideoCreate
}.

(** [block.type.toUpperCase()] *)
Definition type_toUpperCase (ty : JSV) : Res string :=
  match ty with
  | Some (JStr s) => Ok (toUpperCase s)
  | _ => Throw "block.type.toUpperCase is not a function"
  end.

(** The callback of [validBlocks.map((block, index) => ...)]. *)
Definition block_create (block : JSON) (index : nat) : Res BlockCreate :=
  (let? ty := getProp block "type" in
   let? upper := type_toUpperCase ty in
   let? text := getProp block "text" in
   let? language := getProp block "language" in
   let? question := getProp block "question" in
   let? options := getProp block "options" in
   let? answer := getProp block "answer" in
   let? explanation := getProp block "explanation" in
   Ok {| bc_order := index;
         bc_type := upper;
         bc_text := js_or text (Some JNull);
         bc_language := js_or language (Some JNull);
         bc_videoUrl := if strict_eq_str ty "video" then text else Some JNull;
         bc_mcq := if strict_eq_str ty "mcq"
                   then Some {| mc_question := question;
                                mc_options := options;
                                mc_answer := answer;
                                mc_explanation := explanation |}
                   else None |})%res.

Fixpoint map_indexed {A B} (f : A -> nat -> Res B) (l : list A) (index : nat)
  : Res (list B) :=
  match l with
  | [] => Ok []
  | a :: r =>
      (let? b := f a index in
       let? bs := map_indexed f r (S index) in
       Ok (b :: bs))%res
  end.

(** [validBlocks.filter((b) => b.type === 'video')] *)
Fixpoint filter_video (l : list JSON) : Res (list JSON) :=
  match l with
  | [] => Ok []
  | b :: r =>
      (let? ty := getProp b "type" in
       let? rest := filter_video r in
       Ok (if strict_eq_str ty "video" then b :: rest else rest))%res
  end.

(** [.map((v) => ({ query: v.text }))] *)
Definition video_create (v : JSON) : Res VideoCreate :=
  (let? text := getProp v "text" in Ok {| vc_query := text |})%res.

(** The [data] object of the update, built from [validBlocks]. *)
Definition update_data (validBlocks : list JSON) : Res LessonUpdateData :=
  (let? blocks := map_indexed block_create validBlocks 0 in
   let? vids := filter_video validBlocks in
   let? videos := res_map video_create vids in
   Ok {| d_isEnriched := true;
         d_objectives := [];
         d_contentBlocks := {| nw_deleteMany := true; nw_create := blocks |};
         d_videos := {| nw_deleteMany := true; nw_create := videos |} |})%res.

(* ================================================================== *)
(** ** What the store does with an update

    The client checks every value against the column it is written to
    and rejects the whole update otherwise; the nested writes of one
    update are one transaction, [deleteMany] before [create].

    The client and the database are no part of the repository. They
    are modelled for values of the column types: a String column takes
    every string here (a database may refuse some, such as a text with
    U+0000), an Int column takes a number that is an integer of 32 bits
    (a number with a fraction is rejected here, whatever the client
    makes of it), and a table keeps its rows in the order of their
    creation, an updated row staying in its place (the queries of
    [test] have no [orderBy], and a database may return the rows in
    another order). *)

Definition as_String (field : string) (v : JSV) : Res string :=
  match v with
  | Some (JStr s) => Ok s
  | _ => Throw ("Argument `" ++ field ++ "`: expected String")
  end.

Definition as_opt_String (field : string) (v : JSV) : Res (option string) :=
  match v with
  | None => Ok None
  | Some JNull => Ok None
  | Some (JStr s) => Ok (Some s)
  | _ => Throw ("Argument `" ++ field ++ "`: expected String or Null")
  end.

Definition int_min : Z := (- 2147483648)%Z.
Definition int_max : Z := 2147483647%Z.

(** The integer a number is, when it is one. *)
Definition integer_value (q : Q) : option Z :=
  if Z.eqb (Qnum q mod Zpos (Qden q)) 0 then Some (Qnum q / Zpos (Qden q))%Z
  else None.

Definition as_Int (field : string) (v : JSV) : Res Z :=
  match v with
  | Some (JNum q) =>
      match integer_value q with
      | Some n =>
          if (int_min <=? n)%Z && (n <=? int_max)%Z then Ok n
          else Throw ("Argument `" ++ field ++ "`: value out of range for Int")
      | None => Throw ("Argument `" ++ field ++ "`: expected Int")
      end
  | _ => Throw ("Argument `" ++ field ++ "`: expected Int")
  end.

Definition as_String_list (field : string) (v : JSV) : Res (list string) :=
  match v with
  | Some (JArr items) => res_map (fun x => as_String field (Some x)) items
  | _ => Throw ("Argument `" ++ field ++ "`: expected a list of String")
  end.

Definition as_BlockType (s : string) : Res BlockType :=
  if String.eqb s "HEADING" then Ok HEADING
  else if String.eqb s "PARAGRAPH" then Ok PARAGRAPH
  else if String.eqb s "CODE" then Ok CODE
  else if String.eqb s "VIDEO" then Ok VIDEO
  else if String.eqb s "MCQ" then Ok MCQ
  else Throw "Argument `type`: expected BlockType".

Definition mcq_row (id : Id) (m : McqCreate) : Res MCQOptionRow :=
  (let? q := as_String "question" (mc_question m) in
   let? os := as_String_list "options" (mc_options m) in
   let? a := as_Int "answer" (mc_answer m) in
   let? e := as_opt_String "explanation" (mc_explanation m) in
   Ok {| mcq_id := id; mcq_question := q; mcq_options := os;
         mcq_answer := a; mcq_explanation := e |})%res.

Definition block_row (id : Id) (lessonId : Id) (mcqId : option Id) (b : BlockCreate)
  : Res ContentBlockRow :=
  (let? ty := as_BlockType (bc_type b) in
   let? text := as_opt_String "text" (bc_text b) in
   let? language := as_opt_String "language" (bc_language b) in
   let? url := as_opt_String "videoUrl" (bc_videoUrl b) in
   Ok {| cb_id := id; cb_order := Z.of_nat (bc_order b); cb_type := ty;
         cb_text := text; cb_language := language; cb_videoUrl := url;
         cb_lessonId := lessonId; cb_mcqId := mcqId |})%res.

(** Nested [create] of the content blocks: the owned MCQOption row is
    inserted first and the block row points at it through [mcqId]. *)
Fixpoint create_blocks (lessonId : Id) (bs : list BlockCreate) (next : Id)
  : Res (list ContentBlockRow * list MCQOptionRow * Id) :=
  match bs with
  | [] => Ok ([], [], next)
  | b :: r =>
      match bc_mcq b with
      | Some m =>
          (let? mrow := mcq_row next m in
           let? brow := block_row (S next) lessonId (Some next) b in
           let? rest := create_blocks lessonId r (S (S next)) in
           let '(cbs, mcqs, n) := rest in
           Ok (brow :: cbs, mrow :: mcqs, n))%res
      | None =>
          (let? brow := block_row next lessonId None b in
           let? rest := create_blocks lessonId r (S next) in
           let '(cbs, mcqs, n) := rest in
           Ok (brow :: cbs, mcqs, n))%res
      end
  end.

Fixpoint create_videos (lessonId : Id) (vs : list VideoCreate) (next : Id)
  : Res (list VideoSearchRow * Id) :=
  match vs with
  | [] => Ok ([], next)
  | v :: r =>
      (let? q := as_String "query" (vc_query v) in
       let? rest := create_videos lessonId r (S next) in
       let '(rows, n) := rest in
       Ok ({| vs_id := next; vs_query := q; vs_lessonId := lessonId |} :: rows, n))%res
  end.

Definition clear_rows {A} (deleteMany : bool) (owner : A -> Id) (lessonId : Id)
  (rows : list A) : list A :=
  if deleteMany then filter (fun r => negb (Nat.eqb (owner r) lessonId)) rows
  else rows.

Definition set_lesson (lessonId : Id) (data : LessonUpdateData) (l : LessonRow)
  : LessonRow :=
  if Nat.eqb (lesson_id l) lessonId
  then {| lesson_id := lesson_id l;
          lesson_title := lesson_title l;
          lesson_objectives := d_objectives data;
          lesson_isEnriched := d_isEnriched data;
          lesson_moduleId := lesson_moduleId l |}
  else l.

(** The update of one lesson. Deleting content blocks deletes no
    MCQOption row: the foreign key of the migration goes from
    [ContentBlock.mcqId] to [MCQOption.id] (ON DELETE SET NULL), and no
    row of MCQOption refers to a block or a lesson. *)
Definition lesson_update (d : DB) (lessonId : Id) (data : LessonUpdateData) : Res DB :=
  if existsb (fun l => Nat.eqb (lesson_id l) lessonId) (lessons d) then
    (let? created := create_blocks lessonId (nw_create (d_contentBlocks data)) (nextId d) in
     let '(cbs, mcqs, n1) := created in
     let? vids := create_videos lessonId (nw_create (d_videos data)) n1 in
     let '(vrows, n2) := vids in
     Ok {| courses := courses d;
           modules := modules d;
           lessons := map (set_lesson lessonId data) (lessons d);
           contentBlocks :=
             clear_rows (nw_deleteMany (d_contentBlocks data)) cb_lessonId lessonId
                        (contentBlocks d) ++ cbs;
           mcqOptions := mcqOptions d ++ mcqs;
           videoSearches :=
             clear_rows (nw_deleteMany (d_videos data)) vs_lessonId lessonId
                        (videoSearches d) ++ vrows;
           nextId := n2 |})%res
  else Throw "Record to update not found.".

(* ================================================================== *)
(** ** Effects: console, timer, generator calls and the store *)

Inductive Event : Type :=
| Log_CourseNotFound
| Log_Attempt (n : nat)
| Api_generateContent
| Log_ResponseReceived
| Err_GenerationFailed (n : nat) (msg : string)
| Err_MaxAttempts
| Sleep (ms : nat)
| Log_FlatArray
| Err_NoModulesArray (parsed : JSON)
| Log_ParsedJSON (enrichedContent : JSON)
| Err_ParsingFailed (msg : string)
| Log_RawOutput (output : option string)
| Log_EnrichedByAI
| Warn_InvalidType (title : string) (block : JSON)
| Warn_InvalidMcq (title : string) (block : JSON)
| Warn_NoValidBlocks (title : string)
| Db_lessonUpdate (lessonId : Id) (data : LessonUpdateData)
| Log_UpdatedLesson (title : string)
| Log_AllSaved
| Err_DbUpdateFailed (msg : string)
| Db_disconnect.

Record World : Type := mkWorld {
  w_db : DB;
  w_trace : list Event;
  w_calls : nat
}.

Definition M (A : Type) : Type := World -> Res A * World.

Definition ret {A} (a : A) : M A := fun w => (Ok a, w).

Definition bind {A B} (m : M A) (f : A -> M B) : M B :=
  fun w =>
    match m w with
    | (Ok a, w') => f a w'
    | (Throw e, w') => (Throw e, w')
    end.

Definition throw {A} (msg : string) : M A := fun w => (Throw msg, w).

Definition lift {A} (r : Res A) : M A := fun w => (r, w).

(** [try { m } catch (error) { handler error.message }] *)
Definition try_catch {A} (m : M A) (handler : string -> M A) : M A :=
  fun w =>
    match m w with
    | (Ok a, w') => (Ok a, w')
    | (Throw e, w') => handler e w'
    end.

(** [try { m } finally { f }] *)
Definition try_finally {A} (m : M A) (f : M unit) : M A :=
  fun w =>
    match m w with
    | (r, w') =>
        match f w' with
        | (Ok _, w'') => (r, w'')
        | (Throw e, w'') => (Throw e, w'')
        end
    end.

(** The world after the events [evs] were recorded. *)
Definition log_to (w : World) (evs : list Event) : World :=
  {| w_db := w_db w; w_trace := w_trace w ++ evs; w_calls := w_calls w |}.

Definition emit (e : Event) : M unit := fun w => (Ok tt, log_to w [e]).

Declare Scope m_scope.
Delimit Scope m_scope with M.
Notation "x <- m ;; k" := (bind m (fun x => k))
  (at level 61, m at next level, right associativity) : m_scope.
Notation "m ;; k" := (bind m (fun _ => k))
  (at level 61, right associativity) : m_scope.
Local Open Scope m_scope.

(** [await prisma.lesson.update({ where: { id }, data })] *)
Definition prisma_lesson_update (lessonId : Id) (data : LessonUpdateData) : M unit :=
  emit (Db_lessonUpdate lessonId data) ;;
  fun w =>
    match lesson_update (w_db w) lessonId data with
    | Ok d' => (Ok tt, {| w_db := d'; w_trace := w_trace w; w_calls := w_calls w |})
    | Throw e => (Throw e, w)
    end.

Definition prisma_course_findUnique (courseId : Id) : M (option Course) :=
  fun w => (Ok (course_findUnique (w_db w) courseId), w).

(* ================================================================== *)
(** ** Reconciliation: lines 150-221 *)

(** [contentBlocks.filter((block) => { ... })] with its warnings. *)
Fixpoint filter_blocks (title : string) (blocks : list JSON) : M (list JSON) :=
  match blocks with
  | [] => ret []
  | block :: r =>
      v <- lift (classify block) ;;
      keep <- match v with
              | Keep => ret true
              | InvalidType => emit (Warn_InvalidType title block) ;; ret false
              | InvalidMcq => emit (Warn_InvalidMcq title block) ;; ret false
              end ;;
      rest <- filter_blocks title r ;;
      ret (if keep : bool then block :: rest else rest)
  end.

(** The body of the inner loop once [contentBlocks] is known. *)
Definition process_lesson (lesson : LessonRow) (contentBlocks : JSON) : M unit :=
  blocks <- match contentBlocks with
            | JArr items => ret items
            | _ => throw "contentBlocks.filter is not a function"
            end ;;
  validBlocks <- filter_blocks (lesson_title lesson) blocks ;;
  if Nat.eqb (List.length validBlocks) 0 then
    emit (Warn_NoValidBlocks (lesson_title lesson))
  else
    data <- lift (update_data validBlocks) ;;
    prisma_lesson_update (lesson_id lesson) data ;;
    emit (Log_UpdatedLesson (lesson_title lesson)).

(** [v[i]] on a value that is neither [null] nor [undefined]. *)
Definition getIndex (v : JSON) (i : nat) : JSV :=
  match v with
  | JArr items => nth_error items i
  | JStr s =>
      match String.get i s with
      | Some c => Some (JStr (String c EmptyString))
      | None => None
      end
  | JObj ms => lookup_member (NilEmpty.string_of_uint (Nat.to_uint i)) ms
  | _ => None
  end.

(** [v?.[i]] *)
Definition opt_index (v : JSV) (i : nat) : JSV :=
  match v with
  | None => None
  | Some JNull => None
  | Some x => getIndex x i
  end.

(** [a || d] where [d] is an object or array literal. *)
Definition or_default (a : JSV) (d : JSON) : JSON :=
  match a with
  | Some v => if truthy a then v else d
  | None => d
  end.

Definition empty_module : JSON := JObj [("lessons", JArr [])].
Definition empty_lesson : JSON := JObj [("content", JArr [])].

(** [enrichedContent.modules?.[modIndex] || { lessons: [] }] *)
Definition enrichedModule_at (enrichedContent : JSON) (modIndex : nat) : Res JSON :=
  (let? mods := getProp enrichedContent "modules" in
   Ok (or_default (opt_index mods modIndex) empty_module))%res.

(** [enrichedModule.lessons?.[lessonIndex] || { content: [] }] *)
Definition enrichedLesson_at (enrichedModule : JSON) (lessonIndex : nat) : Res JSON :=
  (let? ls := getProp enrichedModule "lessons" in
   Ok (or_default (opt_index ls lessonIndex) empty_lesson))%res.

(** [enrichedLesson.content || []] *)
Definition contentBlocks_of (enrichedLesson : JSON) : Res JSON :=
  (let? c := getProp enrichedLesson "content" in
   Ok (or_default c (JArr [])))%res.

(** The inner [for] loop, from [lessonIndex] on. *)
Fixpoint lessons_loop (enrichedModule : JSON) (ls : list LessonRow) (lessonIndex : nat)
  : M unit :=
  match ls with
  | [] => ret tt
  | lesson :: rest =>
      enrichedLesson <- lift (enrichedLesson_at enrichedModule lessonIndex) ;;
      contentBlocks <- lift (contentBlocks_of enrichedLesson) ;;
      process_lesson lesson contentBlocks ;;
      lessons_loop enrichedModule rest (S lessonIndex)
  end.

(** The outer [for] loop, from [modIndex] on. *)
Fixpoint modules_loop (enrichedContent : JSON) (ms : list Module) (modIndex : nat)
  : M unit :=
  match ms with
  | [] => ret tt
  | module :: rest =>
      enrichedModule <- lift (enrichedModule_at enrichedContent modIndex) ;;
      lessons_loop enrichedModule (m_lessons module) 0 ;;
      modules_loop enrichedContent rest (S modIndex)
  end.

(** The last [try]/[catch]/[finally] of [test]. *)
Definition write_stage (course : Course) (enrichedContent : JSON) : M unit :=
  try_finally
    (try_catch
       (modules_loop enrichedContent (c_modules course) 0 ;;
        emit Log_AllSaved)
       (fun msg => emit (Err_DbUpdateFailed msg)))
    (emit Db_disconnect).

(* ================================================================== *)
(** ** Generation with retries and parsing: lines 88-146 *)

(** What one [ai.models.generateContent] call does: it throws, or it
    returns a response whose [text] may be [undefined]. *)
Inductive GenOutcome : Type :=
| GenThrows (msg : string)
| GenResponse (text : option string).

(** How the [while] loop was left. *)
Inductive LoopExit : Type :=
| Break (output : string)
| Returned
| ConditionFalse
| OutOfFuel.

(** Whether a run of [test] came to its end. *)
Inductive Completion : Type :=
| Finished
| Unfinished.

Definition maxAttempts : nat := 3.

Section Pipeline.

(** The generator answers the n-th call of the run (from 0), and the
    host's [JSON.parse] throws a SyntaxError or returns a value. *)
Variable generator : nat -> GenOutcome.
Variable JSON_parse : string -> Res JSON.

Definition generateContent : M (option string) :=
  emit Api_generateContent ;;
  fun w =>
    let w' := {| w_db := w_db w; w_trace := w_trace w; w_calls := S (w_calls w) |} in
    match generator (w_calls w) with
    | GenThrows msg => (Throw msg, w')
    | GenResponse text => (Ok text, w')
    end.

(** [output.trim()...] on [response.text]. *)
Definition strip_response (text : option string) : Res string :=
  match text with
  | Some t => Ok (strip_fences t)
  | None => Throw "Cannot read properties of undefined (reading 'trim')"
  end.

Fixpoint retry_loop (fuel : nat) (attempt : nat) : M LoopExit :=
  match fuel with
  | O => ret OutOfFuel
  | S fuel' =>
      if Nat.ltb attempt maxAttempts then
        try_catch
          (emit (Log_Attempt (attempt + 1)) ;;
           text <- generateContent ;;
           output <- lift (strip_response text) ;;
           emit Log_ResponseReceived ;;
           ret (Break output))
          (fun msg =>
             emit (Err_GenerationFailed (attempt + 1) msg) ;;
             let attempt := attempt + 1 in
             if Nat.eqb attempt maxAttempts then
               emit Err_MaxAttempts ;;
               ret Returned
             else
               emit (Sleep 1000) ;;
               retry_loop fuel' attempt)
      else ret ConditionFalse
  end.

(** The callback of the flat-array fallback:
    [block.type && [...].includes(block.type)]. *)
Definition has_allowed_type (block : JSON) : Res bool :=
  (let? ty := getProp block "type" in
   Ok (truthy ty && includes allowedTypes ty))%res.

Fixpoint res_filter {A} (f : A -> Res bool) (l : list A) : Res (list A) :=
  match l with
  | [] => Ok []
  | a :: r =>
      (let? keep := f a in
       let? rest := res_filter f r in
       Ok (if keep : bool then a :: rest else rest))%res
  end.

Definition wrap_flat (content : list JSON) : JSON :=
  JObj [("modules", JArr [JObj [("lessons", JArr [JObj [("content", JArr content)]])]])].

Definition parse_output (output : option string) : Res JSON :=
  match output with
  | Some s => JSON_parse s
  | None => Throw "undefined is not valid JSON"
  end.

(** Lines 117-146; [None] stands for the [return]s. *)
Definition parse_stage (output : option string) : M (option JSON) :=
  try_catch
    (parsed <- lift (parse_output output) ;;
     mods <- lift (getProp parsed "modules") ;;
     if negb (truthy mods) || negb (isArray mods) then
       match parsed with
       | JArr items =>
           emit Log_FlatArray ;;
           content <- lift (res_filter has_allowed_type items) ;;
           let enrichedContent := wrap_flat content in
           emit (Log_ParsedJSON enrichedContent) ;;
           ret (Some enrichedContent)
       | _ =>
           emit (Err_NoModulesArray parsed) ;;
           ret None
       end
     else
       emit (Log_ParsedJSON parsed) ;;
       ret (Some parsed))
    (fun msg =>
       emit (Err_ParsingFailed msg) ;;
       emit (Log_RawOutput output) ;;
       ret None).

(** The body of [test]; [courseId] is the constant of line 11, and
    [fuel] bounds the iterations of the [while] loop. *)
Definition test_with (fuel : nat) (courseId : Id) : M Completion :=
  course <- prisma_course_findUnique courseId ;;
  match course with
  | None => emit Log_CourseNotFound ;; ret Finished
  | Some course =>
      exit <- retry_loop fuel 0 ;;
      let continue_with output :=
        enriched <- parse_stage output ;;
        match enriched with
        | None => ret Finished
        | Some enrichedContent =>
            emit Log_EnrichedByAI ;;
            write_stage course enrichedContent ;;
            ret Finished
        end in
      match exit with
      | Break output => continue_with (Some output)
      | ConditionFalse => continue_with None
      | Returned => ret Finished
      | OutOfFuel => ret Unfinished
      end
  end.

Definition test (courseId : Id) : M Completion := test_with maxAttempts courseId.

End Pipeline.

(* ================================================================== *)
(** ** Reading the pipeline declaratively *)

(** The member [k] of a block, [undefined] when absent. *)
Definition field (v : JSON) (k : string) : JSV :=
  match getProp v k with
  | Ok x => x
  | Throw _ => None
  end.

(** The verdict of the filter callback on a block that is not [null]. *)
Definition verdict (block : JSON) : Verdict :=
  let ty := field block "type" in
  if negb (truthy ty) || negb (includes allowedTypes ty) then InvalidType
  else if strict_eq_str ty "mcq"
          && (negb (truthy (field block "question"))
              || negb (isArray (field block "options"))
              || eq_null (field block "answer")
              || negb (truthy (field block "explanation")))
       then InvalidMcq
       else Keep.

(** The filter keeps the block. *)
Definition kept (block : JSON) : bool :=
  match classify block with
  | Ok Keep => true
  | _ => false
  end.

Definition warning (title : string) (block : JSON) : list Event :=
  match verdict block with
  | Keep => []
  | InvalidType => [Warn_InvalidType title block]
  | InvalidMcq => [Warn_InvalidMcq title block]
  end.

Definition warnings (title : string) (blocks : list JSON) : list Event :=
  flat_map (warning title) blocks.

Definition is_type (t : string) (block : JSON) : bool :=
  strict_eq_str (field block "type") t.

(** The validation as the specification words it: the type is one of
    the three, and an mcq block has a non-empty question, an array of
    options, an answer that is not null and an explanation that is not
    null. *)
Definition spec_keeps (block : JSON) : bool :=
  includes allowedTypes (field block "type")
  && (negb (is_type "mcq" block)
      || (truthy (field block "question")
          && isArray (field block "options")
          && negb (eq_null (field block "answer"))
          && negb (eq_null (field block "explanation")))).

(** The validation as the code performs it. *)
Definition code_keeps (block : JSON) : bool :=
  includes allowedTypes (field block "type")
  && (negb (is_type "mcq" block)
      || (truthy (field block "question")
          && isArray (field block "options")
          && negb (eq_null (field block "answer"))
          && truthy (field block "explanation"))).

(** A block the filter lets through, said without the code: its type
    is one of the three strings and an mcq block carries a truthy
    question, an array of options, an answer and a truthy explanation. *)
Definition valid_block (block : JSON) : Prop :=
  exists t,
    field block "type" = Some (JStr t)
    /\ In t allowedTypes
    /\ (t = "mcq" ->
        truthy (field block "question") = true
        /\ isArray (field block "options") = true
        /\ eq_null (field block "answer") = false
        /\ truthy (field block "explanation") = true).

(** The column value a block type is stored as. *)
Definition stored_type (t : string) : option BlockType :=
  if String.eqb t "paragraph" then Some PARAGRAPH
  else if String.eqb t "video" then Some VIDEO
  else if String.eqb t "mcq" then Some MCQ
  else None.

(* ------------------------------------------------------------------ *)
(** *** Sample data *)

Definition paragraph_A : JSON :=
  JObj [("type", JStr "paragraph"); ("text", JStr "A")].

Definition video_intro : JSON :=
  JObj [("type", JStr "video"); ("text", JStr "intro to sorting")].

Definition mcq_Q : JSON :=
  JObj [("type", JStr "mcq"); ("question", JStr "Q");
        ("options", JArr [JStr "a"; JStr "b"]); ("answer", JNum (inject_Z 0));
        ("explanation", JStr "E")].

Definition mcq_empty_explanation : JSON :=
  JObj [("type", JStr "mcq"); ("question", JStr "Q");
        ("options", JArr [JStr "a"; JStr "b"]); ("answer", JNum (inject_Z 0));
        ("explanation", JStr EmptyString)].


Definition upper_PARAGRAPH : JSON :=
  JObj [("type", JStr "PARAGRAPH"); ("text", JStr "A")].

Definition mixed_Mcq : JSON :=
  JObj [("type", JStr "Mcq"); ("question", JStr "Q");
        ("options", JArr [JStr "a"; JStr "b"]); ("answer", JNum (inject_Z 0));
        ("explanation", JStr "E")].

(** One course, one module, two lessons; the first lesson already has
    content from an earlier run. *)
Definition sample_db : DB :=
  {| courses := [mkCourseRow 1 "Algorithms"];
     modules := [mkModuleRow 2 "Sorting" 1];
     lessons := [mkLessonRow 3 "Insertion sort" ["old objective"] false 2;
                 mkLessonRow 4 "Merge sort" [] false 2];
     contentBlocks := [mkContentBlockRow 5 0 PARAGRAPH (Some "old") None None 3 None];
     mcqOptions := [];
     videoSearches := [mkVideoSearchRow 6 "old query" 3];
     nextId := 7 |}.

Definition sample_world : World := mkWorld sample_db [] 0.

Definition sample_lesson : LessonRow :=
  mkLessonRow 3 "Insertion sort" ["old objective"] false 2.

(* ------------------------------------------------------------------ *)
(** *** The update built from kept blocks, in closed form *)

(** The type of a block whose type is a string. *)
Definition type_string (b : JSON) : string :=
  match field b "type" with
  | Some (JStr t) => t
  | _ => EmptyString
  end.

(** The record built by the [map] callback for a block with a string type. *)
Definition block_create_of (b : JSON) (index : nat) : BlockCreate :=
  {| bc_order := index;
     bc_type := toUpperCase (type_string b);
     bc_text := js_or (field b "text") (Some JNull);
     bc_language := js_or (field b "language") (Some JNull);
     bc_videoUrl := if String.eqb (type_string b) "video" then field b "text" else Some JNull;
     bc_mcq := if String.eqb (type_string b) "mcq"
               then Some {| mc_question := field b "question";
                            mc_options := field b "options";
                            mc_answer := field b "answer";
                            mc_explanation := field b "explanation" |}
               else None |}.

Fixpoint block_creates (validBlocks : list JSON) (index : nat) : list BlockCreate :=
  match validBlocks with
  | [] => []
  | b :: r => block_create_of b index :: block_creates r (S index)
  end.

Definition video_creates (validBlocks : list JSON) : list VideoCreate :=
  map (fun v => {| vc_query := field v "text" |}) (filter (is_type "video") validBlocks).

Definition data_of (validBlocks : list JSON) : LessonUpdateData :=
  {| d_isEnriched := true;
     d_objectives := [];
     d_contentBlocks := {| nw_deleteMany := true; nw_create := block_creates validBlocks 0 |};
     d_videos := {| nw_deleteMany := true; nw_create := video_creates validBlocks |} |}.

(* ------------------------------------------------------------------ *)
(** *** Reading the tables *)

Definition lesson_blocks (d : DB) (lessonId : Id) : list ContentBlockRow :=
  filter (fun r => Nat.eqb (cb_lessonId r) lessonId) (contentBlocks d).

Definition other_blocks (d : DB) (lessonId : Id) : list ContentBlockRow :=
  filter (fun r => negb (Nat.eqb (cb_lessonId r) lessonId)) (contentBlocks d).

Definition lesson_videos (d : DB) (lessonId : Id) : list VideoSearchRow :=
  filter (fun r => Nat.eqb (vs_lessonId r) lessonId) (videoSearches d).

Definition other_videos (d : DB) (lessonId : Id) : list VideoSearchRow :=
  filter (fun r => negb (Nat.eqb (vs_lessonId r) lessonId)) (videoSearches d).

Definition find_mcq (d : DB) (id : Id) : option MCQOptionRow :=
  find (fun m => Nat.eqb (mcq_id m) id) (mcqOptions d).

(** A block as a reader of the lesson sees it: the row without its
    keys, joined with the MCQOption it points at. *)
Record BlockView : Type := mkBlockView {
  v_order : Z;
  v_type : BlockType;
  v_text : option string;
  v_language : option string;
  v_videoUrl : option string;
  v_mcq : option (string * list string * Z * option string)
}.

Definition mcq_payload (m : MCQOptionRow) : string * list string * Z * option string :=
  (mcq_question m, mcq_options m, mcq_answer m, mcq_explanation m).

Definition block_view (d : DB) (r : ContentBlockRow) : BlockView :=
  {| v_order := cb_order r;
     v_type := cb_type r;
     v_text := cb_text r;
     v_language := cb_language r;
     v_videoUrl := cb_videoUrl r;
     v_mcq := match cb_mcqId r with
              | Some id => option_map mcq_payload (find_mcq d id)
              | None => None
              end |}.

(** The content set of a lesson: its blocks in table order, its video
    queries, and the two columns of its row. *)
Definition lesson_content (d : DB) (lessonId : Id) : list BlockView :=
  map (block_view d) (lesson_blocks d lessonId).

Definition lesson_queries (d : DB) (lessonId : Id) : list string :=
  map vs_query (lesson_videos d lessonId).

Definition lesson_flags (d : DB) (lessonId : Id) : list (bool * list string) :=
  map (fun l => (lesson_isEnriched l, lesson_objectives l))
      (filter (fun l => Nat.eqb (lesson_id l) lessonId) (lessons d)).

(** The primary key of MCQOption, and keys drawn below the counter. *)
Definition mcq_keys_ok (d : DB) : Prop :=
  NoDup (map mcq_id (mcqOptions d))
  /\ Forall (fun m => mcq_id m < nextId d) (mcqOptions d).

(** An MCQOption row no content block points at. *)
Definition orphaned (d : DB) (m : MCQOptionRow) : Prop :=
  In m (mcqOptions d)
  /\ forall r, In r (contentBlocks d) -> cb_mcqId r <> Some (mcq_id m).

Definition sample_blocks : list JSON :=
  [paragraph_A; mixed_Mcq; video_intro; mcq_Q].

Definition sample_valid : list JSON := [paragraph_A; video_intro; mcq_Q].

(** Content in which no block passes the filter. *)
Definition invalid_blocks : list JSON := [upper_PARAGRAPH; mcq_empty_explanation].

(** The store after the loop body ran on a lesson and its content. *)
Definition store_after (lesson : LessonRow) (blocks : list JSON) (w : World) : DB :=
  w_db (snd (process_lesson lesson (JArr blocks) w)).

Definition world_after (lesson : LessonRow) (blocks : list JSON) (w : World) : World :=
  snd (process_lesson lesson (JArr blocks) w).

(* ------------------------------------------------------------------ *)
(** *** Created rows *)

(** How a created row relates to the create record it comes from. *)
Definition created_row (lessonId : Id) (mcqs : list MCQOptionRow)
  (b : BlockCreate) (row : ContentBlockRow) : Prop :=
  block_row (cb_id row) lessonId (cb_mcqId row) b = Ok row
  /\ match bc_mcq b with
     | None => cb_mcqId row = None
     | Some m =>
         exists mrow,
           cb_mcqId row = Some (mcq_id mrow)
           /\ In mrow mcqs
           /\ mcq_row (mcq_id mrow) m = Ok mrow
     end.

(** How a created row relates to the block it was created from. *)
Definition row_of_block (lessonId : Id) (mcqs : list MCQOptionRow)
  (b : JSON) (row : ContentBlockRow) : Prop :=
  (exists i, block_row (cb_id row) lessonId (cb_mcqId row) (block_create_of b i) = Ok row)
  /\ if is_type "mcq" b
     then exists m, cb_mcqId row = Some (mcq_id m) /\ In m mcqs
                    /\ mcq_row (mcq_id m)
                         {| mc_question := field b "question";
                            mc_options := field b "options";
                            mc_answer := field b "answer";
                            mc_explanation := field b "explanation" |} = Ok m
     else cb_mcqId row = None.

(** The first and the second run of the loop body on one mcq block. *)
Definition world_after_first_run : World :=
  world_after sample_lesson [mcq_Q] sample_world.

Definition world_after_second_run : World :=
  world_after sample_lesson [mcq_Q] world_after_first_run.

(** The MCQOption row created by the first run. *)
Definition first_run_option : MCQOptionRow :=
  mkMCQOptionRow 7 "Q" ["a"; "b"] 0 (Some "E").

(* ------------------------------------------------------------------ *)
(** *** Positional pairing, as the specification words it *)

(** The AI-output module at the position of the i-th database module,
    and the AI-output lesson at the position of its j-th lesson. *)
Definition ai_module (enrichedContent : JSON) (i : nat) : JSV :=
  opt_index (field enrichedContent "modules") i.

Definition ai_lesson (enrichedContent : JSON) (i j : nat) : JSV :=
  opt_index (field (or_default (ai_module enrichedContent i) empty_module) "lessons") j.

(** The content set a database position gets: that of the AI-output
    lesson at the same position, empty when there is none. *)
Definition content_at (enrichedContent : JSON) (i j : nat) : JSON :=
  or_default (field (or_default (ai_lesson enrichedContent i j) empty_lesson) "content")
             (JArr []).

Fixpoint pair_lessons (enrichedContent : JSON) (i : nat) (ls : list LessonRow) (j : nat)
  : list (LessonRow * JSON) :=
  match ls with
  | [] => []
  | lesson :: rest =>
      (lesson, content_at enrichedContent i j) :: pair_lessons enrichedContent i rest (S j)
  end.

Fixpoint pair_modules (enrichedContent : JSON) (ms : list Module) (i : nat)
  : list (LessonRow * JSON) :=
  match ms with
  | [] => []
  | module :: rest =>
      pair_lessons enrichedContent i (m_lessons module) 0
      ++ pair_modules enrichedContent rest (S i)
  end.

(** The loop body on each pair, in order. *)
Fixpoint for_each_pair (ps : list (LessonRow * JSON)) : M unit :=
  match ps with
  | [] => ret tt
  | (lesson, contentBlocks) :: rest =>
      process_lesson lesson contentBlocks ;; for_each_pair rest
  end.

(** A course of one module with two lessons, and an AI output that has
    content for the first lesson only. *)
Definition two_lessons : list Module :=
  [mkModule "Sorting" [mkLessonRow 3 "Insertion sort" ["old objective"] false 2;
                       mkLessonRow 4 "Merge sort" [] false 2]].

Definition one_lesson_output : JSON :=
  JObj [("modules",
         JArr [JObj [("lessons", JArr [JObj [("content", JArr [paragraph_A])]])]])].

(* ------------------------------------------------------------------ *)
(** *** One attempt of the retry loop *)

(** What the [try] block of an attempt evaluates to. *)
Definition attempt_result (o : GenOutcome) : Res string :=
  match o with
  | GenThrows msg => Throw msg
  | GenResponse text => strip_response text
  end.

(** The world after [k] generator calls and the events [evs]. *)
Definition advance (w : World) (evs : list Event) (k : nat) : World :=
  {| w_db := w_db w; w_trace := w_trace w ++ evs; w_calls := w_calls w + k |}.

(** The console, generator and timer events of a failed attempt that
    is followed by another one, and of a successful attempt. *)
Definition failed_attempt (n : nat) (msg : string) : list Event :=
  [Log_Attempt n; Api_generateContent; Err_GenerationFailed n msg; Sleep 1000].

Definition last_failed_attempt (n : nat) (msg : string) : list Event :=
  [Log_Attempt n; Api_generateContent; Err_GenerationFailed n msg; Err_MaxAttempts].

Definition successful_attempt (n : nat) : list Event :=
  [Log_Attempt n; Api_generateContent; Log_ResponseReceived].

(** The number of generator calls in a trace. *)
Definition count_calls (evs : list Event) : nat :=
  List.length (filter (fun e => match e with Api_generateContent => true | _ => false end) evs).

(** A generator that fails twice and then answers, one that always
    fails, and a parser that knows one text. *)
Definition fails_twice (n : nat) : GenOutcome :=
  match n with
  | 0 => GenThrows "503 Service Unavailable"
  | 1 => GenThrows "fetch failed"
  | _ => GenResponse (Some "```json
COURSE
```")
  end.

Definition always_fails (n : nat) : GenOutcome := GenThrows "fetch failed".

Definition sample_parse (s : string) : Res JSON :=
  if String.eqb s "COURSE" then Ok one_lesson_output
  else if String.eqb s "OBJECT" then Ok (JObj [("title", JStr "Algorithms")])
  else if String.eqb s "ARRAY" then Ok (JArr [paragraph_A; upper_PARAGRAPH])
  else Throw "Unexpected token".

Definition answers (text : string) (n : nat) : GenOutcome := GenResponse (Some text).

(* ------------------------------------------------------------------ *)
(** *** Fences and shapes *)


(** An event that is no write to the store. *)
Definition no_write (e : Event) : Prop :=
  forall id data, e <> Db_lessonUpdate id data.

(** Every content block of type MCQ points at exactly one MCQOption row. *)
Definition mcq_blocks_linked (d : DB) : Prop :=
  forall row,
    In row (contentBlocks d) -> cb_type row = MCQ ->
    exists m,
      cb_mcqId row = Some (mcq_id m)
      /\ In m (mcqOptions d)
      /\ forall m', In m' (mcqOptions d) -> mcq_id m' = mcq_id m -> m' = m.

(* ------------------------------------------------------------------ *)
(** *** Relations between the store before and after a run *)

(** The computation leaves the store related to what it was. *)
Definition keeps (R : DB -> DB -> Prop) {A} (m : M A) : Prop :=
  forall w, R (w_db w) (w_db (snd (m w))).

(** The columns of a lesson the pipeline reads but never writes. *)
Definition lesson_key (l : LessonRow) : Id * string * Id :=
  (lesson_id l, lesson_title l, lesson_moduleId l).

(** The tables hold the same courses, the same modules and the same
    lessons up to [isEnriched] and [objectives], whatever the order of
    their rows. *)
Definition same_rows (d d' : DB) : Prop :=
  Permutation (courses d) (courses d')
  /\ Permutation (modules d) (modules d')
  /\ Permutation (map lesson_key (lessons d)) (map lesson_key (lessons d')).

(** No lesson went from enriched to not enriched. *)
Definition enrichment_kept (d d' : DB) : Prop :=
  Forall2 (fun l l' =>
             lesson_id l' = lesson_id l
             /\ (lesson_isEnriched l = true -> lesson_isEnriched l' = true))
          (lessons d) (lessons d').

(** No MCQOption row was deleted or changed. *)
Definition options_kept (d d' : DB) : Prop :=
  exists created, mcqOptions d' = mcqOptions d ++ created.

(** The two invariants of the MCQ tables carry over. *)
Definition links_kept (d d' : DB) : Prop :=
  mcq_keys_ok d /\ mcq_blocks_linked d -> mcq_keys_ok d' /\ mcq_blocks_linked d'.

(* ------------------------------------------------------------------ *)
(** *** Content the loop body cannot process *)

(** Content on which the loop body throws before any validation
    result: a truthy value that is no array, or an array with a [null]
    element. *)
Definition malformed_content (c : JSON) : Prop :=
  match c with
  | JArr blocks => In JNull blocks
  | _ => True
  end.

Definition is_string (v : JSV) : bool :=
  match v with
  | Some (JStr _) => true
  | _ => false
  end.

(** The lesson at the first position of the first module. *)
Definition first_position (ms : list Module) : option LessonRow :=
  match ms with
  | [] => None
  | m :: _ => hd_error (m_lessons m)
  end.

(** A kept video block without a text. *)
Definition video_without_text : JSON := JObj [("type", JStr "video")].

(** An AI output whose second lesson has a [null] in its content. *)
Definition output_with_null : JSON :=
  JObj [("modules",
         JArr [JObj [("lessons",
                      JArr [JObj [("content", JArr [paragraph_A])];
                            JObj [("content", JArr [mcq_Q; JNull])]])]])].

Definition sample_course : Course := mkCourse "Algorithms" two_lessons.

(** The expression returned a value. *)
Definition is_ok {A} (r : Res A) : bool :=
  match r with
  | Ok _ => true
  | Throw _ => false
  end.

(* ------------------------------------------------------------------ *)
(** *** The connection to the store over a run *)

Definition not_disconnect (e : Event) : Prop := e <> Db_disconnect.

(** The computation only adds events to the trace, none of them
    [prisma.$disconnect()]. *)
Definition stays_connected {A} (m : M A) : Prop :=
  forall w, exists evs,
    w_trace (snd (m w)) = w_trace w ++ evs /\ Forall not_disconnect evs.

(** The run gets past the early [return]s of lines 25-28, 108-111 and
    135-146: the course is found, an attempt succeeds, and the parsing
    step yields enriched content. *)
Definition reaches_write_stage (generator : nat -> GenOutcome)
  (JSON_parse : string -> Res JSON) (courseId : Id) (w : World) : Prop :=
  exists course output w1 enrichedContent,
    course_findUnique (w_db w) courseId = Some course
    /\ retry_loop generator maxAttempts 0 w = (Ok (Break output), w1)
    /\ fst (parse_stage JSON_parse (Some output) w1) = Ok (Some enrichedContent).

(* ================================================================== *)
(** ** Reading a lesson back: [GET /lessons/:id/full] of moduleroutes.js *)


















(* ================================================================== *)
(** ** The length of a course: [POST /generate] of airoutes.js, lines 95-96 *)

Definition is_digit (c : ascii) : bool :=
  let n := nat_of_ascii c in
  (48 <=? n)%nat && (n <=? 57)%nat.

(** The longest run of digits at the start of [s], and what follows it. *)
Fixpoint digits_of (s : string) : string * string :=
  match s with
  | EmptyString => (EmptyString, EmptyString)
  | String c r =>
      if is_digit c
      then let (ds, rest) := digits_of r in (String c ds, rest)
      else (EmptyString, s)
  end.

(** [/(\d+)\s*week(s)?/i] tried at the start of [s], giving the first
    group. The digits and the white space are taken greedily; giving
    some of them back cannot make [week] match, since what would follow
    is a digit or a white space. The letters are compared after
    [toUpperCase], as the [i] flag does. *)
Definition weeks_here (s : string) : option string :=
  let (ds, rest) := digits_of s in
  match ds with
  | EmptyString => None
  | String _ _ =>
      if String.prefix "WEEK" (toUpperCase (trimStart rest)) then Some ds else None
  end.

(** [duration.match(/(\d+)\s*week(s)?/i)]: the leftmost match. *)
Fixpoint match_weeks (s : string) : option string :=
  match weeks_here s with
  | Some ds => Some ds
  | None =>
      match s with
      | EmptyString => None
      | String _ r => match_weeks r
      end
  end.

(** The value of a string of digits, after [acc]. *)
Fixpoint digits_value (acc : Z) (ds : string) : Z :=
  match ds with
  | EmptyString => acc
  | String c r => digits_value (10 * acc + Z.of_nat (nat_of_ascii c - 48)) r
  end.

(** A JS number that holds an integer, or [Infinity]. *)
Inductive JSNumber : Type :=
| Finite (z : Z)
| Infinity.

(** The number nearest to the integer [z], for [z] not negative: [z]
    itself below 2^53; above, [z] rounded to 53 significant bits, a tie
    going to the even one; [Infinity] when that reaches 2^1024. *)
Definition nearest_number (z : Z) : JSNumber :=
  let k := Z.log2 z in
  if (k <? 53)%Z then Finite z
  else
    let e := (k - 52)%Z in
    let q := Z.shiftr z e in
    let r := Z.land z (Z.ones e) in
    let half := Z.shiftl 1 (e - 1) in
    let q' := if (half <? r)%Z || ((r =? half)%Z && Z.odd q) then (q + 1)%Z else q in
    let v := Z.shiftl q' e in
    if (v <? 2 ^ 1024)%Z then Finite v else Infinity.

(** [parseInt] on a string of digits: the number nearest to their
    value (past the 20th digit an implementation may take the digits
    for zeros; the nearest number is what V8 gives). *)
Definition parseInt_digits (ds : string) : JSNumber :=
  nearest_number (digits_value 0 ds).

(** [x * 7] on such a number. *)
Definition times_seven (x : JSNumber) : JSNumber :=
  match x with
  | Finite z => nearest_number (z * 7)
  | Infinity => Infinity
  end.

(** [durationMatch ? parseInt(durationMatch[1]) * 7 : 7] *)
Definition durationDays (duration : string) : JSNumber :=
  match match_weeks duration with
  | Some ds => times_seven (parseInt_digits ds)
  | None => Finite 7
  end.

Fixpoint all_digits (s : string) : bool :=
  match s with
  | EmptyString => true
  | String c r => is_digit c && all_digits r
  end.

Fixpoint no_digit (s : string) : bool :=
  match s with
  | EmptyString => true
  | String c r => negb (is_digit c) && no_digit r
  end.

(** The text has [week], in any letter case, somewhere. *)
Fixpoint mentions_week (s : string) : bool :=
  String.prefix "WEEK" (toUpperCase s)
  || match s with
     | EmptyString => false
     | String _ r => mentions_week r
     end.

(* ------------------------------------------------------------------ *)
(** *** Fences, and white space beyond ASCII *)



(** U+00A0, U+FEFF and U+2028 in UTF-8. *)
Definition nbsp : string :=
  String (ascii_of_nat 194) (String (ascii_of_nat 160) EmptyString).



(** A parser that returns [v] whatever the text. *)
Definition parse_as (v : JSON) (s : string) : Res JSON := Ok v.

(** An AI output with nothing for the first lesson and an mcq block for
    the second. *)
Definition second_lesson_output : JSON :=
  JObj [("modules",
         JArr [JObj [("lessons",
                      JArr [JObj [("content", JArr [])];
                            JObj [("content", JArr [mcq_Q])]])]])].

(* ================================================================== *)
(** ** Basic facts *)

Unset Implicit Arguments.

Lemma getProp_nonnull (v : JSON) (k : string) :
  v <> JNull -> getProp v k = Ok (field v k).
Proof.
  intros Hv. unfold field. destruct v; try reflexivity. congruence.
Qed.

Lemma classify_nonnull (block : JSON) :
  block <> JNull -> classify block = Ok (verdict block).
Proof.
  intros Hb. unfold classify, verdict.
  rewrite !getProp_nonnull by assumption. cbn [res_bind].
  destruct (negb (truthy (field block "type")) || negb (includes allowedTypes (field block "type")));
    [reflexivity|].
  destruct (strict_eq_str (field block "type") "mcq"); cbn [andb]; [|reflexivity].
  destruct (negb (truthy (field block "question")) || negb (isArray (field block "options"))
            || eq_null (field block "answer") || negb (truthy (field block "explanation")));
    reflexivity.
Qed.

(** On [null] the callback throws: [block.type] is a TypeError. *)
Lemma classify_null : exists msg, classify JNull = Throw msg.
Proof. eexists. reflexivity. Qed.

Lemma kept_nonnull (block : JSON) : kept block = true -> block <> JNull.
Proof. intros H ->. discriminate H. Qed.

Lemma includes_truthy (v : JSV) : includes allowedTypes v = true -> truthy v = true.
Proof.
  destruct v as [[| | |s| |]|]; cbn; try discriminate.
  destruct (String.eqb_spec s "paragraph") as [->|]; [reflexivity|].
  destruct (String.eqb_spec s "video") as [->|]; [reflexivity|].
  destruct (String.eqb_spec s "mcq") as [->|]; [reflexivity|discriminate].
Qed.

Lemma kept_code_keeps (block : JSON) :
  block <> JNull -> kept block = code_keeps block.
Proof.
  intros Hb. unfold kept, code_keeps, is_type. rewrite (classify_nonnull _ Hb).
  unfold verdict.
  destruct (includes allowedTypes (field block "type")) eqn:Hin.
  - rewrite (includes_truthy _ Hin). cbn [negb orb andb].
    destruct (strict_eq_str (field block "type") "mcq"); cbn [negb orb andb]; [|reflexivity].
    destruct (truthy (field block "question")); cbn [negb orb andb]; [|reflexivity].
    destruct (isArray (field block "options")); cbn [negb orb andb]; [|reflexivity].
    destruct (eq_null (field block "answer")); cbn [negb orb andb]; [reflexivity|].
    destruct (truthy (field block "explanation")); reflexivity.
  - rewrite orb_true_r. reflexivity.
Qed.

Lemma kept_verdict (block : JSON) :
  block <> JNull -> kept block = true <-> verdict block = Keep.
Proof.
  intros Hb. unfold kept. rewrite (classify_nonnull _ Hb).
  destruct (verdict block); split; congruence.
Qed.

Lemma log_to_nil (w : World) : log_to w [] = w.
Proof. destruct w. unfold log_to. cbn. rewrite app_nil_r. reflexivity. Qed.

Lemma log_to_app (w : World) (a b : list Event) :
  log_to (log_to w a) b = log_to w (a ++ b).
Proof. unfold log_to. cbn. rewrite app_assoc. reflexivity. Qed.

Lemma filter_blocks_run (title : string) (blocks : list JSON) (w : World) :
  Forall (fun b => b <> JNull) blocks ->
  filter_blocks title blocks w
  = (Ok (filter kept blocks), log_to w (warnings title blocks)).
Proof.
  intros H. revert w. induction H as [|b r Hb _ IH]; intros w.
  - cbn. rewrite log_to_nil. reflexivity.
  - cbn [filter_blocks filter warnings flat_map]. unfold bind at 1, lift.
    unfold kept, warning. rewrite (classify_nonnull _ Hb).
    destruct (verdict b); unfold bind, ret, emit; rewrite IH.
    + rewrite app_nil_l. reflexivity.
    + rewrite log_to_app. reflexivity.
    + rewrite log_to_app. reflexivity.
Qed.

(** Filtering only writes warnings to the console. *)
Lemma filter_blocks_frame (title : string) (blocks : list JSON) (w : World) :
  exists evs, snd (filter_blocks title blocks w) = log_to w evs
              /\ Forall no_write evs.
Proof.
  revert w. induction blocks as [|b r IH]; intros w.
  - exists []. cbn. rewrite log_to_nil. split; [reflexivity|constructor].
  - cbn [filter_blocks]. unfold bind at 1, lift.
    destruct (classify b) as [v|msg].
    + assert (Hstep : exists evs1,
                 Forall no_write evs1 /\
                 forall k : bool -> M (list JSON),
                   bind (match v with
                         | Keep => ret true
                         | InvalidType => bind (emit (Warn_InvalidType title b)) (fun _ => ret false)
                         | InvalidMcq => bind (emit (Warn_InvalidMcq title b)) (fun _ => ret false)
                         end) k w
                   = k (match v with Keep => true | _ => false end) (log_to w evs1)).
      { destruct v.
        - exists []. split; [constructor|]. intros k. rewrite log_to_nil. reflexivity.
        - exists [Warn_InvalidType title b].
          split; [constructor; [unfold no_write; congruence|constructor]|].
          intros k. reflexivity.
        - exists [Warn_InvalidMcq title b].
          split; [constructor; [unfold no_write; congruence|constructor]|].
          intros k. reflexivity. }
      destruct Hstep as (evs1 & Hev1 & Hk). rewrite Hk.
      unfold bind. destruct (IH (log_to w evs1)) as (evs & Hs & Hev).
      exists (evs1 ++ evs). split; [|apply Forall_app; split; assumption].
      rewrite <- log_to_app, <- Hs.
      destruct (filter_blocks title r (log_to w evs1)) as [[rest|msg] w']; reflexivity.
    + exists []. cbn. rewrite log_to_nil. split; [reflexivity|constructor].
Qed.

Lemma field_nonnull (b : JSON) (k : string) (v : JSON) :
  field b k = Some v -> b <> JNull.
Proof. intros H ->. discriminate H. Qed.

Lemma includes_allowed (v : JSV) :
  includes allowedTypes v = true <-> exists t, v = Some (JStr t) /\ In t allowedTypes.
Proof.
  split.
  - destruct v as [[| | |s| |]|]; cbn; try discriminate.
    intros H. exists s. split; [reflexivity|].
    rewrite !orb_true_iff in H. rewrite !String.eqb_eq in H.
    destruct H as [H|[H|[H|H]]]; [| | |discriminate]; subst s; cbn; auto.
  - intros (t & -> & [<-|[<-|[<-|[]]]]); reflexivity.
Qed.

Lemma code_keeps_valid (b : JSON) : code_keeps b = true <-> valid_block b.
Proof.
  unfold code_keeps, valid_block, is_type. split.
  - intros H. apply andb_true_iff in H as [Hin H].
    apply includes_allowed in Hin as (t & Ht & Hin).
    exists t. split; [exact Ht|split; [exact Hin|]].
    intros ->. rewrite Ht in H. cbn in H.
    repeat (apply andb_true_iff in H as [H ?]).
    repeat split; try assumption.
    destruct (eq_null (field b "answer")); [discriminate|reflexivity].
  - intros (t & Ht & Hin & Hm). apply andb_true_iff. split.
    + apply includes_allowed. exists t. split; assumption.
    + rewrite Ht. cbn [strict_eq_str].
      destruct (String.eqb_spec t "mcq") as [->|Hne]; [|reflexivity].
      destruct (Hm eq_refl) as (-> & -> & -> & ->). reflexivity.
Qed.

Lemma kept_valid (b : JSON) : kept b = true <-> valid_block b.
Proof.
  split.
  - intros H. apply code_keeps_valid.
    rewrite <- (kept_code_keeps _ (kept_nonnull _ H)). exact H.
  - intros H. destruct H as (t & Ht & Hrest).
    rewrite (kept_code_keeps _ (field_nonnull _ _ _ Ht)).
    apply code_keeps_valid. exists t. split; assumption.
Qed.

Lemma filter_kept_code (blocks : list JSON) :
  Forall (fun b => b <> JNull) blocks ->
  filter kept blocks = filter code_keeps blocks.
Proof.
  intros H. apply filter_ext_in. intros b Hb.
  apply kept_code_keeps. rewrite Forall_forall in H. apply H, Hb.
Qed.

Lemma warnings_dropped (title : string) (blocks : list JSON) (b : JSON) :
  In b blocks -> b <> JNull -> kept b = false ->
  In (Warn_InvalidType title b) (warnings title blocks)
  \/ In (Warn_InvalidMcq title b) (warnings title blocks).
Proof.
  intros Hin Hb Hk. unfold warnings.
  assert (Hv : verdict b <> Keep).
  { intros Hv. apply (kept_verdict _ Hb) in Hv. congruence. }
  destruct (verdict b) eqn:E; [congruence| |].
  - left. apply in_flat_map. exists b. split; [exact Hin|].
    unfold warning. rewrite E. now left.
  - right. apply in_flat_map. exists b. split; [exact Hin|].
    unfold warning. rewrite E. now left.
Qed.

Lemma kept_type (b : JSON) :
  kept b = true -> exists t, field b "type" = Some (JStr t) /\ In t allowedTypes.
Proof.
  intros H. apply kept_valid in H. destruct H as (t & Ht & Hin & _).
  exists t. split; assumption.
Qed.

Lemma block_create_typed (b : JSON) (t : string) (index : nat) :
  field b "type" = Some (JStr t) ->
  block_create b index = Ok (block_create_of b index)
  /\ type_string b = t.
Proof.
  intros Ht. pose proof (field_nonnull _ _ _ Ht) as Hb.
  unfold block_create, block_create_of, type_string.
  rewrite !getProp_nonnull by assumption.
  rewrite Ht. split; reflexivity.
Qed.

Lemma allowed_cases (t : string) :
  In t allowedTypes -> t = "paragraph" \/ t = "video" \/ t = "mcq".
Proof. intros [<-|[<-|[<-|[]]]]; auto. Qed.

Lemma stored_type_allowed (t : string) :
  In t allowedTypes ->
  exists ty, stored_type t = Some ty /\ as_BlockType (toUpperCase t) = Ok ty.
Proof.
  intros H. destruct (allowed_cases _ H) as [->|[->| ->]]; eexists; split; reflexivity.
Qed.

Lemma block_row_type (id lessonId : Id) (mcqId : option Id) (bc : BlockCreate)
  (row : ContentBlockRow) :
  block_row id lessonId mcqId bc = Ok row ->
  as_BlockType (bc_type bc) = Ok (cb_type row)
  /\ as_opt_String "text" (bc_text bc) = Ok (cb_text row)
  /\ as_opt_String "language" (bc_language bc) = Ok (cb_language row)
  /\ as_opt_String "videoUrl" (bc_videoUrl bc) = Ok (cb_videoUrl row)
  /\ cb_id row = id /\ cb_lessonId row = lessonId /\ cb_mcqId row = mcqId
  /\ cb_order row = Z.of_nat (bc_order bc).
Proof.
  unfold block_row.
  destruct (as_BlockType (bc_type bc)); [|discriminate].
  destruct (as_opt_String "text" (bc_text bc)); [|discriminate].
  destruct (as_opt_String "language" (bc_language bc)); [|discriminate].
  destruct (as_opt_String "videoUrl" (bc_videoUrl bc)); [|discriminate].
  cbn. intros [= <-]. cbn. repeat split; reflexivity.
Qed.

(* ================================================================== *)
(** ** Per-block validation *)

(** C5, as amended: a block that is not [null] is kept if and only if
    its type is one of paragraph, video and mcq and, when it is mcq, it
    has a truthy (non-empty) question, an array of options, an answer
    that is not null and a truthy (non-empty) explanation; every other
    such block is dropped with a warning on the console, and the filter
    returns normally, so that the run goes on. *)
Theorem validation_keeps_exactly_valid_blocks
  (title : string) (blocks : list JSON) (w : World) :
  Forall (fun b => b <> JNull) blocks ->
  filter_blocks title blocks w
  = (Ok (filter code_keeps blocks), log_to w (warnings title blocks))
  /\ (forall b, In b (filter code_keeps blocks) <-> In b blocks /\ valid_block b)
  /\ (forall b, In b blocks -> ~ valid_block b ->
      In (Warn_InvalidType title b) (warnings title blocks)
      \/ In (Warn_InvalidMcq title b) (warnings title blocks)).
Proof.
  intros Hnn. split; [|split].
  - rewrite <- (filter_kept_code _ Hnn). apply filter_blocks_run, Hnn.
  - intros b. rewrite filter_In, code_keeps_valid. reflexivity.
  - intros b Hin Hinv. apply warnings_dropped; [exact Hin| |].
    + rewrite Forall_forall in Hnn. apply Hnn, Hin.
    + destruct (kept b) eqn:E; [|reflexivity].
      exfalso. apply Hinv, kept_valid, E.
Qed.

Lemma validation_keeps_exactly_valid_blocks_witness :
  Forall (fun b => b <> JNull) [paragraph_A; mixed_Mcq; mcq_empty_explanation; mcq_Q]
  /\ filter_blocks "Insertion sort"
       [paragraph_A; mixed_Mcq; mcq_empty_explanation; mcq_Q] sample_world
     = (Ok [paragraph_A; mcq_Q],
        log_to sample_world
          [Warn_InvalidType "Insertion sort" mixed_Mcq;
           Warn_InvalidMcq "Insertion sort" mcq_empty_explanation]).
Proof.
  assert (H : Forall (fun b => b <> JNull)
                [paragraph_A; mixed_Mcq; mcq_empty_explanation; mcq_Q])
    by (repeat constructor; discriminate).
  split; [exact H|].
  exact (proj1 (validation_keeps_exactly_valid_blocks "Insertion sort" _ sample_world H)).
Defined.

(** C5, as the specification states it, fails: an mcq block whose
    explanation is the empty string has an explanation that is not
    null, and the filter drops it. *)
Lemma empty_explanation_is_dropped :
  spec_keeps mcq_empty_explanation = true
  /\ filter_blocks "Insertion sort" [mcq_empty_explanation] sample_world
     = (Ok [],
        log_to sample_world [Warn_InvalidMcq "Insertion sort" mcq_empty_explanation]).
Proof. split; reflexivity. Qed.

Lemma case_variant_not_allowed (t a : string) :
  In a allowedTypes -> toUpperCase t = toUpperCase a -> t <> a -> ~ In t allowedTypes.
Proof.
  intros Ha Hup Hne Ht.
  destruct (allowed_cases _ Ha) as [->|[->| ->]];
    destruct (allowed_cases _ Ht) as [->|[->| ->]];
    solve [congruence | discriminate Hup].
Qed.

(* ================================================================== *)
(** ** The update built from kept blocks *)

Lemma filter_kept_all (blocks : list JSON) :
  Forall (fun b => kept b = true) (filter kept blocks).
Proof. apply Forall_forall. intros b Hb. apply filter_In in Hb. apply Hb. Qed.

Lemma kept_all_nonnull (vb : list JSON) :
  Forall (fun b => kept b = true) vb -> Forall (fun b => b <> JNull) vb.
Proof. apply Forall_impl. intros b. apply kept_nonnull. Qed.

Lemma map_indexed_kept (vb : list JSON) (index : nat) :
  Forall (fun b => kept b = true) vb ->
  map_indexed block_create vb index = Ok (block_creates vb index).
Proof.
  intros H. revert index. induction H as [|b r Hb _ IH]; intros index; [reflexivity|].
  cbn [map_indexed block_creates].
  destruct (kept_type _ Hb) as (t & Ht & _).
  destruct (@block_create_typed b t index Ht) as [-> _].
  cbn [res_bind]. rewrite IH. reflexivity.
Qed.

Lemma filter_video_nonnull (vb : list JSON) :
  Forall (fun b => b <> JNull) vb ->
  filter_video vb = Ok (filter (is_type "video") vb).
Proof.
  induction 1 as [|b r Hb _ IH]; [reflexivity|].
  cbn [filter_video filter]. rewrite (getProp_nonnull _ _ Hb). cbn [res_bind].
  rewrite IH. reflexivity.
Qed.

Lemma res_map_video_create (vs : list JSON) :
  Forall (fun b => b <> JNull) vs ->
  res_map video_create vs = Ok (map (fun v => {| vc_query := field v "text" |}) vs).
Proof.
  induction 1 as [|b r Hb _ IH]; [reflexivity|].
  cbn [res_map map]. unfold video_create at 1.
  rewrite (getProp_nonnull _ _ Hb). cbn [res_bind]. rewrite IH. reflexivity.
Qed.

Lemma update_data_kept (vb : list JSON) :
  Forall (fun b => kept b = true) vb -> update_data vb = Ok (data_of vb).
Proof.
  intros H. pose proof (kept_all_nonnull _ H) as Hnn.
  unfold update_data. rewrite (map_indexed_kept _ 0 H). cbn [res_bind].
  rewrite (filter_video_nonnull _ Hnn). cbn [res_bind].
  rewrite res_map_video_create; [reflexivity|].
  apply Forall_forall. intros b Hb. apply filter_In in Hb.
  rewrite Forall_forall in Hnn. apply Hnn, Hb.
Qed.

Lemma block_creates_length (vb : list JSON) (index : nat) :
  List.length (block_creates vb index) = List.length vb.
Proof.
  revert index. induction vb as [|b r IH]; intros index; [reflexivity|].
  cbn. rewrite IH. reflexivity.
Qed.

Lemma block_creates_order (vb : list JSON) (index : nat) :
  map bc_order (block_creates vb index) = seq index (List.length vb).
Proof.
  revert index. induction vb as [|b r IH]; intros index; [reflexivity|].
  cbn. rewrite IH. reflexivity.
Qed.

Lemma block_creates_Forall2 (vb : list JSON) (index : nat) :
  Forall2 (fun b bc => exists i, bc = block_create_of b i) vb (block_creates vb index).
Proof.
  revert index. induction vb as [|b r IH]; intros index; [constructor|].
  cbn. constructor; [exists index; reflexivity|apply IH].
Qed.

(* ================================================================== *)
(** ** What the store holds after an update *)

Lemma create_blocks_spec (lessonId : Id) (bs : list BlockCreate) :
  forall (n : Id) cbs mcqs n',
    create_blocks lessonId bs n = Ok (cbs, mcqs, n') ->
    n <= n'
    /\ Forall2 (created_row lessonId mcqs) bs cbs
    /\ Forall (fun m => n <= mcq_id m < n') mcqs
    /\ NoDup (map mcq_id mcqs).
Proof.
  induction bs as [|b r IH]; intros n cbs mcqs n' H.
  - cbn in H. injection H as <- <- <-.
    repeat split; [lia|constructor|constructor|constructor].
  - cbn [create_blocks] in H. destruct (bc_mcq b) as [m|] eqn:Em.
    + destruct (mcq_row n m) as [mrow|] eqn:Emr; [|discriminate].
      cbn [res_bind] in H.
      destruct (block_row (S n) lessonId (Some n) b) as [brow|] eqn:Ebr; [|discriminate].
      cbn [res_bind] in H.
      destruct (create_blocks lessonId r (S (S n))) as [[[cbs' mcqs'] n'']|] eqn:Er;
        [|discriminate].
      cbn [res_bind] in H. injection H as <- <- <-.
      destruct (IH _ _ _ _ Er) as (Hle & HF2 & Hrange & Hnd).
      assert (Hid : mcq_id mrow = n).
      { unfold mcq_row in Emr.
        destruct (as_String "question" (mc_question m)); [|discriminate].
        destruct (as_String_list "options" (mc_options m)); [|discriminate].
        destruct (as_Int "answer" (mc_answer m)); [|discriminate].
        destruct (as_opt_String "explanation" (mc_explanation m)); [|discriminate].
        cbn in Emr. injection Emr as <-. reflexivity. }
      pose proof (block_row_type _ _ _ _ _ Ebr) as (_ & _ & _ & _ & Hbid & _ & Hmid & _).
      split; [lia|]. split; [|split].
      * constructor.
        -- unfold created_row. rewrite Hbid, Hmid. split; [exact Ebr|].
           rewrite Em. exists mrow. rewrite Hid.
           split; [reflexivity|]. split; [now left|]. exact Emr.
        -- eapply Forall2_impl; [|exact HF2]. unfold created_row. intros b' row' [Hrow Hm].
           split; [exact Hrow|]. destruct (bc_mcq b') as [m'|]; [|exact Hm].
           destruct Hm as (mrow' & ? & ? & ?). exists mrow'.
           split; [assumption|]. split; [now right|assumption].
      * constructor; [lia|]. eapply Forall_impl; [|exact Hrange]. cbn. intros; lia.
      * cbn. constructor; [|exact Hnd]. rewrite Hid. intros Hin.
        apply in_map_iff in Hin. destruct Hin as (m' & Heq & Hin').
        rewrite Forall_forall in Hrange. specialize (Hrange _ Hin'). lia.
    + destruct (block_row n lessonId None b) as [brow|] eqn:Ebr; [|discriminate].
      cbn [res_bind] in H.
      destruct (create_blocks lessonId r (S n)) as [[[cbs' mcqs'] n'']|] eqn:Er;
        [|discriminate].
      cbn [res_bind] in H. injection H as <- <- <-.
      destruct (IH _ _ _ _ Er) as (Hle & HF2 & Hrange & Hnd).
      pose proof (block_row_type _ _ _ _ _ Ebr) as (_ & _ & _ & _ & Hbid & _ & Hmid & _).
      split; [lia|]. split; [|split].
      * constructor; [|exact HF2].
        unfold created_row. rewrite Hbid, Hmid. split; [exact Ebr|]. rewrite Em. reflexivity.
      * eapply Forall_impl; [|exact Hrange]. cbn. intros; lia.
      * exact Hnd.
Qed.

Lemma create_videos_spec (lessonId : Id) (vs : list VideoCreate) :
  forall (n : Id) rows n',
    create_videos lessonId vs n = Ok (rows, n') ->
    n <= n'
    /\ map (fun r => Some (JStr (vs_query r))) rows = map vc_query vs
    /\ Forall (fun r => vs_lessonId r = lessonId) rows.
Proof.
  induction vs as [|v r IH]; intros n rows n' H.
  - cbn in H. injection H as <- <-. repeat split; [lia|constructor].
  - cbn [create_videos] in H.
    destruct (vc_query v) as [[| | |q| |]|] eqn:Eq; cbn in H; try discriminate.
    destruct (create_videos lessonId r (S n)) as [[rows' n'']|] eqn:Er; [|discriminate].
    cbn in H. injection H as <- <-.
    destruct (IH _ _ _ Er) as (Hle & Hq & Hl).
    split; [lia|]. split.
    + cbn. rewrite Hq, Eq. reflexivity.
    + constructor; [reflexivity|exact Hl].
Qed.

Lemma create_blocks_lesson (lessonId : Id) (bs : list BlockCreate) (n : Id) cbs mcqs n' :
  create_blocks lessonId bs n = Ok (cbs, mcqs, n') ->
  Forall (fun r => cb_lessonId r = lessonId) cbs.
Proof.
  intros H. destruct (create_blocks_spec _ _ _ _ _ _ H) as (_ & HF2 & _).
  clear H. induction HF2 as [|b row bs' cbs' [Hrow _] _ IH]; constructor; [|exact IH].
  apply block_row_type in Hrow. apply Hrow.
Qed.

(** The shape of the store after an accepted update. *)
Lemma lesson_update_inv (d d' : DB) (lessonId : Id) (data : LessonUpdateData) :
  lesson_update d lessonId data = Ok d' ->
  exists cbs mcqs n1 vrows,
    create_blocks lessonId (nw_create (d_contentBlocks data)) (nextId d) = Ok (cbs, mcqs, n1)
    /\ create_videos lessonId (nw_create (d_videos data)) n1 = Ok (vrows, nextId d')
    /\ courses d' = courses d
    /\ modules d' = modules d
    /\ lessons d' = map (set_lesson lessonId data) (lessons d)
    /\ contentBlocks d'
       = clear_rows (nw_deleteMany (d_contentBlocks data)) cb_lessonId lessonId
                    (contentBlocks d) ++ cbs
    /\ mcqOptions d' = mcqOptions d ++ mcqs
    /\ videoSearches d'
       = clear_rows (nw_deleteMany (d_videos data)) vs_lessonId lessonId
                    (videoSearches d) ++ vrows.
Proof.
  unfold lesson_update.
  destruct (existsb (fun l => Nat.eqb (lesson_id l) lessonId) (lessons d)); [|discriminate].
  destruct (create_blocks lessonId (nw_create (d_contentBlocks data)) (nextId d))
    as [[[cbs mcqs] n1]|] eqn:Ec; [|discriminate].
  cbn [res_bind].
  destruct (create_videos lessonId (nw_create (d_videos data)) n1) as [[vrows n2]|] eqn:Ev;
    [|discriminate].
  cbn [res_bind]. intros [= <-]. cbn.
  exists cbs, mcqs, n1, vrows. repeat split; solve [reflexivity | assumption].
Qed.

Lemma filter_cleared {A} (p : A -> bool) (old new : list A) :
  Forall (fun r => p r = true) new ->
  filter p (filter (fun r => negb (p r)) old ++ new) = new.
Proof.
  intros Hnew. rewrite filter_app.
  assert (Hold : filter p (filter (fun r => negb (p r)) old) = []).
  { induction old as [|a r IH]; [reflexivity|].
    cbn. destruct (p a) eqn:E; cbn; [exact IH|]. rewrite E. exact IH. }
  rewrite Hold. cbn.
  induction Hnew as [|a r Ha _ IH]; [reflexivity|]. cbn. rewrite Ha, IH. reflexivity.
Qed.

(** One run of the loop body on a lesson with at least one kept block. *)
Lemma process_lesson_run (lesson : LessonRow) (blocks : list JSON) (w : World) :
  Forall (fun b => b <> JNull) blocks ->
  filter kept blocks <> [] ->
  process_lesson lesson (JArr blocks) w
  = match lesson_update (w_db w) (lesson_id lesson) (data_of (filter kept blocks)) with
    | Ok d' =>
        (Ok tt,
         {| w_db := d';
            w_trace := w_trace w
                       ++ warnings (lesson_title lesson) blocks
                       ++ [Db_lessonUpdate (lesson_id lesson) (data_of (filter kept blocks));
                           Log_UpdatedLesson (lesson_title lesson)];
            w_calls := w_calls w |})
    | Throw e =>
        (Throw e,
         log_to w (warnings (lesson_title lesson) blocks
                   ++ [Db_lessonUpdate (lesson_id lesson) (data_of (filter kept blocks))]))
    end.
Proof.
  intros Hnn Hne. unfold process_lesson.
  unfold bind at 1. unfold ret at 1. unfold bind at 1.
  rewrite (filter_blocks_run _ _ _ Hnn).
  destruct (filter kept blocks) as [|b r] eqn:E; [congruence|].
  cbn [List.length Nat.eqb].
  assert (Hk : Forall (fun b => kept b = true) (b :: r)).
  { rewrite <- E. apply filter_kept_all. }
  unfold bind at 1, lift. rewrite (update_data_kept _ Hk).
  unfold prisma_lesson_update, bind, emit. cbn [w_db log_to].
  destruct (lesson_update (w_db w) (lesson_id lesson) (data_of (b :: r))) as [d'|msg].
  - cbn. unfold log_to. cbn. rewrite <- !app_assoc. reflexivity.
  - cbn. rewrite log_to_app. reflexivity.
Qed.

Lemma filter_blocks_ok_nonnull (title : string) (blocks : list JSON) :
  forall (w w1 : World) (vb : list JSON),
    filter_blocks title blocks w = (Ok vb, w1) ->
    Forall (fun b => b <> JNull) blocks.
Proof.
  induction blocks as [|b r IH]; intros w w1 vb H; [constructor|].
  cbn [filter_blocks] in H. unfold bind at 1, lift in H.
  destruct (classify b) as [v|] eqn:Ec; [|discriminate H].
  constructor; [intros ->; discriminate Ec|].
  unfold bind at 1 in H.
  destruct v; unfold bind, ret, emit in H.
  - destruct (filter_blocks title r w) as [[rest|] w'] eqn:E; [|discriminate H].
    exact (IH _ _ _ E).
  - destruct (filter_blocks title r (log_to w [Warn_InvalidType title b]))
      as [[rest|] w'] eqn:E; [|discriminate H].
    exact (IH _ _ _ E).
  - destruct (filter_blocks title r (log_to w [Warn_InvalidMcq title b]))
      as [[rest|] w'] eqn:E; [|discriminate H].
    exact (IH _ _ _ E).
Qed.

Lemma filter_blocks_ok (title : string) (blocks : list JSON) (w w1 : World)
  (vb : list JSON) :
  filter_blocks title blocks w = (Ok vb, w1) ->
  Forall (fun b => b <> JNull) blocks
  /\ vb = filter kept blocks
  /\ w1 = log_to w (warnings title blocks).
Proof.
  intros H. pose proof (filter_blocks_ok_nonnull _ _ _ _ _ H) as Hnn.
  rewrite (filter_blocks_run _ _ _ Hnn) in H. injection H as <- <-.
  repeat split; [exact Hnn].
Qed.

Lemma process_lesson_skip (lesson : LessonRow) (blocks : list JSON) (w : World) :
  Forall (fun b => b <> JNull) blocks ->
  filter kept blocks = [] ->
  process_lesson lesson (JArr blocks) w
  = (Ok tt, log_to w (warnings (lesson_title lesson) blocks
                      ++ [Warn_NoValidBlocks (lesson_title lesson)])).
Proof.
  intros Hnn He. unfold process_lesson.
  unfold bind at 1. unfold ret at 1. unfold bind at 1.
  rewrite (filter_blocks_run _ _ _ Hnn), He. cbn [List.length Nat.eqb].
  unfold emit. rewrite log_to_app. reflexivity.
Qed.

Lemma process_lesson_ok_nonnull (lesson : LessonRow) (blocks : list JSON) (w w' : World) :
  process_lesson lesson (JArr blocks) w = (Ok tt, w') ->
  Forall (fun b => b <> JNull) blocks.
Proof.
  intros Hp. unfold process_lesson in Hp. unfold bind at 1 in Hp. unfold ret at 1 in Hp.
  unfold bind at 1 in Hp.
  destruct (filter_blocks (lesson_title lesson) blocks w) as [[vb|] w1] eqn:E;
    [|discriminate Hp].
  exact (filter_blocks_ok_nonnull _ _ _ _ _ E).
Qed.

Lemma Forall2_compose {A B C} (R : A -> B -> Prop) (S : B -> C -> Prop)
  (l1 : list A) (l2 : list B) (l3 : list C) :
  Forall2 R l1 l2 -> Forall2 S l2 l3 ->
  Forall2 (fun a c => exists b, R a b /\ S b c) l1 l3.
Proof.
  intros H. revert l3. induction H as [|a b l1 l2 Hab _ IH]; intros l3 H2.
  - inversion H2. constructor.
  - inversion H2 as [|? c ? l3' Hbc H2']; subst. constructor.
    + exists b. split; assumption.
    + apply IH, H2'.
Qed.

Lemma lesson_flags_set (lessonId : Id) (data : LessonUpdateData) (ls : list LessonRow) :
  map (fun l => (lesson_isEnriched l, lesson_objectives l))
      (filter (fun l => Nat.eqb (lesson_id l) lessonId) (map (set_lesson lessonId data) ls))
  = map (fun _ => (d_isEnriched data, d_objectives data))
        (filter (fun l => Nat.eqb (lesson_id l) lessonId) ls).
Proof.
  induction ls as [|l r IH]; [reflexivity|].
  cbn [map filter]. unfold set_lesson at 1 2.
  destruct (Nat.eqb (lesson_id l) lessonId) eqn:E.
  - cbn [lesson_id]. rewrite E. cbn. rewrite IH. reflexivity.
  - rewrite E. exact IH.
Qed.

(** The tables after the update built from [vb] was accepted. *)
Lemma written (d d' : DB) (lessonId : Id) (vb : list JSON) :
  lesson_update d lessonId (data_of vb) = Ok d' ->
  exists cbs mcqs n1 vrows,
    create_blocks lessonId (block_creates vb 0) (nextId d) = Ok (cbs, mcqs, n1)
    /\ create_videos lessonId (video_creates vb) n1 = Ok (vrows, nextId d')
    /\ lesson_blocks d' lessonId = cbs
    /\ contentBlocks d' = other_blocks d lessonId ++ cbs
    /\ lesson_videos d' lessonId = vrows
    /\ videoSearches d' = other_videos d lessonId ++ vrows
    /\ mcqOptions d' = mcqOptions d ++ mcqs
    /\ lessons d' = map (set_lesson lessonId (data_of vb)) (lessons d).
Proof.
  intros H. apply lesson_update_inv in H.
  destruct H as (cbs & mcqs & n1 & vrows & Hc & Hv & _ & _ & Hl & Hcb & Hm & Hvs).
  cbn in Hc, Hv, Hcb, Hvs.
  exists cbs, mcqs, n1, vrows.
  split; [exact Hc|]. split; [exact Hv|].
  unfold lesson_blocks, lesson_videos, other_blocks, other_videos.
  rewrite Hcb, Hvs. unfold clear_rows.
  split; [|split; [reflexivity|split; [|split; [reflexivity|split; assumption]]]].
  - apply (filter_cleared (fun r => Nat.eqb (cb_lessonId r) lessonId)).
    eapply Forall_impl; [|exact (create_blocks_lesson _ _ _ _ _ _ Hc)].
    cbn. intros r ->. apply Nat.eqb_refl.
  - apply (filter_cleared (fun r => Nat.eqb (vs_lessonId r) lessonId)).
    destruct (create_videos_spec _ _ _ _ _ Hv) as (_ & _ & Hl').
    eapply Forall_impl; [|exact Hl']. cbn. intros r ->. apply Nat.eqb_refl.
Qed.

Lemma is_type_string (b : JSON) (t : string) :
  kept b = true -> is_type t b = String.eqb (type_string b) t.
Proof.
  intros Hk. destruct (kept_type _ Hk) as (t' & Ht & _).
  unfold is_type, type_string. rewrite Ht. reflexivity.
Qed.

Lemma block_creates_mcq (vb : list JSON) (index : nat) :
  Forall (fun b => kept b = true) vb ->
  Forall2 (fun b bc => bc_mcq bc <> None <-> is_type "mcq" b = true)
          vb (block_creates vb index).
Proof.
  intros H. revert index. induction H as [|b r Hb _ IH]; intros index; [constructor|].
  cbn [block_creates]. constructor; [|apply IH].
  cbn [block_create_of bc_mcq]. rewrite (@is_type_string b "mcq" Hb).
  destruct (String.eqb (type_string b) "mcq"); split; congruence.
Qed.

Lemma rows_of_blocks (lessonId : Id) (vb : list JSON) (n : Id) cbs mcqs n' :
  Forall (fun b => kept b = true) vb ->
  create_blocks lessonId (block_creates vb 0) n = Ok (cbs, mcqs, n') ->
  map cb_order cbs = map Z.of_nat (seq 0 (List.length vb))
  /\ Forall2 (row_of_block lessonId mcqs) vb cbs.
Proof.
  intros Hk Hc. destruct (create_blocks_spec _ _ _ _ _ _ Hc) as (_ & HF2 & _).
  split.
  - rewrite <- (block_creates_order vb 0), map_map.
    clear Hc. induction HF2 as [|b row bs cbs' [Hrow _] _ IH]; [reflexivity|].
    cbn. rewrite IH. apply block_row_type in Hrow.
    destruct Hrow as (_ & _ & _ & _ & _ & _ & _ & ->). reflexivity.
  - pose proof (Forall2_compose _ _ _ _ _ (block_creates_Forall2 vb 0) HF2) as H.
    clear Hc HF2. induction H as [|b row vb' cbs' Hb Hrest IH]; [constructor|].
    inversion Hk as [|? ? Hkb Hk']; subst. constructor; [|apply IH, Hk'].
    destruct Hb as (bc & (i & ->) & Hrow & Hm). split; [exists i; exact Hrow|].
    cbn [block_create_of bc_mcq] in Hm.
    rewrite (@is_type_string b "mcq" Hkb).
    destruct (String.eqb (type_string b) "mcq"); exact Hm.
Qed.

(* ================================================================== *)
(** ** The reconciliation write *)

(** C1, as amended: when the filter leaves at least one valid block,
    the loop body issues exactly one update for the lesson. Its data
    sets isEnriched to true and objectives to the empty list, asks to
    delete the lesson's content blocks and video searches, creates one
    content block per valid block with [order] its index (with an owned
    MCQOption exactly for the mcq blocks) and one video search per
    video block, with the block's text as [query]. When the store
    accepts the update, the lesson's rows are exactly these: the
    content-block and video-search tables hold the rows of the other
    lessons and the created ones. When the store rejects it, the loop
    body throws and nothing of the lesson is written. *)
Theorem one_update_replaces_lesson_content
  (lesson : LessonRow) (blocks validBlocks : list JSON) (w w1 : World) :
  filter_blocks (lesson_title lesson) blocks w = (Ok validBlocks, w1) ->
  validBlocks <> [] ->
  exists data,
    update_data validBlocks = Ok data
    /\ d_isEnriched data = true
    /\ d_objectives data = []
    /\ nw_deleteMany (d_contentBlocks data) = true
    /\ nw_deleteMany (d_videos data) = true
    /\ map bc_order (nw_create (d_contentBlocks data)) = seq 0 (List.length validBlocks)
    /\ Forall2 (fun b bc => bc_mcq bc <> None <-> is_type "mcq" b = true)
               validBlocks (nw_create (d_contentBlocks data))
    /\ map vc_query (nw_create (d_videos data))
       = map (fun b => field b "text") (filter (is_type "video") validBlocks)
    /\ (exists tail,
           w_trace (snd (process_lesson lesson (JArr blocks) w))
           = w_trace w1 ++ Db_lessonUpdate (lesson_id lesson) data :: tail
           /\ Forall no_write tail)
    /\ (forall msg,
           lesson_update (w_db w) (lesson_id lesson) data = Throw msg ->
           process_lesson lesson (JArr blocks) w
           = (Throw msg, log_to w1 [Db_lessonUpdate (lesson_id lesson) data])
           /\ w_db (log_to w1 [Db_lessonUpdate (lesson_id lesson) data]) = w_db w)
    /\ forall d',
        lesson_update (w_db w) (lesson_id lesson) data = Ok d' ->
        fst (process_lesson lesson (JArr blocks) w) = Ok tt
        /\ w_db (snd (process_lesson lesson (JArr blocks) w)) = d'
        /\ lesson_flags d' (lesson_id lesson)
           = map (fun _ => (true, [])) (lesson_flags (w_db w) (lesson_id lesson))
        /\ contentBlocks d'
           = other_blocks (w_db w) (lesson_id lesson) ++ lesson_blocks d' (lesson_id lesson)
        /\ map cb_order (lesson_blocks d' (lesson_id lesson))
           = map Z.of_nat (seq 0 (List.length validBlocks))
        /\ Forall2 (fun b row =>
                      if is_type "mcq" b
                      then exists m, cb_mcqId row = Some (mcq_id m)
                                     /\ In m (mcqOptions d')
                      else cb_mcqId row = None)
                   validBlocks (lesson_blocks d' (lesson_id lesson))
        /\ videoSearches d'
           = other_videos (w_db w) (lesson_id lesson) ++ lesson_videos d' (lesson_id lesson)
        /\ map (fun r => Some (JStr (vs_query r))) (lesson_videos d' (lesson_id lesson))
           = map (fun b => field b "text") (filter (is_type "video") validBlocks).
Proof.
  intros Hf Hne. destruct (filter_blocks_ok _ _ _ _ _ Hf) as (Hnn & -> & ->).
  pose proof (filter_kept_all blocks) as Hk.
  exists (data_of (filter kept blocks)).
  split; [apply update_data_kept, Hk|].
  do 4 (split; [reflexivity|]).
  split; [apply block_creates_order|].
  split; [apply block_creates_mcq, Hk|].
  split; [cbn; unfold video_creates; rewrite map_map; reflexivity|].
  rewrite (process_lesson_run _ _ _ Hnn Hne). split; [|split].
  - destruct (lesson_update (w_db w) (lesson_id lesson) (data_of (filter kept blocks))).
    + exists [Log_UpdatedLesson (lesson_title lesson)]. cbn. rewrite <- app_assoc.
      split; [reflexivity|]. constructor; [unfold no_write; congruence|constructor].
    + exists []. cbn. rewrite <- app_assoc. split; [reflexivity|constructor].
  - intros msg Hmsg. rewrite Hmsg. split; [|reflexivity].
    unfold log_to. cbn [w_db w_trace w_calls]. rewrite <- app_assoc. reflexivity.
  - intros d' Hd'. rewrite Hd'. cbn [fst snd w_db].
    split; [reflexivity|]. split; [reflexivity|].
    destruct (written _ _ _ _ Hd') as (cbs & mcqs & n1 & vrows & Hc & Hv & Hlb & Hcb & Hlv
                                    & Hvs & Hm & Hl).
    destruct (rows_of_blocks _ _ _ _ _ _ Hk Hc) as (Hord & Hmcq).
    destruct (create_videos_spec _ _ _ _ _ Hv) as (_ & Hq & _).
    split; [unfold lesson_flags; rewrite Hl, lesson_flags_set, map_map; reflexivity|].
    rewrite Hlb, Hlv. split; [exact Hcb|]. split; [exact Hord|].
    split; [|split; [exact Hvs|]].
    + eapply Forall2_impl; [|exact Hmcq]. cbn. intros b row [_ Hb].
      destruct (is_type "mcq" b); [|exact Hb].
      destruct Hb as (m & Hid & Hin & _). exists m. split; [exact Hid|].
      rewrite Hm. apply in_or_app. now right.
    + rewrite Hq. unfold video_creates. rewrite map_map. reflexivity.
Qed.

Lemma one_update_replaces_lesson_content_witness :
  filter_blocks (lesson_title sample_lesson) sample_blocks sample_world
  = (Ok sample_valid,
     log_to sample_world [Warn_InvalidType "Insertion sort" mixed_Mcq])
  /\ sample_valid <> []
  /\ exists data d',
      update_data sample_valid = Ok data
      /\ lesson_update (w_db sample_world) (lesson_id sample_lesson) data = Ok d'
      /\ w_db (snd (process_lesson sample_lesson (JArr sample_blocks) sample_world)) = d'
      /\ lesson_flags d' 3 = [(true, [])]
      /\ map cb_order (lesson_blocks d' 3) = [0; 1; 2]%Z
      /\ map cb_mcqId (lesson_blocks d' 3) = [None; None; Some 9]
      /\ map vs_query (lesson_videos d' 3) = ["intro to sorting"].
Proof.
  assert (Hf : filter_blocks (lesson_title sample_lesson) sample_blocks sample_world
               = (Ok sample_valid,
                  log_to sample_world [Warn_InvalidType "Insertion sort" mixed_Mcq]))
    by reflexivity.
  assert (Hne : sample_valid <> []) by discriminate.
  split; [exact Hf|]. split; [exact Hne|].
  destruct (@one_update_replaces_lesson_content sample_lesson sample_blocks _ _ _ Hf Hne)
    as (data & Hu & _ & _ & _ & _ & _ & _ & _ & _ & _ & Heff).
  assert (Hdata : data = data_of sample_valid).
  { assert (E : update_data sample_valid = Ok (data_of sample_valid)) by reflexivity.
    rewrite E in Hu. injection Hu as <-. reflexivity. }
  subst data.
  assert (Ed : exists d', lesson_update (w_db sample_world) (lesson_id sample_lesson)
                                        (data_of sample_valid) = Ok d')
    by (eexists; reflexivity).
  destruct Ed as [d' Ed].
  exists (data_of sample_valid), d'.
  split; [reflexivity|]. split; [exact Ed|].
  destruct (Heff d' Ed) as (_ & Hdb & _).
  split; [exact Hdb|].
  vm_compute in Ed. injection Ed as <-. repeat split; reflexivity.
Defined.

(** C1, as the specification states it, fails: a video block without a
    text passes the filter, so the lesson has two valid blocks; the
    update is issued and the store rejects it, since the [query] of a
    VideoSearch is NOT NULL. The lesson is not marked enriched, its
    objectives and its old content block stay, and no content block is
    created for the valid paragraph either. *)
Lemma valid_blocks_are_not_written_when_the_update_is_rejected :
  filter_blocks "Insertion sort" [paragraph_A; video_without_text] sample_world
  = (Ok [paragraph_A; video_without_text], sample_world)
  /\ (exists msg,
         process_lesson sample_lesson (JArr [paragraph_A; video_without_text]) sample_world
         = (Throw msg,
            log_to sample_world
              [Db_lessonUpdate 3 (data_of [paragraph_A; video_without_text])]))
  /\ lesson_flags (store_after sample_lesson [paragraph_A; video_without_text] sample_world) 3
     = [(false, ["old objective"])]
  /\ lesson_blocks (store_after sample_lesson [paragraph_A; video_without_text] sample_world) 3
     = [mkContentBlockRow 5 0 PARAGRAPH (Some "old") None None 3 None]
  /\ lesson_videos (store_after sample_lesson [paragraph_A; video_without_text] sample_world) 3
     = [mkVideoSearchRow 6 "old query" 3].
Proof.
  split; [reflexivity|]. split; [eexists; reflexivity|].
  split; [reflexivity|]. split; reflexivity.
Qed.


(** C8: when the filter leaves no valid block, the loop body performs
    no update: the store is what it was, so the lesson's isEnriched
    flag, objectives, content blocks and video searches are unchanged;
    a warning is written to the console; and the loop goes on with the
    next lesson. *)
Theorem no_valid_block_skips_the_write
  (lesson : LessonRow) (blocks : list JSON) (w w1 : World) :
  filter_blocks (lesson_title lesson) blocks w = (Ok [], w1) ->
  let w2 := log_to w1 [Warn_NoValidBlocks (lesson_title lesson)] in
  process_lesson lesson (JArr blocks) w = (Ok tt, w2)
  /\ w_db w2 = w_db w
  /\ lesson_flags (w_db w2) (lesson_id lesson) = lesson_flags (w_db w) (lesson_id lesson)
  /\ lesson_blocks (w_db w2) (lesson_id lesson) = lesson_blocks (w_db w) (lesson_id lesson)
  /\ lesson_videos (w_db w2) (lesson_id lesson) = lesson_videos (w_db w) (lesson_id lesson)
  /\ (exists evs, w_trace w2 = w_trace w ++ evs ++ [Warn_NoValidBlocks (lesson_title lesson)]
                  /\ Forall no_write evs)
  /\ forall (enrichedModule enrichedLesson : JSON) (rest : list LessonRow) (lessonIndex : nat),
      enrichedLesson_at enrichedModule lessonIndex = Ok enrichedLesson ->
      contentBlocks_of enrichedLesson = Ok (JArr blocks) ->
      lessons_loop enrichedModule (lesson :: rest) lessonIndex w
      = lessons_loop enrichedModule rest (S lessonIndex) w2.
Proof.
  intros Hf w2.
  assert (Hp : process_lesson lesson (JArr blocks) w = (Ok tt, w2)).
  { unfold process_lesson. unfold bind at 1. unfold ret at 1. unfold bind at 1.
    rewrite Hf. reflexivity. }
  destruct (filter_blocks_frame (lesson_title lesson) blocks w) as (evs & Hs & Hev).
  rewrite Hf in Hs. cbn [snd] in Hs.
  assert (Hdb : w_db w2 = w_db w) by (unfold w2; rewrite Hs; reflexivity).
  split; [exact Hp|]. split; [exact Hdb|].
  rewrite Hdb. do 3 (split; [reflexivity|]). split.
  - exists evs. split; [|exact Hev]. unfold w2. rewrite Hs. cbn. symmetry. apply app_assoc.
  - intros em el rest j Hel Hc. cbn [lessons_loop].
    unfold bind at 1, lift. rewrite Hel. unfold bind at 1, lift. rewrite Hc.
    unfold bind at 1. rewrite Hp. reflexivity.
Qed.

Lemma no_valid_block_skips_the_write_witness :
  filter_blocks (lesson_title sample_lesson) invalid_blocks sample_world
  = (Ok [],
     log_to sample_world [Warn_InvalidType "Insertion sort" upper_PARAGRAPH;
                          Warn_InvalidMcq "Insertion sort" mcq_empty_explanation])
  /\ process_lesson sample_lesson (JArr invalid_blocks) sample_world
     = (Ok tt,
        log_to sample_world [Warn_InvalidType "Insertion sort" upper_PARAGRAPH;
                             Warn_InvalidMcq "Insertion sort" mcq_empty_explanation;
                             Warn_NoValidBlocks "Insertion sort"]).
Proof.
  assert (Hf : filter_blocks (lesson_title sample_lesson) invalid_blocks sample_world
               = (Ok [],
                  log_to sample_world
                    [Warn_InvalidType "Insertion sort" upper_PARAGRAPH;
                     Warn_InvalidMcq "Insertion sort" mcq_empty_explanation]))
    by reflexivity.
  split; [exact Hf|].
  exact (proj1 (@no_valid_block_skips_the_write sample_lesson invalid_blocks _ _ Hf)).
Defined.

(* ================================================================== *)
(** ** MCQ options in the store *)



Lemma mcq_row_payload (i j : Id) (mc : McqCreate) (m m' : MCQOptionRow) :
  mcq_row i mc = Ok m -> mcq_row j mc = Ok m' -> mcq_payload m = mcq_payload m'.
Proof.
  unfold mcq_row, mcq_payload.
  destruct (as_String "question" (mc_question mc)); [|discriminate].
  destruct (as_String_list "options" (mc_options mc)); [|discriminate].
  destruct (as_Int "answer" (mc_answer mc)); [|discriminate].
  destruct (as_opt_String "explanation" (mc_explanation mc)); [|discriminate].
  cbn. intros [= <-] [= <-]. reflexivity.
Qed.

Lemma NoDup_map_eq {A B} (f : A -> B) (l : list A) (a b : A) :
  NoDup (map f l) -> In a l -> In b l -> f a = f b -> a = b.
Proof.
  induction l as [|x r IH]; intros Hnd Ha Hb Hf; [destruct Ha|].
  cbn in Hnd. inversion Hnd as [|? ? Hnin Hnd']; subst.
  destruct Ha as [->|Ha], Hb as [->|Hb].
  - reflexivity.
  - exfalso. apply Hnin. rewrite Hf. apply in_map, Hb.
  - exfalso. apply Hnin. rewrite <- Hf. apply in_map, Ha.
  - apply IH; assumption.
Qed.

Lemma find_mcq_unique (d : DB) (m : MCQOptionRow) :
  NoDup (map mcq_id (mcqOptions d)) -> In m (mcqOptions d) ->
  find_mcq d (mcq_id m) = Some m.
Proof.
  unfold find_mcq. intros Hnd Hin.
  destruct (find (fun m0 => Nat.eqb (mcq_id m0) (mcq_id m)) (mcqOptions d)) as [m'|] eqn:E.
  - apply find_some in E. destruct E as [Hin' Heq]. apply Nat.eqb_eq in Heq.
    f_equal. exact (NoDup_map_eq mcq_id _ _ _ Hnd Hin' Hin Heq).
  - exfalso. pose proof (find_none _ _ E _ Hin) as Hf. cbn in Hf.
    rewrite Nat.eqb_refl in Hf. discriminate.
Qed.

(** The primary key of MCQOption survives an update. *)
Lemma mcq_keys_ok_update (d d' : DB) (lessonId : Id) (data : LessonUpdateData) :
  mcq_keys_ok d -> lesson_update d lessonId data = Ok d' -> mcq_keys_ok d'.
Proof.
  intros [Hnd Hlt] Hu. apply lesson_update_inv in Hu.
  destruct Hu as (cbs & mcqs & n1 & vrows & Hc & Hv & _ & _ & _ & _ & Hm & _).
  destruct (create_blocks_spec _ _ _ _ _ _ Hc) as (Hle & _ & Hrange & Hnd').
  destruct (create_videos_spec _ _ _ _ _ Hv) as (Hle' & _).
  unfold mcq_keys_ok. rewrite Hm. split.
  - rewrite map_app. apply NoDup_app; [exact Hnd|exact Hnd'|].
    intros i Hi Hi'. apply in_map_iff in Hi. destruct Hi as (m & <- & Hin).
    apply in_map_iff in Hi'. destruct Hi' as (m' & Heq & Hin').
    rewrite Forall_forall in Hlt, Hrange.
    specialize (Hlt _ Hin). specialize (Hrange _ Hin'). lia.
  - apply Forall_app. split.
    + eapply Forall_impl; [|exact Hlt]. cbn. intros; lia.
    + eapply Forall_impl; [|exact Hrange]. cbn. intros; lia.
Qed.

Lemma Forall2_In_r {A B} (R : A -> B -> Prop) (l1 : list A) (l2 : list B) (y : B) :
  Forall2 R l1 l2 -> In y l2 -> exists x, In x l1 /\ R x y.
Proof.
  induction 1 as [|a b l1 l2 Hab _ IH]; intros Hin; [destruct Hin|].
  destruct Hin as [<-|Hin].
  - exists a. split; [now left|exact Hab].
  - destruct (IH Hin) as (x & Hx & HR). exists x. split; [now right|exact HR].
Qed.

(** A kept block that is not an mcq block is not stored with type MCQ. *)
Lemma stored_MCQ_is_mcq (b : JSON) (i : nat) (id lessonId : Id) (mcqId : option Id)
  (row : ContentBlockRow) :
  kept b = true ->
  block_row id lessonId mcqId (block_create_of b i) = Ok row ->
  cb_type row = MCQ ->
  is_type "mcq" b = true.
Proof.
  intros Hk Hrow Hty. apply block_row_type in Hrow. destruct Hrow as (Has & _).
  cbn [block_create_of bc_type] in Has. rewrite Hty in Has.
  rewrite (@is_type_string b "mcq" Hk).
  destruct (kept_type _ Hk) as (t & Ht & Hin).
  assert (Hts : type_string b = t) by (unfold type_string; rewrite Ht; reflexivity).
  rewrite Hts in *.
  destruct (allowed_cases _ Hin) as [->|[->| ->]]; [discriminate Has|discriminate Has|reflexivity].
Qed.

(** A run of the loop body that returned normally after a write. *)
Lemma process_lesson_written (lesson : LessonRow) (blocks : list JSON) (w w' : World) :
  process_lesson lesson (JArr blocks) w = (Ok tt, w') ->
  filter kept blocks <> [] ->
  Forall (fun b => b <> JNull) blocks
  /\ lesson_update (w_db w) (lesson_id lesson) (data_of (filter kept blocks)) = Ok (w_db w').
Proof.
  intros Hp Hne.
  assert (Hnn : Forall (fun b => b <> JNull) blocks).
  { unfold process_lesson in Hp. unfold bind at 1 in Hp. unfold ret at 1 in Hp.
    unfold bind at 1 in Hp.
    destruct (filter_blocks (lesson_title lesson) blocks w) as [[vb|] w1] eqn:E;
      [|discriminate Hp].
    exact (filter_blocks_ok_nonnull _ _ _ _ _ E). }
  split; [exact Hnn|].
  rewrite (process_lesson_run _ _ _ Hnn Hne) in Hp.
  destruct (lesson_update (w_db w) (lesson_id lesson) (data_of (filter kept blocks)));
    [|discriminate Hp].
  injection Hp as <-. reflexivity.
Qed.

(* ================================================================== *)
(** ** Types and video URLs in the update and in the store *)

Lemma Forall2_Forall_l {A B} (P : A -> Prop) (R : A -> B -> Prop)
  (l : list A) (l' : list B) :
  Forall P l -> Forall2 R l l' -> Forall2 (fun a b => P a /\ R a b) l l'.
Proof.
  intros HP HR. induction HR as [|a b l l' Hab _ IH]; [constructor|].
  inversion HP as [|? ? Ha HP']; subst. constructor; [split; assumption|exact (IH HP')].
Qed.

(** The trace of the loop body on content with a kept block: the
    warnings of the filter, the update, and no other write. *)
Lemma process_lesson_issues_one_update (lesson : LessonRow) (blocks : list JSON) (w : World) :
  Forall (fun b => b <> JNull) blocks ->
  filter kept blocks <> [] ->
  exists tail,
    w_trace (snd (process_lesson lesson (JArr blocks) w))
    = w_trace (log_to w (warnings (lesson_title lesson) blocks))
      ++ Db_lessonUpdate (lesson_id lesson) (data_of (filter kept blocks)) :: tail
    /\ Forall no_write tail.
Proof.
  intros Hnn Hne. rewrite (process_lesson_run _ _ _ Hnn Hne).
  destruct (lesson_update (w_db w) (lesson_id lesson) (data_of (filter kept blocks))).
  - exists [Log_UpdatedLesson (lesson_title lesson)]. cbn. rewrite <- app_assoc.
    split; [reflexivity|]. constructor; [unfold no_write; congruence|constructor].
  - exists []. cbn. rewrite <- app_assoc. split; [reflexivity|constructor].
Qed.

(** The rows a successful run of the loop body created for the lesson,
    and the video blocks it could be successful with. *)
Lemma process_lesson_rows (lesson : LessonRow) (blocks : list JSON) (w w' : World) :
  process_lesson lesson (JArr blocks) w = (Ok tt, w') ->
  filter kept blocks <> [] ->
  Forall2 (fun b row =>
             kept b = true
             /\ (is_type "video" b = true -> exists s, field b "text" = Some (JStr s))
             /\ exists i,
                 block_row (cb_id row) (lesson_id lesson) (cb_mcqId row) (block_create_of b i)
                 = Ok row)
          (filter kept blocks) (lesson_blocks (w_db w') (lesson_id lesson))
  /\ map (fun r => Some (JStr (vs_query r))) (lesson_videos (w_db w') (lesson_id lesson))
     = map (fun b => field b "text") (filter (is_type "video") (filter kept blocks)).
Proof.
  intros Hp Hne. destruct (process_lesson_written _ _ _ _ Hp Hne) as [_ Hu].
  destruct (written _ _ _ _ Hu) as (cbs & mcqs & n1 & vrows & Hc & Hv & Hlb & _ & Hlv & _).
  pose proof (filter_kept_all blocks) as Hk.
  destruct (rows_of_blocks _ _ _ _ _ _ Hk Hc) as (_ & HF2).
  destruct (create_videos_spec _ _ _ _ _ Hv) as (_ & Hq & _).
  unfold video_creates in Hq. rewrite map_map in Hq. cbn [vc_query] in Hq.
  rewrite Hlb, Hlv. split; [|exact Hq].
  assert (Hvid : Forall (fun b => kept b = true
                          /\ (is_type "video" b = true ->
                              exists s, field b "text" = Some (JStr s)))
                        (filter kept blocks)).
  { apply Forall_forall. intros b Hb. split; [apply filter_In in Hb; apply Hb|].
    intros Hty.
    assert (Hin : In (field b "text")
                     (map (fun b => field b "text")
                          (filter (is_type "video") (filter kept blocks)))).
    { apply (in_map (fun x => field x "text")). apply filter_In. split; assumption. }
    rewrite <- Hq in Hin. apply in_map_iff in Hin. destruct Hin as (r & Hr & _).
    exists (vs_query r). symmetry. exact Hr. }
  eapply Forall2_impl; [|exact (Forall2_Forall_l _ _ _ _ Hvid HF2)].
  cbn. intros b row [[Hkb Hv'] [Hrow _]]. split; [exact Hkb|]. split; [exact Hv'|exact Hrow].
Qed.

(** C9: when the filter leaves at least one valid block, the update
    that the loop body issues creates, for every valid block of type
    video, a content block whose [videoUrl] is the block's text, the
    value it also sends as the [query] of the block's VideoSearch, and
    for every valid block of type paragraph or mcq a content block
    whose [videoUrl] is null. When the store accepts the update, the
    rows created for the lesson hold just that: for a video block its
    text, then a string, as [videoUrl] and as [query], and no
    [videoUrl] for a paragraph or mcq block. *)
Theorem videoUrl_is_text_for_video_and_null_otherwise
  (lesson : LessonRow) (blocks validBlocks : list JSON) (w w1 : World) :
  filter_blocks (lesson_title lesson) blocks w = (Ok validBlocks, w1) ->
  validBlocks <> [] ->
  exists data tail,
    w_trace (snd (process_lesson lesson (JArr blocks) w))
    = w_trace w1 ++ Db_lessonUpdate (lesson_id lesson) data :: tail
    /\ Forall no_write tail
    /\ Forall2 (fun b bc =>
                  (is_type "video" b = true -> bc_videoUrl bc = field b "text")
                  /\ (is_type "paragraph" b = true \/ is_type "mcq" b = true ->
                      bc_videoUrl bc = Some JNull))
               validBlocks (nw_create (d_contentBlocks data))
    /\ map vc_query (nw_create (d_videos data))
       = map (fun b => field b "text") (filter (is_type "video") validBlocks)
    /\ forall w',
        process_lesson lesson (JArr blocks) w = (Ok tt, w') ->
        Forall2 (fun b row =>
                   (is_type "video" b = true ->
                    exists s, field b "text" = Some (JStr s) /\ cb_videoUrl row = Some s)
                   /\ (is_type "paragraph" b = true \/ is_type "mcq" b = true ->
                       cb_videoUrl row = None))
                validBlocks (lesson_blocks (w_db w') (lesson_id lesson))
        /\ map (fun r => Some (JStr (vs_query r)))
               (lesson_videos (w_db w') (lesson_id lesson))
           = map (fun b => field b "text") (filter (is_type "video") validBlocks).
Proof.
  intros Hf Hne. destruct (filter_blocks_ok _ _ _ _ _ Hf) as (Hnn & -> & ->).
  pose proof (filter_kept_all blocks) as Hk.
  destruct (process_lesson_issues_one_update lesson blocks w Hnn Hne) as (tail & Htr & Htail).
  exists (data_of (filter kept blocks)), tail.
  split; [exact Htr|]. split; [exact Htail|]. split; [|split].
  - cbn [data_of d_contentBlocks nw_create].
    eapply Forall2_impl;
      [|exact (Forall2_Forall_l _ _ _ _ Hk (block_creates_Forall2 (filter kept blocks) 0))].
    cbn. intros b bc [Hkb [i ->]]. cbn [block_create_of bc_videoUrl].
    rewrite (@is_type_string b "video" Hkb), (@is_type_string b "paragraph" Hkb),
            (@is_type_string b "mcq" Hkb).
    split.
    + intros ->. reflexivity.
    + intros Hpm.
      assert (Hnv : String.eqb (type_string b) "video" = false).
      { destruct Hpm as [H|H]; apply String.eqb_eq in H; rewrite H; reflexivity. }
      rewrite Hnv. reflexivity.
  - cbn [data_of d_videos nw_create]. unfold video_creates. rewrite map_map. reflexivity.
  - intros w' Hp. destruct (process_lesson_rows _ _ _ _ Hp Hne) as [Hrows Hq].
    split; [|exact Hq].
    eapply Forall2_impl; [|exact Hrows]. cbn. intros b row (Hkb & Hv & i & Hrow).
    apply block_row_type in Hrow. destruct Hrow as (_ & _ & _ & Hurl & _).
    cbn [block_create_of bc_videoUrl] in Hurl.
    rewrite (@is_type_string b "video" Hkb), (@is_type_string b "paragraph" Hkb),
            (@is_type_string b "mcq" Hkb).
    split.
    + intros Hty. rewrite Hty in Hurl.
      rewrite (@is_type_string b "video" Hkb) in Hv. destruct (Hv Hty) as [s Hs].
      exists s. split; [exact Hs|]. rewrite Hs in Hurl. cbn in Hurl. congruence.
    + intros Hpm.
      assert (Hnv : String.eqb (type_string b) "video" = false).
      { destruct Hpm as [H|H]; apply String.eqb_eq in H; rewrite H; reflexivity. }
      rewrite Hnv in Hurl. cbn in Hurl. congruence.
Qed.

Lemma videoUrl_is_text_for_video_and_null_otherwise_witness :
  filter_blocks (lesson_title sample_lesson) sample_blocks sample_world
  = (Ok sample_valid,
     log_to sample_world [Warn_InvalidType "Insertion sort" mixed_Mcq])
  /\ sample_valid <> []
  /\ process_lesson sample_lesson (JArr sample_blocks) sample_world
     = (Ok tt, world_after sample_lesson sample_blocks sample_world)
  /\ map cb_videoUrl (lesson_blocks (store_after sample_lesson sample_blocks sample_world) 3)
     = [None; Some "intro to sorting"; None]
  /\ Forall2 (fun b row =>
                (is_type "video" b = true ->
                 exists s, field b "text" = Some (JStr s) /\ cb_videoUrl row = Some s)
                /\ (is_type "paragraph" b = true \/ is_type "mcq" b = true ->
                    cb_videoUrl row = None))
             sample_valid
             (lesson_blocks (store_after sample_lesson sample_blocks sample_world) 3)
  /\ map vs_query (lesson_videos (store_after sample_lesson sample_blocks sample_world) 3)
     = ["intro to sorting"].
Proof.
  assert (Hf : filter_blocks (lesson_title sample_lesson) sample_blocks sample_world
               = (Ok sample_valid,
                  log_to sample_world [Warn_InvalidType "Insertion sort" mixed_Mcq]))
    by reflexivity.
  assert (Hne : sample_valid <> []) by discriminate.
  destruct (videoUrl_is_text_for_video_and_null_otherwise
              sample_lesson sample_blocks sample_valid sample_world _ Hf Hne)
    as (data & tail & _ & _ & _ & _ & Hrows).
  split; [exact Hf|]. split; [exact Hne|]. split; [reflexivity|].
  split; [reflexivity|].
  split; [exact (proj1 (Hrows _ eq_refl))|reflexivity].
Defined.

(** C10, as amended: the type is matched case-sensitively against the
    lower-case strings, so a block whose type differs from an accepted
    one only by case is dropped by the filter, with a warning; every
    block the filter keeps is sent to the store with its type in upper
    case; and when the store accepts the lesson's update, it is stored
    with the type PARAGRAPH, VIDEO or MCQ of that name. *)
Theorem type_match_is_case_sensitive_and_stored_upper_case
  (lesson : LessonRow) (blocks validBlocks : list JSON) (w w1 : World) :
  filter_blocks (lesson_title lesson) blocks w = (Ok validBlocks, w1) ->
  (forall b t a,
      In b blocks ->
      field b "type" = Some (JStr t) ->
      In a allowedTypes -> toUpperCase t = toUpperCase a -> t <> a ->
      ~ In b validBlocks
      /\ exists evs, w_trace w1 = w_trace w ++ evs
                     /\ In (Warn_InvalidType (lesson_title lesson) b) evs)
  /\ (validBlocks <> [] ->
      exists data tail,
        w_trace (snd (process_lesson lesson (JArr blocks) w))
        = w_trace w1 ++ Db_lessonUpdate (lesson_id lesson) data :: tail
        /\ Forall no_write tail
        /\ Forall2 (fun b bc =>
                      bc_type bc = toUpperCase (type_string b)
                      /\ In (bc_type bc) ["PARAGRAPH"; "VIDEO"; "MCQ"])
                   validBlocks (nw_create (d_contentBlocks data))
        /\ forall w',
            process_lesson lesson (JArr blocks) w = (Ok tt, w') ->
            Forall2 (fun b row =>
                       stored_type (type_string b) = Some (cb_type row)
                       /\ In (cb_type row) [PARAGRAPH; VIDEO; MCQ])
                    validBlocks (lesson_blocks (w_db w') (lesson_id lesson))).
Proof.
  intros Hf. destruct (filter_blocks_ok _ _ _ _ _ Hf) as (Hnn & -> & ->).
  pose proof (filter_kept_all blocks) as Hk. split.
  - intros b t a Hin Ht Ha Hup Hne.
    assert (Hnot : ~ In t allowedTypes).
    { exact (case_variant_not_allowed _ _ Ha Hup Hne). }
    assert (Hb : b <> JNull) by exact (field_nonnull _ _ _ Ht).
    assert (Hv : verdict b = InvalidType).
    { unfold verdict. rewrite Ht.
      destruct (includes allowedTypes (Some (JStr t))) eqn:E.
      - exfalso. apply includes_allowed in E. destruct E as (t' & [= <-] & Hin').
        exact (Hnot Hin').
      - rewrite orb_true_r. reflexivity. }
    split.
    + intros Hin'. apply filter_In in Hin'. destruct Hin' as [_ Hkb].
      apply (kept_verdict _ Hb) in Hkb. congruence.
    + exists (warnings (lesson_title lesson) blocks). split; [reflexivity|].
      unfold warnings. apply in_flat_map. exists b. split; [exact Hin|].
      unfold warning. rewrite Hv. now left.
  - intros Hne.
    destruct (process_lesson_issues_one_update lesson blocks w Hnn Hne)
      as (tail & Htr & Htail).
    exists (data_of (filter kept blocks)), tail.
    split; [exact Htr|]. split; [exact Htail|]. split.
    + cbn [data_of d_contentBlocks nw_create].
      eapply Forall2_impl;
        [|exact (Forall2_Forall_l _ _ _ _ Hk (block_creates_Forall2 (filter kept blocks) 0))].
      cbn. intros b bc [Hkb [i ->]]. cbn [block_create_of bc_type].
      split; [reflexivity|].
      destruct (kept_type _ Hkb) as (t & Ht & Hin).
      unfold type_string. rewrite Ht.
      destruct (allowed_cases _ Hin) as [->|[->| ->]]; cbn; auto.
    + intros w' Hp. destruct (process_lesson_rows _ _ _ _ Hp Hne) as [Hrows _].
      eapply Forall2_impl; [|exact Hrows]. cbn. intros b row (Hkb & _ & i & Hrow).
      apply block_row_type in Hrow. destruct Hrow as (Hty & _).
      cbn [block_create_of bc_type] in Hty.
      destruct (kept_type _ Hkb) as (t & Ht & Hin).
      assert (Hts : type_string b = t) by (unfold type_string; rewrite Ht; reflexivity).
      rewrite Hts in *.
      destruct (stored_type_allowed _ Hin) as (ty & Hst & Has).
      rewrite Has in Hty. injection Hty as <-.
      split; [exact Hst|].
      destruct (allowed_cases _ Hin) as [->|[->| ->]]; cbn in Hst;
        injection Hst as <-; cbn; auto.
Qed.

Lemma type_match_is_case_sensitive_and_stored_upper_case_witness :
  filter_blocks (lesson_title sample_lesson) sample_blocks sample_world
  = (Ok sample_valid,
     log_to sample_world [Warn_InvalidType "Insertion sort" mixed_Mcq])
  /\ ~ In mixed_Mcq sample_valid
  /\ map bc_type (nw_create (d_contentBlocks (data_of sample_valid)))
     = ["PARAGRAPH"; "VIDEO"; "MCQ"]
  /\ map cb_type (lesson_blocks (store_after sample_lesson sample_blocks sample_world) 3)
     = [PARAGRAPH; VIDEO; MCQ]
  /\ Forall2 (fun b row =>
                stored_type (type_string b) = Some (cb_type row)
                /\ In (cb_type row) [PARAGRAPH; VIDEO; MCQ])
             sample_valid
             (lesson_blocks (store_after sample_lesson sample_blocks sample_world) 3).
Proof.
  assert (Hf : filter_blocks (lesson_title sample_lesson) sample_blocks sample_world
               = (Ok sample_valid,
                  log_to sample_world [Warn_InvalidType "Insertion sort" mixed_Mcq]))
    by reflexivity.
  assert (Hne : sample_valid <> []) by discriminate.
  destruct (type_match_is_case_sensitive_and_stored_upper_case
              sample_lesson sample_blocks sample_valid sample_world _ Hf)
    as [Hdrop Hup].
  destruct (Hup Hne) as (data & tail & _ & _ & _ & Hrows).
  split; [exact Hf|].
  split.
  { apply (Hdrop mixed_Mcq "Mcq" "mcq");
      [right; left; reflexivity|reflexivity|cbn; auto|reflexivity|discriminate]. }
  split; [reflexivity|]. split; [reflexivity|].
  exact (Hrows _ eq_refl).
Defined.

(** C10, as the specification states it, fails: a block that the
    filter accepts is not always persisted. The paragraph stands beside
    a video block without a text; both pass the filter, the store
    rejects the lesson's update, and the content-block table is as it
    was: no row of type PARAGRAPH was written for the paragraph. *)
Lemma accepted_block_is_not_persisted_when_the_update_is_rejected :
  kept paragraph_A = true
  /\ filter kept [paragraph_A; video_without_text] = [paragraph_A; video_without_text]
  /\ (exists msg,
         fst (process_lesson sample_lesson (JArr [paragraph_A; video_without_text])
                             sample_world) = Throw msg)
  /\ contentBlocks (store_after sample_lesson [paragraph_A; video_without_text] sample_world)
     = contentBlocks sample_db.
Proof.
  split; [reflexivity|]. split; [reflexivity|]. split; [eexists; reflexivity|reflexivity].
Qed.





(* ================================================================== *)
(** ** Running the write again *)

Lemma mcq_row_again (i j : Id) (mc : McqCreate) (m : MCQOptionRow) :
  mcq_row i mc = Ok m -> exists m', mcq_row j mc = Ok m'.
Proof.
  unfold mcq_row.
  destruct (as_String "question" (mc_question mc)); [|discriminate].
  destruct (as_String_list "options" (mc_options mc)); [|discriminate].
  destruct (as_Int "answer" (mc_answer mc)); [|discriminate].
  destruct (as_opt_String "explanation" (mc_explanation mc)); [|discriminate].
  cbn. intros _. eexists. reflexivity.
Qed.

Lemma block_row_again (id id' lessonId : Id) (mcqId mcqId' : option Id)
  (b : BlockCreate) (row : ContentBlockRow) :
  block_row id lessonId mcqId b = Ok row ->
  exists row', block_row id' lessonId mcqId' b = Ok row'.
Proof.
  unfold block_row.
  destruct (as_BlockType (bc_type b)); [|discriminate].
  destruct (as_opt_String "text" (bc_text b)); [|discriminate].
  destruct (as_opt_String "language" (bc_language b)); [|discriminate].
  destruct (as_opt_String "videoUrl" (bc_videoUrl b)); [|discriminate].
  cbn. intros _. eexists. reflexivity.
Qed.

Lemma create_blocks_again (lessonId : Id) (bs : list BlockCreate) :
  forall (n k : Id) r,
    create_blocks lessonId bs n = Ok r ->
    exists r', create_blocks lessonId bs k = Ok r'.
Proof.
  induction bs as [|b rest IH]; intros n k r H.
  - eexists. reflexivity.
  - cbn [create_blocks] in *. destruct (bc_mcq b) as [m|].
    + destruct (mcq_row n m) as [mrow|] eqn:Em; [|discriminate H].
      destruct (mcq_row_again n k m mrow Em) as [mrow' ->].
      cbn [res_bind] in *.
      destruct (block_row (S n) lessonId (Some n) b) as [brow|] eqn:Eb; [|discriminate H].
      destruct (block_row_again _ (S k) _ _ (Some k) _ _ Eb) as [brow' ->].
      cbn [res_bind] in *.
      destruct (create_blocks lessonId rest (S (S n))) as [r0|] eqn:Er; [|discriminate H].
      destruct (IH _ (S (S k)) _ Er) as [[[cbs mcqs] n'] ->].
      cbn [res_bind]. eexists. reflexivity.
    + destruct (block_row n lessonId None b) as [brow|] eqn:Eb; [|discriminate H].
      destruct (block_row_again _ k _ _ None _ _ Eb) as [brow' ->].
      cbn [res_bind] in *.
      destruct (create_blocks lessonId rest (S n)) as [r0|] eqn:Er; [|discriminate H].
      destruct (IH _ (S k) _ Er) as [[[cbs mcqs] n'] ->].
      cbn [res_bind]. eexists. reflexivity.
Qed.

Lemma create_videos_again (lessonId : Id) (vs : list VideoCreate) :
  forall (n k : Id) r,
    create_videos lessonId vs n = Ok r ->
    exists r', create_videos lessonId vs k = Ok r'.
Proof.
  induction vs as [|v rest IH]; intros n k r H.
  - eexists. reflexivity.
  - cbn [create_videos] in *.
    destruct (as_String "query" (vc_query v)) as [q|]; [|discriminate H].
    cbn [res_bind] in *.
    destruct (create_videos lessonId rest (S n)) as [r0|] eqn:Er; [|discriminate H].
    destruct (IH _ (S k) _ Er) as [[rows n'] ->].
    cbn [res_bind]. eexists. reflexivity.
Qed.

Lemma existsb_set_lesson (lessonId : Id) (data : LessonUpdateData) (ls : list LessonRow) :
  existsb (fun l => Nat.eqb (lesson_id l) lessonId) (map (set_lesson lessonId data) ls)
  = existsb (fun l => Nat.eqb (lesson_id l) lessonId) ls.
Proof.
  induction ls as [|l r IH]; [reflexivity|].
  cbn [map existsb]. rewrite IH. f_equal.
  unfold set_lesson. destruct (Nat.eqb (lesson_id l) lessonId) eqn:E; cbn; rewrite E; reflexivity.
Qed.

(** An update the store accepted once is accepted again. *)
Lemma lesson_update_again (d d1 : DB) (lessonId : Id) (data : LessonUpdateData) :
  lesson_update d lessonId data = Ok d1 ->
  exists d2, lesson_update d1 lessonId data = Ok d2.
Proof.
  intros H. pose proof (lesson_update_inv _ _ _ _ H)
    as (cbs & mcqs & n1 & vrows & Hc & Hv & _ & _ & Hl & _).
  unfold lesson_update in *.
  rewrite Hl, existsb_set_lesson.
  destruct (existsb (fun l => Nat.eqb (lesson_id l) lessonId) (lessons d)); [|discriminate H].
  destruct (create_blocks_again _ _ _ (nextId d1) _ Hc) as [[[cbs' mcqs'] n1'] ->].
  cbn [res_bind].
  destruct (create_videos_again _ _ _ n1' _ Hv) as [[vrows' n2'] ->].
  cbn [res_bind]. eexists. reflexivity.
Qed.

(** The view of a created row is decided by the create record. *)
Lemma block_view_created (d1 d2 : DB) (lessonId : Id) (mcqs1 mcqs2 : list MCQOptionRow)
  (bc : BlockCreate) (row1 row2 : ContentBlockRow) :
  NoDup (map mcq_id (mcqOptions d1)) -> incl mcqs1 (mcqOptions d1) ->
  NoDup (map mcq_id (mcqOptions d2)) -> incl mcqs2 (mcqOptions d2) ->
  created_row lessonId mcqs1 bc row1 ->
  created_row lessonId mcqs2 bc row2 ->
  block_view d1 row1 = block_view d2 row2.
Proof.
  intros Hnd1 Hi1 Hnd2 Hi2 [Hr1 Hm1] [Hr2 Hm2].
  apply block_row_type in Hr1, Hr2.
  destruct Hr1 as (Hty1 & Htx1 & Hlg1 & Hur1 & _ & _ & _ & Ho1).
  destruct Hr2 as (Hty2 & Htx2 & Hlg2 & Hur2 & _ & _ & _ & Ho2).
  unfold block_view.
  assert (Hmcq : match cb_mcqId row1 with
                 | Some id => option_map mcq_payload (find_mcq d1 id)
                 | None => None
                 end
                 = match cb_mcqId row2 with
                   | Some id => option_map mcq_payload (find_mcq d2 id)
                   | None => None
                   end).
  { destruct (bc_mcq bc) as [mc|].
    - destruct Hm1 as (m1 & -> & Hin1 & Hrow1). destruct Hm2 as (m2 & -> & Hin2 & Hrow2).
      rewrite (find_mcq_unique d1 m1 Hnd1 (Hi1 _ Hin1)).
      rewrite (find_mcq_unique d2 m2 Hnd2 (Hi2 _ Hin2)).
      cbn. f_equal. exact (mcq_row_payload _ _ _ _ _ Hrow1 Hrow2).
    - rewrite Hm1, Hm2. reflexivity. }
  rewrite Hmcq, Ho1, Ho2. f_equal; congruence.
Qed.

Lemma map_Forall2_eq {A B C D} (R1 : A -> B -> Prop) (R2 : A -> C -> Prop)
  (f : B -> D) (g : C -> D) (l : list A) (l1 : list B) (l2 : list C) :
  (forall a b c, R1 a b -> R2 a c -> f b = g c) ->
  Forall2 R1 l l1 -> Forall2 R2 l l2 -> map f l1 = map g l2.
Proof.
  intros Hfg H1. revert l2. induction H1 as [|a b l l1 Hab _ IH]; intros l2 H2.
  - inversion H2. reflexivity.
  - inversion H2 as [|? c ? l2' Hac H2']; subst. cbn.
    rewrite (Hfg _ _ _ Hab Hac), (IH _ H2'). reflexivity.
Qed.

Lemma lesson_flags_const {X} (c : X) (lessonId : Id) (data : LessonUpdateData)
  (ls : list LessonRow) :
  map (fun _ => c)
      (filter (fun l => Nat.eqb (lesson_id l) lessonId) (map (set_lesson lessonId data) ls))
  = map (fun _ => c) (filter (fun l => Nat.eqb (lesson_id l) lessonId) ls).
Proof.
  induction ls as [|l r IH]; [reflexivity|].
  cbn [map filter]. unfold set_lesson at 1.
  destruct (Nat.eqb (lesson_id l) lessonId) eqn:E.
  - cbn [lesson_id]. rewrite E. cbn. rewrite IH. reflexivity.
  - rewrite E. exact IH.
Qed.

Lemma map_query_inj (l1 l2 : list VideoSearchRow) :
  map (fun r => Some (JStr (vs_query r))) l1 = map (fun r => Some (JStr (vs_query r))) l2 ->
  map vs_query l1 = map vs_query l2.
Proof.
  revert l2. induction l1 as [|a r IH]; intros [|b r2] H; try discriminate; [reflexivity|].
  cbn in *. injection H as Hq Hr. rewrite Hq, (IH _ Hr). reflexivity.
Qed.

(** C6, as amended: running the loop body again on the same lesson
    with the same AI output succeeds and leaves the lesson with the
    same content: the same blocks in the same order with the same MCQ
    payloads, the same video queries, the same flags. The second write
    replaces the lesson's content blocks wholesale (the table is the
    other lessons' rows followed by the newly created ones, one per
    valid block); the MCQOption rows of the replaced blocks are not
    deleted, the new ones are added after them. *)
Theorem rerun_replaces_blocks_and_leaves_same_content
  (lesson : LessonRow) (blocks : list JSON) (w w1 : World) :
  mcq_keys_ok (w_db w) ->
  process_lesson lesson (JArr blocks) w = (Ok tt, w1) ->
  exists w2,
    process_lesson lesson (JArr blocks) w1 = (Ok tt, w2)
    /\ lesson_content (w_db w2) (lesson_id lesson)
       = lesson_content (w_db w1) (lesson_id lesson)
    /\ lesson_queries (w_db w2) (lesson_id lesson)
       = lesson_queries (w_db w1) (lesson_id lesson)
    /\ lesson_flags (w_db w2) (lesson_id lesson)
       = lesson_flags (w_db w1) (lesson_id lesson)
    /\ (filter kept blocks <> [] ->
        contentBlocks (w_db w2)
        = other_blocks (w_db w1) (lesson_id lesson)
          ++ lesson_blocks (w_db w2) (lesson_id lesson)
        /\ List.length (lesson_blocks (w_db w2) (lesson_id lesson))
           = List.length (filter kept blocks)
        /\ exists created, mcqOptions (w_db w2) = mcqOptions (w_db w1) ++ created).
Proof.
  intros Hkeys Hp.
  pose proof (process_lesson_ok_nonnull _ _ _ _ Hp) as Hnn.
  destruct (filter kept blocks) as [|b0 r0] eqn:Evb.
  - rewrite (process_lesson_skip lesson _ w Hnn Evb) in Hp. injection Hp as <-.
    eexists. split; [apply (process_lesson_skip lesson _ _ Hnn Evb)|].
    cbn [w_db log_to]. do 3 (split; [reflexivity|]).
    intros Habs. exfalso. apply Habs. reflexivity.
  - assert (Hne : filter kept blocks <> []) by (rewrite Evb; discriminate).
    rewrite <- Evb in *. clear Evb b0 r0.
    destruct (process_lesson_written _ _ _ _ Hp Hne) as [_ Hu1].
    destruct (lesson_update_again _ _ _ _ Hu1) as [d2 Hu2].
    pose proof (process_lesson_run lesson _ w1 Hnn Hne) as Hrun. rewrite Hu2 in Hrun.
    eexists. split; [exact Hrun|]. cbn [w_db].
    pose proof (mcq_keys_ok_update _ _ _ _ Hkeys Hu1) as Hk1.
    pose proof (mcq_keys_ok_update _ _ _ _ Hk1 Hu2) as Hk2.
    destruct (written _ _ _ _ Hu1)
      as (cbs1 & mcqs1 & n1 & vrows1 & Hc1 & Hv1 & Hlb1 & _ & Hlv1 & _ & Hm1 & Hl1).
    destruct (written _ _ _ _ Hu2)
      as (cbs2 & mcqs2 & n2 & vrows2 & Hc2 & Hv2 & Hlb2 & Hcb2 & Hlv2 & _ & Hm2 & Hl2).
    destruct (create_blocks_spec _ _ _ _ _ _ Hc1) as (_ & HF1 & _).
    destruct (create_blocks_spec _ _ _ _ _ _ Hc2) as (_ & HF2 & _).
    destruct (create_videos_spec _ _ _ _ _ Hv1) as (_ & Hq1 & _).
    destruct (create_videos_spec _ _ _ _ _ Hv2) as (_ & Hq2 & _).
    split; [|split; [|split; [|intros _; split; [|split]]]].
    + unfold lesson_content. rewrite Hlb1, Hlb2.
      apply (map_Forall2_eq (created_row (lesson_id lesson) mcqs2)
                            (created_row (lesson_id lesson) mcqs1)
                            (block_view d2) (block_view (w_db w1))
                            (block_creates (filter kept blocks) 0) cbs2 cbs1);
        [|exact HF2|exact HF1].
      intros bc row2 row1 H2 H1.
      apply (block_view_created _ _ (lesson_id lesson) mcqs2 mcqs1 bc);
        try assumption; try apply Hk2; try apply Hk1.
      * rewrite Hm2. intros m Hm. apply in_or_app. now right.
      * rewrite Hm1. intros m Hm. apply in_or_app. now right.
    + unfold lesson_queries. rewrite Hlv1, Hlv2. apply map_query_inj. congruence.
    + unfold lesson_flags. rewrite Hl2, lesson_flags_set, Hl1, lesson_flags_set.
      apply lesson_flags_const.
    + rewrite Hlb2. exact Hcb2.
    + rewrite Hlb2. rewrite <- (Forall2_length HF2). apply block_creates_length.
    + exists mcqs2. exact Hm2.
Qed.

Lemma rerun_replaces_blocks_and_leaves_same_content_witness :
  mcq_keys_ok (w_db sample_world)
  /\ process_lesson sample_lesson (JArr [mcq_Q]) sample_world
     = (Ok tt, world_after_first_run)
  /\ exists w2,
      process_lesson sample_lesson (JArr [mcq_Q]) world_after_first_run = (Ok tt, w2)
      /\ lesson_content (w_db w2) 3 = lesson_content (w_db world_after_first_run) 3.
Proof.
  assert (Hk : mcq_keys_ok (w_db sample_world)).
  { split; cbn; constructor. }
  assert (Hp : process_lesson sample_lesson (JArr [mcq_Q]) sample_world
               = (Ok tt, world_after_first_run)) by reflexivity.
  split; [exact Hk|]. split; [exact Hp|].
  destruct (rerun_replaces_blocks_and_leaves_same_content
              sample_lesson [mcq_Q] sample_world world_after_first_run Hk Hp)
    as (w2 & Hp2 & Hc & _).
  exists w2. split; [exact Hp2|exact Hc].
Defined.

(** C6, as the specification states it, fails: the second write
    deletes the block of the first one but not the MCQOption that
    block owned, which stays in its table with no block pointing at
    it, next to the option of the new block. *)
Lemma replaced_block_leaves_its_option_behind :
  process_lesson sample_lesson (JArr [mcq_Q]) sample_world
  = (Ok tt, world_after_first_run)
  /\ process_lesson sample_lesson (JArr [mcq_Q]) world_after_first_run
     = (Ok tt, world_after_second_run)
  /\ (exists row, In row (contentBlocks (w_db world_after_first_run))
                  /\ cb_mcqId row = Some (mcq_id first_run_option))
  /\ In first_run_option (mcqOptions (w_db world_after_first_run))
  /\ orphaned (w_db world_after_second_run) first_run_option
  /\ List.length (mcqOptions (w_db world_after_second_run)) = 2.
Proof.
  split; [reflexivity|]. split; [reflexivity|]. split.
  { exists (mkContentBlockRow 8 0 MCQ None None None 3 (Some 7)).
    split; [left; reflexivity|reflexivity]. }
  split; [left; reflexivity|]. split; [|reflexivity].
  split; [left; reflexivity|].
  intros r Hr. vm_compute in Hr. destruct Hr as [<-|[]]. cbn. discriminate.
Qed.

(* ================================================================== *)
(** ** Positional reconciliation *)

Lemma bind_ext_r {A B} (m : M A) (k1 k2 : A -> M B) (w : World) :
  (forall a w', k1 a w' = k2 a w') -> bind m k1 w = bind m k2 w.
Proof.
  intros H. unfold bind. destruct (m w) as [[a|msg] w']; [apply H|reflexivity].
Qed.

Lemma bind_assoc {A B C} (m : M A) (k : A -> M B) (h : B -> M C) (w : World) :
  bind (bind m k) h w = bind m (fun a => bind (k a) h) w.
Proof.
  unfold bind. destruct (m w) as [[a|msg] w']; reflexivity.
Qed.

Lemma for_each_pair_app (ps qs : list (LessonRow * JSON)) (w : World) :
  for_each_pair (ps ++ qs) w = bind (for_each_pair ps) (fun _ => for_each_pair qs) w.
Proof.
  revert w. induction ps as [|[l c] r IH]; intros w; [reflexivity|].
  cbn [for_each_pair app]. rewrite bind_assoc. apply bind_ext_r. intros _ w'. apply IH.
Qed.

Lemma or_default_nonnull (a : JSV) (d : JSON) : d <> JNull -> or_default a d <> JNull.
Proof.
  intros Hd. unfold or_default. destruct a as [v|]; [|exact Hd].
  destruct (truthy (Some v)) eqn:E; [|exact Hd]. intros ->. discriminate E.
Qed.

Lemma enrichedModule_at_nonnull (ec : JSON) (i : nat) :
  ec <> JNull ->
  enrichedModule_at ec i = Ok (or_default (ai_module ec i) empty_module).
Proof.
  intros H. unfold enrichedModule_at. rewrite (getProp_nonnull _ _ H). reflexivity.
Qed.

Lemma lessons_loop_pairs (ec : JSON) (i : nat) (ls : list LessonRow) (j : nat) (w : World) :
  lessons_loop (or_default (ai_module ec i) empty_module) ls j w
  = for_each_pair (pair_lessons ec i ls j) w.
Proof.
  revert j w. induction ls as [|l r IH]; intros j w; [reflexivity|].
  cbn [lessons_loop pair_lessons for_each_pair].
  assert (Hm : or_default (ai_module ec i) empty_module <> JNull)
    by (apply or_default_nonnull; discriminate).
  unfold enrichedLesson_at. rewrite (getProp_nonnull _ _ Hm). cbn [res_bind].
  unfold bind at 1, lift.
  assert (Hl : or_default (opt_index (field (or_default (ai_module ec i) empty_module)
                                            "lessons") j) empty_lesson <> JNull)
    by (apply or_default_nonnull; discriminate).
  unfold contentBlocks_of. rewrite (getProp_nonnull _ _ Hl). cbn [res_bind].
  unfold bind at 1. apply bind_ext_r. intros _ w'. apply IH.
Qed.

Lemma modules_loop_pairs (ec : JSON) (ms : list Module) (i : nat) (w : World) :
  ec <> JNull ->
  modules_loop ec ms i w = for_each_pair (pair_modules ec ms i) w.
Proof.
  intros Hec. revert i w. induction ms as [|m r IH]; intros i w; [reflexivity|].
  cbn [modules_loop pair_modules]. rewrite for_each_pair_app.
  rewrite (enrichedModule_at_nonnull _ i Hec). unfold bind at 1, lift.
  unfold bind. rewrite lessons_loop_pairs.
  destruct (for_each_pair (pair_lessons ec i (m_lessons m) 0) w) as [[u|msg] w'];
    [apply IH|reflexivity].
Qed.





(* ================================================================== *)
(** ** The retry loop *)

Section Retry.

Variable generator : nat -> GenOutcome.

Lemma advance_advance (w : World) (a b : list Event) (j k : nat) :
  advance (advance w a j) b k = advance w (a ++ b) (j + k).
Proof. unfold advance. cbn. rewrite <- app_assoc, Nat.add_assoc. reflexivity. Qed.

(** One iteration of the [while] loop. *)
Lemma retry_loop_step (fuel attempt : nat) (w : World) :
  attempt < maxAttempts ->
  retry_loop generator (S fuel) attempt w
  = match attempt_result (generator (w_calls w)) with
    | Ok output => (Ok (Break output), advance w (successful_attempt (attempt + 1)) 1)
    | Throw msg =>
        if Nat.eqb (attempt + 1) maxAttempts
        then (Ok Returned, advance w (last_failed_attempt (attempt + 1) msg) 1)
        else retry_loop generator fuel (attempt + 1)
                        (advance w (failed_attempt (attempt + 1) msg) 1)
    end.
Proof.
  intros Hlt. cbn [retry_loop]. apply Nat.ltb_lt in Hlt. rewrite Hlt.
  unfold try_catch, bind at 1, emit. unfold bind at 1, generateContent.
  unfold bind at 1, emit. cbn [w_calls log_to w_db w_trace].
  unfold attempt_result.
  destruct (generator (w_calls w)) as [msg|text].
  - unfold bind at 1, emit.
    destruct (Nat.eqb (attempt + 1) maxAttempts).
    + unfold bind, emit, ret, advance, log_to. cbn.
      rewrite <- !app_assoc, !Nat.add_1_r. reflexivity.
    + unfold bind at 1, emit. f_equal. unfold advance, log_to. cbn.
      rewrite <- !app_assoc, !Nat.add_1_r. reflexivity.
  - unfold bind at 1, lift. destruct (strip_response text) as [output|msg].
    + unfold bind, emit, ret, advance, log_to. cbn.
      rewrite <- !app_assoc, !Nat.add_1_r. reflexivity.
    + unfold bind at 1, emit.
      destruct (Nat.eqb (attempt + 1) maxAttempts).
      * unfold bind, emit, ret, advance, log_to. cbn.
        rewrite <- !app_assoc, !Nat.add_1_r. reflexivity.
      * unfold bind at 1, emit. f_equal. unfold advance, log_to. cbn.
        rewrite <- !app_assoc, !Nat.add_1_r. reflexivity.
Qed.

(** The loop is left by [break] or by [return], after at most three
    generator calls, with the store as it was. *)
Lemma retry_loop_exits (w : World) :
  exists exit evs k,
    retry_loop generator maxAttempts 0 w = (Ok exit, advance w evs k)
    /\ k <= maxAttempts
    /\ count_calls evs = k
    /\ Forall no_write evs
    /\ (exit = Returned \/ exists output, exit = Break output).
Proof.
  assert (Hnw : forall evs,
             (forall e, In e evs -> match e with Db_lessonUpdate _ _ => False | _ => True end) ->
             Forall no_write evs).
  { intros evs H. apply Forall_forall. intros e He id data ->. exact (H _ He). }
  unfold maxAttempts at 1.
  rewrite retry_loop_step by (unfold maxAttempts; lia).
  destruct (attempt_result (generator (w_calls w))) as [o1|e1].
  { eexists _, _, 1. split; [reflexivity|]. split; [unfold maxAttempts; lia|].
    split; [reflexivity|]. split; [|right; eexists; reflexivity].
    apply Hnw. cbn. intuition (subst; exact I). }
  cbn [Nat.add Nat.eqb maxAttempts].
  rewrite retry_loop_step by (unfold maxAttempts; lia).
  destruct (attempt_result (generator (w_calls (advance w (failed_attempt 1 e1) 1))))
    as [o2|e2].
  { rewrite advance_advance. eexists _, _, 2. split; [reflexivity|].
    split; [unfold maxAttempts; lia|]. split; [reflexivity|].
    split; [|right; eexists; reflexivity].
    apply Hnw. cbn. intuition (subst; exact I). }
  cbn [Nat.add Nat.eqb maxAttempts].
  rewrite retry_loop_step by (unfold maxAttempts; lia).
  destruct (attempt_result
              (generator (w_calls (advance (advance w (failed_attempt 1 e1) 1)
                                           (failed_attempt 2 e2) 1)))) as [o3|e3].
  { rewrite !advance_advance. eexists _, _, 3. split; [reflexivity|].
    split; [unfold maxAttempts; lia|]. split; [reflexivity|].
    split; [|right; eexists; reflexivity].
    apply Hnw. cbn. intuition (subst; exact I). }
  cbn [Nat.add Nat.eqb maxAttempts]. rewrite !advance_advance.
  eexists _, _, 3. split; [reflexivity|].
  split; [unfold maxAttempts; lia|]. split; [reflexivity|].
  split; [|left; reflexivity].
  apply Hnw. cbn. intuition (subst; exact I).
Qed.

End Retry.

(** Runs the console writes of a goal and merges them. *)
Ltac logs :=
  unfold bind, emit, ret, lift; cbn [fst snd];
  rewrite ?log_to_app; cbn [app]; reflexivity.

Section Run.

Variable generator : nat -> GenOutcome.
Variable JSON_parse : string -> Res JSON.

(** The parsing step, case by case. *)
Lemma parse_stage_cases (output : option string) (w : World) :
  parse_stage JSON_parse output w
  = match parse_output JSON_parse output with
    | Throw msg => (Ok None, log_to w [Err_ParsingFailed msg; Log_RawOutput output])
    | Ok parsed =>
        match getProp parsed "modules" with
        | Throw msg => (Ok None, log_to w [Err_ParsingFailed msg; Log_RawOutput output])
        | Ok mods =>
            if negb (truthy mods) || negb (isArray mods) then
              match parsed with
              | JArr items =>
                  match res_filter has_allowed_type items with
                  | Ok content =>
                      (Ok (Some (wrap_flat content)),
                       log_to w [Log_FlatArray; Log_ParsedJSON (wrap_flat content)])
                  | Throw msg =>
                      (Ok None,
                       log_to w [Log_FlatArray; Err_ParsingFailed msg; Log_RawOutput output])
                  end
              | _ => (Ok None, log_to w [Err_NoModulesArray parsed])
              end
            else (Ok (Some parsed), log_to w [Log_ParsedJSON parsed])
        end
    end.
Proof.
  unfold parse_stage, try_catch. unfold bind at 1, lift.
  destruct (parse_output JSON_parse output) as [parsed|msg]; [|logs].
  unfold bind at 1. destruct (getProp parsed "modules") as [mods|msg]; [|logs].
  destruct (negb (truthy mods) || negb (isArray mods)); [|logs].
  destruct parsed; try logs.
  unfold bind at 1, emit. unfold bind at 1, lift.
  destruct (res_filter has_allowed_type items) as [content|msg]; logs.
Qed.

(** Parsing only writes to the console. *)
Lemma parse_stage_quiet (output : option string) (w : World) :
  exists r evs,
    parse_stage JSON_parse output w = (Ok r, log_to w evs) /\ Forall no_write evs.
Proof.
  assert (Hnw : forall evs,
             (forall e, In e evs -> match e with Db_lessonUpdate _ _ => False | _ => True end) ->
             Forall no_write evs).
  { intros evs H. apply Forall_forall. intros e He id data ->. exact (H _ He). }
  rewrite parse_stage_cases.
  destruct (parse_output JSON_parse output) as [parsed|msg].
  2:{ eexists _, _. split; [reflexivity|]. apply Hnw. cbn. intuition (subst; exact I). }
  destruct (getProp parsed "modules") as [mods|msg].
  2:{ eexists _, _. split; [reflexivity|]. apply Hnw. cbn. intuition (subst; exact I). }
  destruct (negb (truthy mods) || negb (isArray mods)).
  2:{ eexists _, _. split; [reflexivity|]. apply Hnw. cbn. intuition (subst; exact I). }
  destruct parsed;
    try (eexists _, _; split; [reflexivity|]; apply Hnw; cbn; intuition (subst; exact I)).
  destruct (res_filter has_allowed_type items);
    eexists _, _; (split; [reflexivity|]); apply Hnw; cbn; intuition (subst; exact I).
Qed.

(** The writing step catches what its loops throw. *)
Lemma write_stage_returns (course : Course) (ec : JSON) (w : World) :
  exists w', write_stage course ec w = (Ok tt, w').
Proof.
  unfold write_stage, try_finally, try_catch. unfold bind at 1.
  destruct (modules_loop ec (c_modules course) 0 w) as [[u|msg] w1].
  - cbn. destruct u. eexists. reflexivity.
  - cbn. eexists. reflexivity.
Qed.

(** Every run of [test] comes to its end. *)
Lemma test_finishes (courseId : Id) (w : World) :
  exists w', test generator JSON_parse courseId w = (Ok Finished, w').
Proof.
  unfold test, test_with. unfold bind at 1, prisma_course_findUnique.
  destruct (course_findUnique (w_db w) courseId) as [course|].
  2:{ eexists. reflexivity. }
  unfold bind at 1.
  destruct (retry_loop_exits generator w) as (exit & evs & k & -> & _ & _ & _ & Hexit).
  assert (Hcont : forall output w0,
             exists w', bind (parse_stage JSON_parse output)
                             (fun enriched =>
                                match enriched with
                                | None => ret Finished
                                | Some enrichedContent =>
                                    bind (emit Log_EnrichedByAI)
                                         (fun _ => bind (write_stage course enrichedContent)
                                                        (fun _ => ret Finished))
                                end) w0 = (Ok Finished, w')).
  { intros output w0. unfold bind at 1.
    destruct (parse_stage_quiet output w0) as (r & evs' & -> & _).
    destruct r as [ec|]; [|eexists; reflexivity].
    unfold bind at 1, emit. unfold bind at 1.
    destruct (write_stage_returns course ec (log_to (log_to w0 evs') [Log_EnrichedByAI]))
      as [w' ->].
    eexists. reflexivity. }
  destruct Hexit as [->|[output ->]]; [eexists; reflexivity|apply Hcont].
Qed.

End Run.

(** C2, as amended: the generator is called at most three times. An
    attempt succeeds when the call returns a response that has a text;
    the loop is then left at once, with that text trimmed and without
    its code fences, in particular on the third attempt after two
    failures. A call that throws and a response without text are failed
    attempts; every failed attempt that is followed by another one is
    followed by a wait of 1000 ms; and when all three attempts fail the
    run ends there, with the store as it was and no update issued. *)
Theorem generation_is_attempted_at_most_three_times
  (generator : nat -> GenOutcome) (JSON_parse : string -> Res JSON)
  (courseId : Id) (w : World) :
  (exists exit evs k,
      retry_loop generator maxAttempts 0 w = (Ok exit, advance w evs k)
      /\ k <= 3
      /\ count_calls evs = k
      /\ Forall no_write evs
      /\ (exit = Returned \/ exists output, exit = Break output))
  /\ (forall text, attempt_result (GenResponse (Some text)) = Ok (strip_fences text))
  /\ (exists msg, attempt_result (GenResponse None) = Throw msg)
  /\ (forall out,
         attempt_result (generator (w_calls w)) = Ok out ->
         retry_loop generator maxAttempts 0 w
         = (Ok (Break out), advance w (successful_attempt 1) 1))
  /\ (forall e1 out,
         attempt_result (generator (w_calls w)) = Throw e1 ->
         attempt_result (generator (w_calls w + 1)) = Ok out ->
         retry_loop generator maxAttempts 0 w
         = (Ok (Break out), advance w (failed_attempt 1 e1 ++ successful_attempt 2) 2))
  /\ (forall e1 e2 out,
         attempt_result (generator (w_calls w)) = Throw e1 ->
         attempt_result (generator (w_calls w + 1)) = Throw e2 ->
         attempt_result (generator (w_calls w + 2)) = Ok out ->
         retry_loop generator maxAttempts 0 w
         = (Ok (Break out),
            advance w (failed_attempt 1 e1 ++ failed_attempt 2 e2 ++ successful_attempt 3) 3))
  /\ (forall e1 e2 e3,
         attempt_result (generator (w_calls w)) = Throw e1 ->
         attempt_result (generator (w_calls w + 1)) = Throw e2 ->
         attempt_result (generator (w_calls w + 2)) = Throw e3 ->
         let w' := advance w (failed_attempt 1 e1 ++ failed_attempt 2 e2
                              ++ last_failed_attempt 3 e3) 3 in
         retry_loop generator maxAttempts 0 w = (Ok Returned, w')
         /\ w_db w' = w_db w
         /\ forall course,
             course_findUnique (w_db w) courseId = Some course ->
             test generator JSON_parse courseId w = (Ok Finished, w'))
  /\ exists w', test generator JSON_parse courseId w = (Ok Finished, w').
Proof.
  split; [apply retry_loop_exits|].
  split; [reflexivity|].
  split; [eexists; reflexivity|].
  assert (H12 : forall e1, w_calls (advance w (failed_attempt 1 e1) 1) = w_calls w + 1)
    by reflexivity.
  assert (H23 : forall e1 e2,
             w_calls (advance (advance w (failed_attempt 1 e1) 1) (failed_attempt 2 e2) 1)
             = w_calls w + 2).
  { intros. cbn. lia. }
  assert (Hall : forall e1 e2 e3,
             attempt_result (generator (w_calls w)) = Throw e1 ->
             attempt_result (generator (w_calls w + 1)) = Throw e2 ->
             attempt_result (generator (w_calls w + 2)) = Throw e3 ->
             retry_loop generator maxAttempts 0 w
             = (Ok Returned,
                advance w (failed_attempt 1 e1 ++ failed_attempt 2 e2
                           ++ last_failed_attempt 3 e3) 3)).
  { intros e1 e2 e3 H1 H2 H3. unfold maxAttempts at 1.
    rewrite retry_loop_step by (unfold maxAttempts; lia). rewrite H1.
    cbn [Nat.add Nat.eqb maxAttempts].
    rewrite retry_loop_step by (unfold maxAttempts; lia). rewrite H12, H2.
    cbn [Nat.add Nat.eqb maxAttempts].
    rewrite retry_loop_step by (unfold maxAttempts; lia). rewrite H23, H3.
    cbn [Nat.add Nat.eqb maxAttempts]. rewrite !advance_advance. reflexivity. }
  split; [|split; [|split; [|split]]].
  - intros out H1. unfold maxAttempts at 1.
    rewrite retry_loop_step by (unfold maxAttempts; lia). rewrite H1. reflexivity.
  - intros e1 out H1 H2. unfold maxAttempts at 1.
    rewrite retry_loop_step by (unfold maxAttempts; lia). rewrite H1.
    cbn [Nat.add Nat.eqb maxAttempts].
    rewrite retry_loop_step by (unfold maxAttempts; lia). rewrite H12, H2.
    rewrite advance_advance. reflexivity.
  - intros e1 e2 out H1 H2 H3. unfold maxAttempts at 1.
    rewrite retry_loop_step by (unfold maxAttempts; lia). rewrite H1.
    cbn [Nat.add Nat.eqb maxAttempts].
    rewrite retry_loop_step by (unfold maxAttempts; lia). rewrite H12, H2.
    cbn [Nat.add Nat.eqb maxAttempts].
    rewrite retry_loop_step by (unfold maxAttempts; lia). rewrite H23, H3.
    rewrite !advance_advance. reflexivity.
  - intros e1 e2 e3 H1 H2 H3 w'. split; [apply Hall; assumption|].
    split; [reflexivity|].
    intros course Hc. unfold test, test_with.
    unfold bind at 1, prisma_course_findUnique. rewrite Hc.
    unfold bind at 1. rewrite (Hall e1 e2 e3 H1 H2 H3). reflexivity.
  - apply test_finishes.
Qed.

Lemma generation_is_attempted_at_most_three_times_witness :
  attempt_result (fails_twice (w_calls sample_world)) = Throw "503 Service Unavailable"
  /\ attempt_result (fails_twice (w_calls sample_world + 1)) = Throw "fetch failed"
  /\ attempt_result (fails_twice (w_calls sample_world + 2)) = Ok "COURSE"
  /\ retry_loop fails_twice maxAttempts 0 sample_world
     = (Ok (Break "COURSE"),
        advance sample_world
          [Log_Attempt 1; Api_generateContent;
           Err_GenerationFailed 1 "503 Service Unavailable"; Sleep 1000;
           Log_Attempt 2; Api_generateContent;
           Err_GenerationFailed 2 "fetch failed"; Sleep 1000;
           Log_Attempt 3; Api_generateContent; Log_ResponseReceived] 3)
  /\ attempt_result (always_fails (w_calls sample_world)) = Throw "fetch failed"
  /\ course_findUnique (w_db sample_world) 1
     = Some (mkCourse "Algorithms" two_lessons)
  /\ test always_fails sample_parse 1 sample_world
     = (Ok Finished,
        advance sample_world
          [Log_Attempt 1; Api_generateContent;
           Err_GenerationFailed 1 "fetch failed"; Sleep 1000;
           Log_Attempt 2; Api_generateContent;
           Err_GenerationFailed 2 "fetch failed"; Sleep 1000;
           Log_Attempt 3; Api_generateContent;
           Err_GenerationFailed 3 "fetch failed"; Err_MaxAttempts] 3).
Proof.
  destruct (generation_is_attempted_at_most_three_times fails_twice sample_parse 1 sample_world)
    as (_ & _ & _ & _ & _ & Hthird & _).
  destruct (generation_is_attempted_at_most_three_times always_fails sample_parse 1 sample_world)
    as (_ & _ & _ & _ & _ & _ & Hfail & _).
  split; [reflexivity|]. split; [reflexivity|]. split; [reflexivity|].
  split; [exact (Hthird _ _ _ eq_refl eq_refl eq_refl)|].
  split; [reflexivity|]. split; [reflexivity|].
  destruct (Hfail _ _ _ eq_refl eq_refl eq_refl) as (_ & _ & Htest).
  exact (Htest _ eq_refl).
Defined.

(** C2, as the specification states it, fails: the loop is not left
    with the raw output of the attempt. The third answer of
    [fails_twice] comes inside a code fence, and the loop is left with
    the text between the fences. *)
Lemma fenced_answer_leaves_the_loop_stripped :
  fails_twice 2 = GenResponse (Some "```json
COURSE
```")
  /\ fst (retry_loop fails_twice maxAttempts 0 sample_world) = Ok (Break "COURSE")
  /\ "COURSE" <> "```json
COURSE
```".
Proof. split; [reflexivity|]. split; [reflexivity|discriminate]. Qed.


(* ================================================================== *)
(** ** Fence stripping *)

Lemma append_assoc (a b c : string) : ((a ++ b) ++ c = a ++ (b ++ c))%string.
Proof. induction a as [|x a IH]; cbn; [reflexivity|rewrite IH; reflexivity]. Qed.


Lemma string_length_ind (P : string -> Prop) :
  (forall s, (forall r, String.length r < String.length s -> P r) -> P s) ->
  forall s, P s.
Proof.
  intros H s. remember (String.length s) as n eqn:En. revert s En.
  induction n as [n IH] using lt_wf_ind. intros s ->.
  apply H. intros r Hr. exact (IH _ Hr r eq_refl).
Qed.

Ltac byte_hyps :=
  unfold is_space, is_space2, is_space3, boundary in *; cbv zeta in *;
  repeat match goal with
         | H : (_ && _)%bool = true |- _ => apply andb_true_iff in H; destruct H
         | H : (_ || _)%bool = true |- _ => apply orb_true_iff in H; destruct H
         | H : (_ =? _)%nat = true |- _ => apply Nat.eqb_eq in H
         | H : (_ <=? _)%nat = true |- _ => apply Nat.leb_le in H
         | H : (_ <? _)%nat = true |- _ => apply Nat.ltb_lt in H
         end.

Ltac byte_goal :=
  repeat match goal with
         | |- context [(?a =? ?b)%nat] => destruct (Nat.eqb_spec a b)
         | |- context [(?a <=? ?b)%nat] => destruct (Nat.leb_spec a b)
         | |- context [(?a <? ?b)%nat] => destruct (Nat.ltb_spec a b)
         end;
  cbn; solve [reflexivity | lia | exfalso; lia].

Lemma space_boundary (c : ascii) : is_space c = true -> boundary c = true.
Proof. intros H. byte_hyps; byte_goal. Qed.

Lemma space2_boundary (c1 c2 : ascii) :
  is_space2 c1 c2 = true -> boundary c1 = true /\ boundary c2 = false.
Proof. intros H. byte_hyps. split; byte_goal. Qed.

Lemma space3_boundary (c1 c2 c3 : ascii) :
  is_space3 c1 c2 c3 = true ->
  boundary c1 = true /\ boundary c2 = false /\ boundary c3 = false.
Proof. intros H. byte_hyps; (split; [|split]); byte_goal. Qed.

Lemma plain_byte_no_space (c : ascii) (r : string) :
  (nat_of_ascii c <? 128)%nat = true -> is_space c = false ->
  skip_space (String c r) = None.
Proof.
  intros Hc Hs. cbn [skip_space]. rewrite Hs.
  destruct r as [|c2 r2]; [reflexivity|].
  destruct (is_space2 c c2) eqn:E2.
  { exfalso. byte_hyps. lia. }
  destruct r2 as [|c3 r3]; [reflexivity|].
  destruct (is_space3 c c2 c3) eqn:E3; [|reflexivity].
  exfalso. byte_hyps; lia.
Qed.

Lemma trimStart_skip (s : string) :
  trimStart s = match skip_space s with
                | Some r => trimStart r
                | None => s
                end.
Proof.
  destruct s as [|c1 [|c2 [|c3 r3]]]; cbn [trimStart skip_space]; try reflexivity.
  - destruct (is_space c1); reflexivity.
  - destruct (is_space c1); [reflexivity|]. destruct (is_space2 c1 c2); reflexivity.
  - destruct (is_space c1); [reflexivity|]. destruct (is_space2 c1 c2); [reflexivity|].
    destruct (is_space3 c1 c2 c3); reflexivity.
Qed.

Lemma all_space_skip (s : string) :
  all_space s = match s with
                | EmptyString => true
                | String _ _ =>
                    match skip_space s with
                    | Some r => all_space r
                    | None => false
                    end
                end.
Proof.
  destruct s as [|c1 [|c2 [|c3 r3]]]; cbn [all_space skip_space]; try reflexivity.
  - destruct (is_space c1); reflexivity.
  - destruct (is_space c1); [reflexivity|]. destruct (is_space2 c1 c2); reflexivity.
  - destruct (is_space c1); [reflexivity|]. destruct (is_space2 c1 c2); [reflexivity|].
    destruct (is_space3 c1 c2 c3); reflexivity.
Qed.

(** The white-space character that [s] starts with is one, two or
    three bytes, and the first of them starts a character. *)
Lemma skip_space_inv (s r : string) :
  skip_space s = Some r ->
  exists cp,
    s = (cp ++ r)%string
    /\ String.length r < String.length s
    /\ starts_at_boundary s = true
    /\ forall t, skip_space (cp ++ t) = Some t.
Proof.
  destruct s as [|c1 r1]; [discriminate|]. cbn [skip_space].
  destruct (is_space c1) eqn:E1.
  { intros [= <-]. exists (String c1 EmptyString). split; [reflexivity|].
    split; [cbn; lia|]. split; [exact (space_boundary _ E1)|].
    intros t. cbn [append skip_space]. rewrite E1. reflexivity. }
  destruct r1 as [|c2 r2]; [discriminate|].
  destruct (is_space2 c1 c2) eqn:E2.
  { intros [= <-]. exists (String c1 (String c2 EmptyString)). split; [reflexivity|].
    split; [cbn; lia|]. split; [exact (proj1 (space2_boundary _ _ E2))|].
    intros t. cbn [append skip_space]. rewrite E1, E2. reflexivity. }
  destruct r2 as [|c3 r3]; [discriminate|].
  destruct (is_space3 c1 c2 c3) eqn:E3; [|discriminate].
  intros [= <-]. exists (String c1 (String c2 (String c3 EmptyString))).
  split; [reflexivity|]. split; [cbn; lia|].
  split; [exact (proj1 (space3_boundary _ _ _ E3))|].
  intros t. cbn [append skip_space]. rewrite E1, E2, E3. reflexivity.
Qed.

Lemma skip_space_app (a b r : string) :
  skip_space a = Some r -> skip_space (a ++ b) = Some (r ++ b)%string.
Proof.
  intros H. destruct (skip_space_inv _ _ H) as (cp & -> & _ & _ & Hcp).
  rewrite append_assoc. apply Hcp.
Qed.


Lemma trimStart_spaces (ws s : string) :
  all_space ws = true -> trimStart (ws ++ s)%string = trimStart s.
Proof.
  induction ws as [ws IH] using string_length_ind. intros H.
  destruct ws as [|c r]; [reflexivity|]. rewrite all_space_skip in H.
  destruct (skip_space (String c r)) as [r'|] eqn:E; [|discriminate].
  destruct (skip_space_inv _ _ E) as (_ & _ & Hlen & _).
  rewrite trimStart_skip, (skip_space_app _ s _ E). exact (IH r' Hlen H).
Qed.



Lemma trimStart_split (s : string) : exists ws, s = (ws ++ trimStart s)%string.
Proof.
  induction s as [s IH] using string_length_ind. rewrite trimStart_skip.
  destruct (skip_space s) as [r|] eqn:E; [|exists EmptyString; reflexivity].
  destruct (skip_space_inv _ _ E) as (cp & -> & Hlen & _).
  destruct (IH r Hlen) as [ws Hws]. exists (cp ++ ws)%string.
  rewrite append_assoc, <- Hws. reflexivity.
Qed.

Lemma all_space_cons (c1 : ascii) (r1 : string) :
  all_space (String c1 r1)
  = if is_space c1 then all_space r1
    else match r1 with
         | EmptyString => false
         | String c2 r2 =>
             if is_space2 c1 c2 then all_space r2
             else match r2 with
                  | EmptyString => false
                  | String c3 r3 => if is_space3 c1 c2 c3 then all_space r3 else false
                  end
         end.
Proof. reflexivity. Qed.
















(* ================================================================== *)
(** ** Parsing and shape validation *)




Lemma content_at_wrap_flat (content : list JSON) :
  content_at (wrap_flat content) 0 0 = JArr content
  /\ forall i j, (i, j) <> (0, 0) -> content_at (wrap_flat content) i j = JArr [].
Proof.
  split; [reflexivity|].
  intros [|i] [|j] H; try congruence.
  - cbn. destruct j; reflexivity.
  - cbn. destruct i; reflexivity.
  - cbn. destruct i; cbn; destruct j; reflexivity.
Qed.




(* ================================================================== *)
(** ** What one step of the loop does to the store *)

(** The loop body either leaves the store as it is, or it returns
    normally after the update built from a non-empty list of kept
    blocks was accepted. *)
Lemma process_lesson_store (lesson : LessonRow) (c : JSON) (w : World) :
  w_db (snd (process_lesson lesson c w)) = w_db w
  \/ (fst (process_lesson lesson c w) = Ok tt
      /\ exists vb,
          Forall (fun b => kept b = true) vb
          /\ vb <> []
          /\ lesson_update (w_db w) (lesson_id lesson) (data_of vb)
             = Ok (w_db (snd (process_lesson lesson c w)))).
Proof.
  destruct c as [| | | |blocks|]; try (left; reflexivity).
  destruct (filter_blocks (lesson_title lesson) blocks w) as [[vb|msg] w1] eqn:E.
  - destruct (filter_blocks_ok _ _ _ _ _ E) as (Hnn & -> & ->).
    destruct (filter kept blocks) as [|b0 r0] eqn:Evb.
    + left. rewrite (process_lesson_skip lesson _ w Hnn Evb). reflexivity.
    + assert (Hne : filter kept blocks <> []) by (rewrite Evb; discriminate).
      rewrite <- Evb in *. rewrite (process_lesson_run lesson _ w Hnn Hne).
      destruct (lesson_update (w_db w) (lesson_id lesson) (data_of (filter kept blocks)))
        as [d'|msg] eqn:Eu; [|left; reflexivity].
      right. split; [reflexivity|]. exists (filter kept blocks).
      split; [apply filter_kept_all|]. split; [exact Hne|exact Eu].
  - left. unfold process_lesson. unfold bind at 1. unfold ret at 1. unfold bind at 1.
    rewrite E. cbn [snd].
    destruct (filter_blocks_frame (lesson_title lesson) blocks w) as (evs & Hs & _).
    rewrite E in Hs. cbn [snd] in Hs. rewrite Hs. reflexivity.
Qed.

Lemma process_lesson_throw_store (lesson : LessonRow) (c : JSON) (w w' : World)
  (msg : string) :
  process_lesson lesson c w = (Throw msg, w') -> w_db w' = w_db w.
Proof.
  intros H. destruct (process_lesson_store lesson c w) as [Hs|[Hok _]].
  - rewrite H in Hs. exact Hs.
  - rewrite H in Hok. discriminate Hok.
Qed.

(* ================================================================== *)
(** ** Relations every run keeps *)

Section StoreRelation.

Variable R : DB -> DB -> Prop.
Hypothesis R_refl : forall d, R d d.
Hypothesis R_trans : forall a b c, R a b -> R b c -> R a c.
Hypothesis R_update :
  forall d lessonId vb d',
    Forall (fun b => kept b = true) vb -> vb <> [] ->
    lesson_update d lessonId (data_of vb) = Ok d' -> R d d'.

Lemma keeps_ret {A} (a : A) : keeps R (ret a).
Proof. intros w. apply R_refl. Qed.

Lemma keeps_lift {A} (r : Res A) : keeps R (lift r).
Proof. intros w. apply R_refl. Qed.

Lemma keeps_emit (e : Event) : keeps R (emit e).
Proof. intros w. apply R_refl. Qed.

Lemma keeps_bind {A B} (m : M A) (k : A -> M B) :
  keeps R m -> (forall a, keeps R (k a)) -> keeps R (bind m k).
Proof.
  intros Hm Hk w. unfold bind. specialize (Hm w).
  destruct (m w) as [[a|msg] w1]; cbn [snd] in *; [|exact Hm].
  eapply R_trans; [exact Hm|apply Hk].
Qed.

Lemma keeps_try_catch {A} (m : M A) (h : string -> M A) :
  keeps R m -> (forall e, keeps R (h e)) -> keeps R (try_catch m h).
Proof.
  intros Hm Hh w. unfold try_catch. specialize (Hm w).
  destruct (m w) as [[a|msg] w1]; cbn [snd] in *; [exact Hm|].
  eapply R_trans; [exact Hm|apply Hh].
Qed.

Lemma keeps_try_finally {A} (m : M A) (f : M unit) :
  keeps R m -> keeps R f -> keeps R (try_finally m f).
Proof.
  intros Hm Hf w. unfold try_finally. specialize (Hm w).
  destruct (m w) as [r w1]. cbn [snd] in Hm. specialize (Hf w1).
  destruct (f w1) as [[u|msg] w2]; cbn [snd] in *; eapply R_trans; eassumption.
Qed.

Lemma keeps_process_lesson (lesson : LessonRow) (c : JSON) :
  keeps R (process_lesson lesson c).
Proof.
  intros w. destruct (process_lesson_store lesson c w) as [->|(_ & vb & Hk & Hne & Hu)].
  - apply R_refl.
  - exact (R_update _ _ _ _ Hk Hne Hu).
Qed.

Lemma keeps_lessons_loop (em : JSON) (ls : list LessonRow) (j : nat) :
  keeps R (lessons_loop em ls j).
Proof.
  revert j. induction ls as [|l r IH]; intros j; [apply keeps_ret|].
  cbn [lessons_loop]. apply keeps_bind; [apply keeps_lift|]. intros el.
  apply keeps_bind; [apply keeps_lift|]. intros c.
  apply keeps_bind; [apply keeps_process_lesson|]. intros _. apply IH.
Qed.

Lemma keeps_modules_loop (ec : JSON) (ms : list Module) (i : nat) :
  keeps R (modules_loop ec ms i).
Proof.
  revert i. induction ms as [|m r IH]; intros i; [apply keeps_ret|].
  cbn [modules_loop]. apply keeps_bind; [apply keeps_lift|]. intros em.
  apply keeps_bind; [apply keeps_lessons_loop|]. intros _. apply IH.
Qed.

Lemma keeps_write_stage (course : Course) (ec : JSON) :
  keeps R (write_stage course ec).
Proof.
  unfold write_stage. apply keeps_try_finally; [|apply keeps_emit].
  apply keeps_try_catch.
  - apply keeps_bind; [apply keeps_modules_loop|]. intros _. apply keeps_emit.
  - intros e. apply keeps_emit.
Qed.

Lemma keeps_generateContent (generator : nat -> GenOutcome) :
  keeps R (generateContent generator).
Proof.
  intros w. unfold generateContent, bind, emit. cbn.
  destruct (generator (w_calls w)); apply R_refl.
Qed.

Lemma keeps_retry_loop (generator : nat -> GenOutcome) (fuel attempt : nat) :
  keeps R (retry_loop generator fuel attempt).
Proof.
  revert attempt. induction fuel as [|fuel IH]; intros attempt; [apply keeps_ret|].
  cbn [retry_loop]. destruct (Nat.ltb attempt maxAttempts); [|apply keeps_ret].
  apply keeps_try_catch.
  - apply keeps_bind; [apply keeps_emit|]. intros _.
    apply keeps_bind; [apply keeps_generateContent|]. intros text.
    apply keeps_bind; [apply keeps_lift|]. intros output.
    apply keeps_bind; [apply keeps_emit|]. intros _. apply keeps_ret.
  - intros msg. apply keeps_bind; [apply keeps_emit|]. intros _.
    destruct (Nat.eqb (attempt + 1) maxAttempts).
    + apply keeps_bind; [apply keeps_emit|]. intros _. apply keeps_ret.
    + apply keeps_bind; [apply keeps_emit|]. intros _. apply IH.
Qed.

Lemma keeps_parse_stage (JSON_parse : string -> Res JSON) (output : option string) :
  keeps R (parse_stage JSON_parse output).
Proof.
  unfold parse_stage. apply keeps_try_catch.
  - apply keeps_bind; [apply keeps_lift|]. intros parsed.
    apply keeps_bind; [apply keeps_lift|]. intros mods.
    destruct (negb (truthy mods) || negb (isArray mods)).
    + destruct parsed;
        try (apply keeps_bind; [apply keeps_emit|]; intros _; apply keeps_ret).
      apply keeps_bind; [apply keeps_emit|]. intros _.
      apply keeps_bind; [apply keeps_lift|]. intros content.
      apply keeps_bind; [apply keeps_emit|]. intros _. apply keeps_ret.
    + apply keeps_bind; [apply keeps_emit|]. intros _. apply keeps_ret.
  - intros msg. apply keeps_bind; [apply keeps_emit|]. intros _.
    apply keeps_bind; [apply keeps_emit|]. intros _. apply keeps_ret.
Qed.

(** Every run of [test] keeps the relation. *)
Lemma keeps_test (generator : nat -> GenOutcome) (JSON_parse : string -> Res JSON)
  (courseId : Id) :
  keeps R (test generator JSON_parse courseId).
Proof.
  unfold test, test_with.
  apply keeps_bind; [intros w; apply R_refl|]. intros [course|].
  2:{ apply keeps_bind; [apply keeps_emit|]. intros _. apply keeps_ret. }
  apply keeps_bind; [apply keeps_retry_loop|]. intros exit.
  assert (Hcont : forall output,
             keeps R (bind (parse_stage JSON_parse output)
                           (fun enriched =>
                              match enriched with
                              | None => ret Finished
                              | Some enrichedContent =>
                                  bind (emit Log_EnrichedByAI)
                                       (fun _ => bind (write_stage course enrichedContent)
                                                      (fun _ => ret Finished))
                              end))).
  { intros output. apply keeps_bind; [apply keeps_parse_stage|]. intros [ec|].
    - apply keeps_bind; [apply keeps_emit|]. intros _.
      apply keeps_bind; [apply keeps_write_stage|]. intros _. apply keeps_ret.
    - apply keeps_ret. }
  destruct exit; try apply keeps_ret; apply Hcont.
Qed.

End StoreRelation.

(* ================================================================== *)
(** ** The course tree, the flags and the options over a run *)

Lemma lesson_key_set (lessonId : Id) (data : LessonUpdateData) (ls : list LessonRow) :
  map lesson_key (map (set_lesson lessonId data) ls) = map lesson_key ls.
Proof.
  rewrite map_map. apply map_ext. intros l. unfold set_lesson, lesson_key.
  destruct (Nat.eqb (lesson_id l) lessonId); reflexivity.
Qed.

Lemma same_rows_update (d d' : DB) (lessonId : Id) (data : LessonUpdateData) :
  lesson_update d lessonId data = Ok d' -> same_rows d d'.
Proof.
  intros H. apply lesson_update_inv in H.
  destruct H as (cbs & mcqs & n1 & vrows & _ & _ & Hc & Hm & Hl & _).
  unfold same_rows. rewrite Hc, Hm, Hl, lesson_key_set.
  split; [apply Permutation_refl|]. split; apply Permutation_refl.
Qed.

Lemma same_rows_refl (d : DB) : same_rows d d.
Proof. split; [apply Permutation_refl|]. split; apply Permutation_refl. Qed.

Lemma same_rows_trans (a b c : DB) : same_rows a b -> same_rows b c -> same_rows a c.
Proof.
  intros (H1 & H2 & H3) (H4 & H5 & H6).
  split; [exact (Permutation_trans H1 H4)|].
  split; [exact (Permutation_trans H2 H5)|exact (Permutation_trans H3 H6)].
Qed.

(** X1: whatever the generator answers and whatever the parser
    returns, a run of [test] adds, removes, renames and re-parents no
    course, no module and no lesson: the Course rows, the Module rows
    and the id, title and module of the Lesson rows are the same before
    and after the run, whatever the order of the rows in the tables. *)
Theorem run_leaves_the_course_tree
  (generator : nat -> GenOutcome) (JSON_parse : string -> Res JSON)
  (courseId : Id) (w : World) :
  same_rows (w_db w) (w_db (snd (test generator JSON_parse courseId w))).
Proof.
  apply (keeps_test same_rows same_rows_refl same_rows_trans).
  intros d lessonId vb d' _ _ Hu. exact (same_rows_update _ _ _ _ Hu).
Qed.

Lemma enrichment_kept_refl (d : DB) : enrichment_kept d d.
Proof.
  unfold enrichment_kept. induction (lessons d) as [|l r IH]; constructor;
    [split; [reflexivity|intros H; exact H]|exact IH].
Qed.

Lemma Forall2_transitive {A} (P : A -> A -> Prop) (l1 l2 l3 : list A) :
  (forall x y z, P x y -> P y z -> P x z) ->
  Forall2 P l1 l2 -> Forall2 P l2 l3 -> Forall2 P l1 l3.
Proof.
  intros HP H. revert l3. induction H as [|x y l1 l2 Hxy _ IH]; intros l3 H2.
  - inversion H2. constructor.
  - inversion H2 as [|? z ? l3' Hyz H2']; subst. constructor.
    + exact (HP _ _ _ Hxy Hyz).
    + apply IH, H2'.
Qed.

Lemma enrichment_kept_trans (a b c : DB) :
  enrichment_kept a b -> enrichment_kept b c -> enrichment_kept a c.
Proof.
  unfold enrichment_kept. apply Forall2_transitive.
  intros x y z [Hid He] [Hid' He']. split; [congruence|auto].
Qed.

Lemma enrichment_kept_update (d d' : DB) (lessonId : Id) (vb : list JSON) :
  lesson_update d lessonId (data_of vb) = Ok d' -> enrichment_kept d d'.
Proof.
  intros H. apply lesson_update_inv in H.
  destruct H as (cbs & mcqs & n1 & vrows & _ & _ & _ & _ & Hl & _).
  unfold enrichment_kept. rewrite Hl. clear Hl.
  induction (lessons d) as [|l r IH]; cbn [map]; [constructor|].
  constructor; [|exact IH].
  unfold set_lesson. destruct (Nat.eqb (lesson_id l) lessonId); cbn;
    split; auto.
Qed.

Lemma Forall2_In_l {A B} (R : A -> B -> Prop) (l1 : list A) (l2 : list B) (x : A) :
  Forall2 R l1 l2 -> In x l1 -> exists y, In y l2 /\ R x y.
Proof.
  induction 1 as [|a b l1 l2 Hab _ IH]; intros Hin; [destruct Hin|].
  destruct Hin as [<-|Hin].
  - exists b. split; [now left|exact Hab].
  - destruct (IH Hin) as (y & Hy & HR). exists y. split; [now right|exact HR].
Qed.

Lemma run_keeps_enrichment
  (generator : nat -> GenOutcome) (JSON_parse : string -> Res JSON)
  (courseId : Id) (w : World) :
  enrichment_kept (w_db w) (w_db (snd (test generator JSON_parse courseId w))).
Proof.
  apply (keeps_test enrichment_kept enrichment_kept_refl enrichment_kept_trans).
  intros d lessonId vb d' _ _ Hu. exact (enrichment_kept_update _ _ _ _ Hu).
Qed.

(** X2: [isEnriched] is never reset. The ids of the lessons being
    unique, every lesson of the store is still there after a run of
    [test], under its id, and a lesson that was enriched before the run
    is enriched after it, whatever the run does and wherever its row is
    in the table. *)
Theorem run_never_resets_isEnriched
  (generator : nat -> GenOutcome) (JSON_parse : string -> Res JSON)
  (courseId : Id) (w : World) (l : LessonRow) :
  NoDup (map lesson_id (lessons (w_db w))) ->
  In l (lessons (w_db w)) ->
  (exists l',
      In l' (lessons (w_db (snd (test generator JSON_parse courseId w))))
      /\ lesson_id l' = lesson_id l)
  /\ (lesson_isEnriched l = true ->
      forall l',
        In l' (lessons (w_db (snd (test generator JSON_parse courseId w)))) ->
        lesson_id l' = lesson_id l ->
        lesson_isEnriched l' = true).
Proof.
  intros Hnd Hin.
  pose proof (run_keeps_enrichment generator JSON_parse courseId w) as H.
  unfold enrichment_kept in H. split.
  - destruct (Forall2_In_l _ _ _ _ H Hin) as (l' & Hl' & Hid & _).
    exists l'. split; assumption.
  - intros He l' Hin' Hid.
    destruct (Forall2_In_r _ _ _ _ H Hin') as (l0 & Hl0 & Hid0 & He0).
    assert (E : l0 = l).
    { apply (NoDup_map_eq lesson_id _ _ _ Hnd Hl0 Hin). congruence. }
    subst l0. exact (He0 He).
Qed.

Lemma run_never_resets_isEnriched_witness :
  In (mkLessonRow 3 "Insertion sort" [] true 2) (lessons (w_db world_after_first_run))
  /\ map (fun l => (lesson_id l, lesson_isEnriched l))
         (lessons (w_db (snd (test (answers "x") (parse_as second_lesson_output) 1
                                   world_after_first_run))))
     = [(3, true); (4, true)]
  /\ forall l',
      In l' (lessons (w_db (snd (test (answers "x") (parse_as second_lesson_output) 1
                                      world_after_first_run)))) ->
      lesson_id l' = 3 ->
      lesson_isEnriched l' = true.
Proof.
  assert (Hnd : NoDup (map lesson_id (lessons (w_db world_after_first_run)))).
  { cbn. repeat constructor; cbn; intuition discriminate. }
  assert (Hin : In (mkLessonRow 3 "Insertion sort" [] true 2)
                   (lessons (w_db world_after_first_run))) by (left; reflexivity).
  split; [exact Hin|]. split; [reflexivity|].
  exact (proj2 (run_never_resets_isEnriched (answers "x") (parse_as second_lesson_output) 1
                  world_after_first_run _ Hnd Hin) eq_refl).
Defined.

Lemma options_kept_refl (d : DB) : options_kept d d.
Proof. exists []. symmetry. apply app_nil_r. Qed.

Lemma options_kept_trans (a b c : DB) :
  options_kept a b -> options_kept b c -> options_kept a c.
Proof.
  intros [x Hx] [y Hy]. exists (x ++ y). rewrite Hy, Hx. symmetry. apply app_assoc.
Qed.

(** X3: a run of [test] deletes and changes no MCQOption row: the
    table after the run is the table before it followed by the rows
    the run created, so that every re-enrichment of an mcq block adds a
    row and frees none. *)
Theorem run_only_adds_mcq_options
  (generator : nat -> GenOutcome) (JSON_parse : string -> Res JSON)
  (courseId : Id) (w : World) :
  options_kept (w_db w) (w_db (snd (test generator JSON_parse courseId w))).
Proof.
  apply (keeps_test options_kept options_kept_refl options_kept_trans).
  intros d lessonId vb d' _ _ Hu. apply lesson_update_inv in Hu.
  destruct Hu as (cbs & mcqs & n1 & vrows & _ & _ & _ & _ & _ & _ & Hm & _).
  exists mcqs. exact Hm.
Qed.

(** The store after an accepted update links every MCQ block. *)
Lemma update_keeps_links (d d' : DB) (lessonId : Id) (vb : list JSON) :
  mcq_keys_ok d -> mcq_blocks_linked d ->
  Forall (fun b => kept b = true) vb ->
  lesson_update d lessonId (data_of vb) = Ok d' ->
  mcq_blocks_linked d'.
Proof.
  intros Hkeys Hlinked Hk Hu.
  pose proof (mcq_keys_ok_update _ _ _ _ Hkeys Hu) as [Hnd _].
  destruct (written _ _ _ _ Hu)
    as (cbs & mcqs & n1 & vrows & Hc & _ & _ & Hcb & _ & _ & Hm & _).
  destruct (rows_of_blocks _ _ _ _ _ _ Hk Hc) as (_ & HF2).
  intros row Hin Hty. rewrite Hcb in Hin. apply in_app_or in Hin.
  assert (Huniq : forall m, In m (mcqOptions d') ->
                            forall m', In m' (mcqOptions d') ->
                                       mcq_id m' = mcq_id m -> m' = m).
  { intros m Hm' m' Hm'' Heq. exact (NoDup_map_eq mcq_id _ _ _ Hnd Hm'' Hm' Heq). }
  destruct Hin as [Hold|Hnew].
  - unfold other_blocks in Hold. apply filter_In in Hold. destruct Hold as [Hold _].
    destruct (Hlinked row Hold Hty) as (m & Hid & Hinm & _).
    assert (Hin' : In m (mcqOptions d')) by (rewrite Hm; apply in_or_app; now left).
    exists m. split; [exact Hid|]. split; [exact Hin'|apply Huniq, Hin'].
  - destruct (Forall2_In_r _ _ _ _ HF2 Hnew) as (b & Hb & (i & Hrow) & Hmcq).
    assert (Hkb : kept b = true) by (rewrite Forall_forall in Hk; apply Hk, Hb).
    rewrite (stored_MCQ_is_mcq _ _ _ _ _ _ Hkb Hrow Hty) in Hmcq.
    destruct Hmcq as (m & Hid & Hinm & _).
    assert (Hin' : In m (mcqOptions d')) by (rewrite Hm; apply in_or_app; now right).
    exists m. split; [exact Hid|]. split; [exact Hin'|apply Huniq, Hin'].
Qed.

Lemma links_kept_trans (a b c : DB) : links_kept a b -> links_kept b c -> links_kept a c.
Proof. unfold links_kept. intros H1 H2 H. apply H2, H1, H. Qed.

(** X4: when the keys of MCQOption are unique and below the counter
    and every MCQ content block points at exactly one MCQOption row
    before a run of [test], both hold after it, for every lesson of
    every course, whatever the generator and the parser return. *)
Theorem run_keeps_mcq_blocks_linked
  (generator : nat -> GenOutcome) (JSON_parse : string -> Res JSON)
  (courseId : Id) (w : World) :
  mcq_keys_ok (w_db w) ->
  mcq_blocks_linked (w_db w) ->
  mcq_keys_ok (w_db (snd (test generator JSON_parse courseId w)))
  /\ mcq_blocks_linked (w_db (snd (test generator JSON_parse courseId w))).
Proof.
  intros Hk Hl.
  apply (keeps_test links_kept (fun d H => H) links_kept_trans); [|split; assumption].
  intros d lessonId vb d' Hkept _ Hu [Hk0 Hl0]. split.
  - exact (mcq_keys_ok_update _ _ _ _ Hk0 Hu).
  - exact (update_keeps_links _ _ _ _ Hk0 Hl0 Hkept Hu).
Qed.

Lemma run_keeps_mcq_blocks_linked_witness :
  mcq_keys_ok (w_db world_after_first_run)
  /\ mcq_blocks_linked (w_db world_after_first_run)
  /\ map (fun r => (cb_lessonId r, cb_type r, cb_mcqId r))
         (contentBlocks (w_db world_after_first_run))
     = [(3, MCQ, Some 7)]
  /\ map (fun r => (cb_lessonId r, cb_type r, cb_mcqId r))
         (contentBlocks (w_db (snd (test (answers "x") (parse_as second_lesson_output) 1
                                         world_after_first_run))))
     = [(3, MCQ, Some 7); (4, MCQ, Some 9)]
  /\ map mcq_id (mcqOptions (w_db (snd (test (answers "x") (parse_as second_lesson_output) 1
                                             world_after_first_run))))
     = [7; 9]
  /\ mcq_blocks_linked (w_db (snd (test (answers "x") (parse_as second_lesson_output) 1
                                        world_after_first_run))).
Proof.
  assert (Hk : mcq_keys_ok (w_db world_after_first_run)).
  { split; cbn; repeat constructor; cbn; intuition. }
  assert (Hl : mcq_blocks_linked (w_db world_after_first_run)).
  { intros row [<-|[]] _. exists first_run_option.
    split; [reflexivity|]. split; [left; reflexivity|].
    intros m' [<-|[]] _. reflexivity. }
  split; [exact Hk|]. split; [exact Hl|].
  split; [reflexivity|]. split; [reflexivity|]. split; [reflexivity|].
  exact (proj2 (run_keeps_mcq_blocks_linked (answers "x") (parse_as second_lesson_output) 1
                  world_after_first_run Hk Hl)).
Defined.

(* ================================================================== *)
(** ** Failures inside the loops *)

Lemma filter_blocks_null (title : string) (blocks : list JSON) (w : World) :
  In JNull blocks ->
  exists msg evs,
    filter_blocks title blocks w = (Throw msg, log_to w evs) /\ Forall no_write evs.
Proof.
  revert w. induction blocks as [|b r IH]; intros w Hin; [destruct Hin|].
  destruct (filter_blocks_frame title (b :: r) w) as (evs & Hs & Hev).
  assert (Hthrow : exists msg, fst (filter_blocks title (b :: r) w) = Throw msg).
  { cbn [filter_blocks]. unfold bind at 1, lift.
    destruct (classify b) as [v|msg] eqn:Ec; [|eexists; reflexivity].
    assert (Hr : In JNull r).
    { destruct Hin as [->|Hr]; [discriminate Ec|exact Hr]. }
    unfold bind at 1.
    destruct v; unfold bind, ret, emit.
    - destruct (IH w Hr) as (msg & evs' & -> & _). eexists. reflexivity.
    - destruct (IH (log_to w [Warn_InvalidType title b]) Hr) as (msg & evs' & -> & _).
      eexists. reflexivity.
    - destruct (IH (log_to w [Warn_InvalidMcq title b]) Hr) as (msg & evs' & -> & _).
      eexists. reflexivity. }
  destruct Hthrow as [msg Hmsg]. exists msg, evs. split; [|exact Hev].
  destruct (filter_blocks title (b :: r) w) as [res w']. cbn [fst snd] in *.
  subst. reflexivity.
Qed.

(** X5: content that is [truthy] but no array, or an array with a
    [null] element, makes the loop body throw before any update is
    issued, whatever valid blocks stand beside the [null]: the store is
    as it was and only warnings were written. *)
Theorem malformed_content_throws_before_any_write
  (lesson : LessonRow) (c : JSON) (w : World) :
  malformed_content c ->
  exists msg evs,
    process_lesson lesson c w = (Throw msg, log_to w evs)
    /\ Forall no_write evs
    /\ w_db (log_to w evs) = w_db w.
Proof.
  intros H.
  assert (Hnil : forall msg,
             (Throw msg : Res unit, w) = (Throw msg, log_to w [])
             /\ Forall no_write [] /\ w_db (log_to w []) = w_db w).
  { intros msg. rewrite log_to_nil. repeat split. constructor. }
  destruct c as [| | | |blocks|]; try (eexists _, []; apply Hnil).
  destruct (filter_blocks_null (lesson_title lesson) blocks w H) as (msg & evs & Hf & Hev).
  exists msg, evs. split; [|split; [exact Hev|reflexivity]].
  unfold process_lesson. unfold bind at 1. unfold ret at 1. unfold bind at 1.
  rewrite Hf. reflexivity.
Qed.

Lemma malformed_content_throws_before_any_write_witness :
  malformed_content (JArr [upper_PARAGRAPH; mcq_Q; JNull; paragraph_A])
  /\ exists msg,
      process_lesson sample_lesson (JArr [upper_PARAGRAPH; mcq_Q; JNull; paragraph_A])
                     sample_world
      = (Throw msg,
         log_to sample_world [Warn_InvalidType "Insertion sort" upper_PARAGRAPH]).
Proof.
  assert (H : malformed_content (JArr [upper_PARAGRAPH; mcq_Q; JNull; paragraph_A])).
  { cbn. auto. }
  split; [exact H|].
  destruct (malformed_content_throws_before_any_write sample_lesson _ sample_world H)
    as (msg & evs & Hp & _).
  exists msg. rewrite Hp. vm_compute in Hp. injection Hp as _ Ht.
  unfold log_to. cbn. rewrite <- Ht. reflexivity.
Defined.

Lemma for_each_pair_throw (ps qs : list (LessonRow * JSON)) (lesson : LessonRow)
  (c : JSON) (w w1 w2 : World) (msg : string) :
  for_each_pair ps w = (Ok tt, w1) ->
  process_lesson lesson c w1 = (Throw msg, w2) ->
  for_each_pair (ps ++ (lesson, c) :: qs) w = (Throw msg, w2).
Proof.
  intros Hps Hp. rewrite for_each_pair_app. unfold bind at 1. rewrite Hps.
  cbn [for_each_pair]. unfold bind. rewrite Hp. reflexivity.
Qed.

(** X6: when the loop body throws on a lesson (its content is
    malformed, or the store rejects its update), the run stops there:
    the lessons before it stay written, the lessons after it are never
    looked at, the failure is reported as a database failure, and the
    client is disconnected. There is no rollback: the store is the one
    left by the lessons before the failing one. *)
Theorem failing_lesson_stops_the_run_without_rollback
  (course : Course) (ec : JSON) (ps qs : list (LessonRow * JSON))
  (lesson : LessonRow) (c : JSON) (w w1 w2 : World) (msg : string) :
  ec <> JNull ->
  pair_modules ec (c_modules course) 0 = ps ++ (lesson, c) :: qs ->
  for_each_pair ps w = (Ok tt, w1) ->
  process_lesson lesson c w1 = (Throw msg, w2) ->
  write_stage course ec w
  = (Ok tt, log_to w2 [Err_DbUpdateFailed msg; Db_disconnect])
  /\ w_db (log_to w2 [Err_DbUpdateFailed msg; Db_disconnect]) = w_db w1.
Proof.
  intros Hec Hpairs Hps Hp. split.
  - unfold write_stage, try_finally, try_catch. unfold bind at 1.
    rewrite (modules_loop_pairs ec _ 0 w Hec), Hpairs.
    rewrite (for_each_pair_throw ps qs lesson c w w1 w2 msg Hps Hp).
    unfold emit. rewrite log_to_app. reflexivity.
  - cbn [w_db log_to]. exact (process_lesson_throw_store _ _ _ _ _ Hp).
Qed.

Lemma failing_lesson_stops_the_run_without_rollback_witness :
  output_with_null <> JNull
  /\ pair_modules output_with_null (c_modules sample_course) 0
     = [(mkLessonRow 3 "Insertion sort" ["old objective"] false 2, JArr [paragraph_A])]
       ++ (mkLessonRow 4 "Merge sort" [] false 2, JArr [mcq_Q; JNull]) :: []
  /\ for_each_pair
       [(mkLessonRow 3 "Insertion sort" ["old objective"] false 2, JArr [paragraph_A])]
       sample_world
     = (Ok tt, world_after sample_lesson [paragraph_A] sample_world)
  /\ lesson_flags (w_db (snd (write_stage sample_course output_with_null sample_world))) 3
     = [(true, [])]
  /\ lesson_flags (w_db (snd (write_stage sample_course output_with_null sample_world))) 4
     = [(false, [])].
Proof.
  assert (Hec : output_with_null <> JNull) by discriminate.
  assert (Hpairs : pair_modules output_with_null (c_modules sample_course) 0
                   = [(mkLessonRow 3 "Insertion sort" ["old objective"] false 2,
                       JArr [paragraph_A])]
                     ++ (mkLessonRow 4 "Merge sort" [] false 2, JArr [mcq_Q; JNull]) :: [])
    by reflexivity.
  assert (Hps : for_each_pair
                  [(mkLessonRow 3 "Insertion sort" ["old objective"] false 2,
                    JArr [paragraph_A])] sample_world
                = (Ok tt, world_after sample_lesson [paragraph_A] sample_world))
    by reflexivity.
  assert (Hp : exists msg w2,
             process_lesson (mkLessonRow 4 "Merge sort" [] false 2) (JArr [mcq_Q; JNull])
                            (world_after sample_lesson [paragraph_A] sample_world)
             = (Throw msg, w2)) by (eexists _, _; reflexivity).
  destruct Hp as (msg & w2 & Hp).
  destruct (failing_lesson_stops_the_run_without_rollback
              sample_course output_with_null _ _ _ _ sample_world _ _ msg
              Hec Hpairs Hps Hp) as [Hrun Hdb].
  split; [exact Hec|]. split; [exact Hpairs|]. split; [exact Hps|].
  rewrite Hrun. cbn [snd]. rewrite Hdb. split; reflexivity.
Defined.

(* ================================================================== *)
(** ** The flat-array fallback, end to end *)

Lemma for_each_pair_empty (ps : list (LessonRow * JSON)) (w : World) :
  Forall (fun p => snd p = JArr []) ps ->
  exists evs, for_each_pair ps w = (Ok tt, log_to w evs) /\ Forall no_write evs.
Proof.
  intros H. revert w. induction H as [|[l c] r Hc _ IH]; intros w.
  - exists []. rewrite log_to_nil. split; [reflexivity|constructor].
  - cbn [snd] in Hc. subst c. cbn [for_each_pair]. unfold bind.
    rewrite (process_lesson_skip l [] w (Forall_nil _) eq_refl). cbn [warnings flat_map app].
    destruct (IH (log_to w [Warn_NoValidBlocks (lesson_title l)])) as (evs & -> & Hev).
    exists (Warn_NoValidBlocks (lesson_title l) :: evs). rewrite log_to_app.
    split; [reflexivity|]. constructor; [unfold no_write; congruence|exact Hev].
Qed.

Lemma pair_lessons_flat_rest (content : list JSON) (i : nat) (ls : list LessonRow) (j : nat) :
  (i, j) <> (0, 0) \/ ls = [] ->
  Forall (fun p => snd p = JArr []) (pair_lessons (wrap_flat content) i ls j)
  /\ forall l r, ls = l :: r ->
                 Forall (fun p => snd p = JArr [])
                        (pair_lessons (wrap_flat content) i r (S j)).
Proof.
  assert (Hgen : forall ls j, (i, j) <> (0, 0) ->
                              Forall (fun p => snd p = JArr [])
                                     (pair_lessons (wrap_flat content) i ls j)).
  { intros ls0. induction ls0 as [|l r IH]; intros j0 Hne; [constructor|].
    cbn [pair_lessons]. constructor.
    - cbn [snd]. apply (proj2 (content_at_wrap_flat content)), Hne.
    - apply IH. intros E. injection E as _ E. discriminate E. }
  intros [Hne| ->].
  - split; [apply Hgen, Hne|]. intros l r _. apply Hgen.
    intros E. injection E as _ E. discriminate E.
  - split; [constructor|]. intros l r E. discriminate E.
Qed.

Lemma pair_modules_flat_rest (content : list JSON) (ms : list Module) (i : nat) :
  Forall (fun p => snd p = JArr []) (pair_modules (wrap_flat content) ms (S i)).
Proof.
  revert i. induction ms as [|m r IH]; intros i; [constructor|].
  cbn [pair_modules]. apply Forall_app. split; [|apply IH].
  apply pair_lessons_flat_rest. left. discriminate.
Qed.

(** X7: under the flat-array fallback the whole course is walked,
    and the store ends as the loop body on the first lesson of the
    first module leaves it; every other lesson only gets a warning. If
    the first module has no lesson, the content is attached to nothing
    and the store is unchanged, even when later modules have lessons. *)
Theorem flat_content_reaches_the_first_position_only
  (content : list JSON) (ms : list Module) (w : World) :
  w_db (snd (modules_loop (wrap_flat content) ms 0 w))
  = match first_position ms with
    | Some lesson => w_db (snd (process_lesson lesson (JArr content) w))
    | None => w_db w
    end.
Proof.
  rewrite modules_loop_pairs by discriminate.
  destruct ms as [|m r]; [reflexivity|]. cbn [pair_modules first_position].
  destruct (m_lessons m) as [|l ls] eqn:El.
  - cbn [pair_lessons app hd_error].
    destruct (for_each_pair_empty _ w (pair_modules_flat_rest content r 0)) as (evs & -> & _).
    reflexivity.
  - cbn [pair_lessons hd_error app for_each_pair].
    rewrite (proj1 (content_at_wrap_flat content)). unfold bind.
    destruct (process_lesson l (JArr content) w) as [[u|msg] w1]; [|reflexivity].
    assert (Hrest : Forall (fun p => snd p = JArr [])
                           (pair_lessons (wrap_flat content) 0 ls 1
                            ++ pair_modules (wrap_flat content) r 1)).
    { apply Forall_app. split; [|apply pair_modules_flat_rest].
      apply pair_lessons_flat_rest. left. discriminate. }
    destruct (for_each_pair_empty _ w1 Hrest) as (evs & -> & _). reflexivity.
Qed.

(* ================================================================== *)
(** ** A kept block the store does not take *)

Lemma create_videos_needs_text (lessonId : Id) (vb : list JSON) (n : Id) :
  is_ok (create_videos lessonId (video_creates vb) n)
  = forallb (fun b => negb (is_type "video" b) || is_string (field b "text")) vb.
Proof.
  unfold video_creates. revert n. induction vb as [|b r IH]; intros n; [reflexivity|].
  cbn [filter forallb]. destruct (is_type "video" b); cbn [negb orb map]; [|apply IH].
  cbn [create_videos vc_query]. rewrite <- (IH (S n)).
  destruct (field b "text") as [[| | |s| |]|]; try reflexivity.
  cbn [as_String is_string andb res_bind].
  destruct (create_videos lessonId
              (map (fun v => {| vc_query := field v "text" |}) (filter (is_type "video") r))
              (S n)) as [[? ?]|]; reflexivity.
Qed.

Lemma video_is_kept (b : JSON) : is_type "video" b = true -> kept b = true.
Proof.
  intros H. apply kept_valid. unfold is_type, strict_eq_str in H.
  destruct (field b "type") as [[| | |t| |]|] eqn:Et; try discriminate H.
  apply String.eqb_eq in H. subst t. exists "video".
  split; [exact Et|]. split; [right; left; reflexivity|]. intros E. discriminate E.
Qed.

(** X8: passing the filter is not enough to be stored. A block of
    type video is kept whatever its text is; when the text of one is
    missing or null, the store rejects the lesson's update as a whole,
    the [query] of a VideoSearch being NOT NULL: the loop body throws
    after issuing the update, and the store is as it was, so that the
    valid blocks beside it are not written either. *)
Theorem video_without_text_rejects_the_whole_update
  (lesson : LessonRow) (blocks : list JSON) (b : JSON) (w : World) :
  Forall (fun x => x <> JNull) blocks ->
  In b blocks ->
  is_type "video" b = true ->
  field b "text" = None \/ field b "text" = Some JNull ->
  In b (filter kept blocks)
  /\ (exists msg,
         process_lesson lesson (JArr blocks) w
         = (Throw msg,
            log_to w (warnings (lesson_title lesson) blocks
                      ++ [Db_lessonUpdate (lesson_id lesson)
                                          (data_of (filter kept blocks))])))
  /\ w_db (snd (process_lesson lesson (JArr blocks) w)) = w_db w.
Proof.
  intros Hnn Hin Hty Htext.
  assert (Hkept : In b (filter kept blocks)).
  { apply filter_In. split; [exact Hin|exact (video_is_kept b Hty)]. }
  assert (Hne : filter kept blocks <> []).
  { intros E. rewrite E in Hkept. destruct Hkept. }
  assert (Hrej : is_ok (lesson_update (w_db w) (lesson_id lesson)
                                      (data_of (filter kept blocks))) = false).
  { unfold lesson_update.
    destruct (existsb (fun l => Nat.eqb (lesson_id l) (lesson_id lesson))
                      (lessons (w_db w))); [|reflexivity].
    cbn [d_contentBlocks d_videos nw_create data_of].
    destruct (create_blocks (lesson_id lesson) (block_creates (filter kept blocks) 0)
                            (nextId (w_db w))) as [[[cbs mcqs] n1]|]; [|reflexivity].
    cbn [res_bind].
    assert (Hv : is_ok (create_videos (lesson_id lesson)
                          (video_creates (filter kept blocks)) n1) = false).
    { rewrite create_videos_needs_text. apply not_true_is_false. intros Hall.
      rewrite forallb_forall in Hall. specialize (Hall b Hkept).
      rewrite Hty in Hall. destruct Htext as [E|E]; rewrite E in Hall; discriminate Hall. }
    destruct (create_videos (lesson_id lesson) (video_creates (filter kept blocks)) n1)
      as [[vrows n2]|]; [discriminate Hv|reflexivity]. }
  split; [exact Hkept|].
  rewrite (process_lesson_run lesson blocks w Hnn Hne).
  destruct (lesson_update (w_db w) (lesson_id lesson) (data_of (filter kept blocks)))
    as [d'|msg]; [discriminate Hrej|].
  split; [exists msg; reflexivity|reflexivity].
Qed.

Lemma video_without_text_rejects_the_whole_update_witness :
  In video_without_text (filter kept [paragraph_A; video_without_text])
  /\ (exists msg,
         process_lesson sample_lesson (JArr [paragraph_A; video_without_text]) sample_world
         = (Throw msg,
            log_to sample_world
              [Db_lessonUpdate 3 (data_of [paragraph_A; video_without_text])]))
  /\ lesson_blocks (store_after sample_lesson [paragraph_A; video_without_text] sample_world) 3
     = lesson_blocks sample_db 3.
Proof.
  assert (Hnn : Forall (fun x => x <> JNull) [paragraph_A; video_without_text])
    by (repeat constructor; discriminate).
  destruct (video_without_text_rejects_the_whole_update
              sample_lesson [paragraph_A; video_without_text] video_without_text sample_world
              Hnn (or_intror (or_introl eq_refl)) eq_refl (or_introl eq_refl))
    as (Hk & Hthrow & Hdb).
  split; [exact Hk|]. split; [exact Hthrow|].
  unfold store_after. rewrite Hdb. reflexivity.
Defined.

(* ================================================================== *)
(** ** Reading an enriched lesson back *)










(* ================================================================== *)
(** ** The connection to the store *)

Lemma stays_connected_ret {A} (a : A) : stays_connected (ret a).
Proof. intros w. exists []. split; [symmetry; apply app_nil_r|constructor]. Qed.

Lemma stays_connected_lift {A} (r : Res A) : stays_connected (lift r).
Proof.
  intros w. exists []. unfold lift.
  destruct r; (split; [symmetry; apply app_nil_r|constructor]).
Qed.

Lemma stays_connected_emit (e : Event) : not_disconnect e -> stays_connected (emit e).
Proof. intros He w. exists [e]. split; [reflexivity|constructor; [exact He|constructor]]. Qed.

Lemma stays_connected_bind {A B} (m : M A) (k : A -> M B) :
  stays_connected m -> (forall a, stays_connected (k a)) -> stays_connected (bind m k).
Proof.
  intros Hm Hk w. unfold bind. destruct (Hm w) as (evs1 & H1 & HP1).
  destruct (m w) as [[a|msg] w1]; cbn [snd] in *; [|exists evs1; split; assumption].
  destruct (Hk a w1) as (evs2 & H2 & HP2).
  exists (evs1 ++ evs2). split; [rewrite H2, H1; symmetry; apply app_assoc|].
  apply Forall_app. split; assumption.
Qed.

Lemma stays_connected_try_catch {A} (m : M A) (h : string -> M A) :
  stays_connected m -> (forall e, stays_connected (h e)) -> stays_connected (try_catch m h).
Proof.
  intros Hm Hh w. unfold try_catch. destruct (Hm w) as (evs1 & H1 & HP1).
  destruct (m w) as [[a|msg] w1]; cbn [snd] in *; [exists evs1; split; assumption|].
  destruct (Hh msg w1) as (evs2 & H2 & HP2).
  exists (evs1 ++ evs2). split; [rewrite H2, H1; symmetry; apply app_assoc|].
  apply Forall_app. split; assumption.
Qed.

Ltac connected :=
  repeat first
    [ apply stays_connected_ret
    | apply stays_connected_lift
    | apply stays_connected_emit; unfold not_disconnect; discriminate
    | apply stays_connected_bind; [|intro] ].

Lemma stays_connected_lesson_update (lessonId : Id) (data : LessonUpdateData) :
  stays_connected (prisma_lesson_update lessonId data).
Proof.
  unfold prisma_lesson_update. apply stays_connected_bind; [connected|]. intros _ w.
  exists []. destruct (lesson_update (w_db w) lessonId data);
    (split; [symmetry; apply app_nil_r|constructor]).
Qed.

Lemma stays_connected_filter_blocks (title : string) (blocks : list JSON) :
  stays_connected (filter_blocks title blocks).
Proof.
  induction blocks as [|b r IH]; [apply stays_connected_ret|].
  cbn [filter_blocks]. apply stays_connected_bind; [connected|]. intros v.
  apply stays_connected_bind; [destruct v; connected|]. intros keep.
  apply stays_connected_bind; [exact IH|]. intros rest. connected.
Qed.

Lemma stays_connected_process_lesson (lesson : LessonRow) (c : JSON) :
  stays_connected (process_lesson lesson c).
Proof.
  unfold process_lesson. apply stays_connected_bind.
  { destruct c; try apply stays_connected_ret; intros w; exists [];
      (split; [symmetry; apply app_nil_r|constructor]). }
  intros blocks. apply stays_connected_bind; [apply stays_connected_filter_blocks|].
  intros vb. destruct (Nat.eqb (List.length vb) 0); [connected|].
  apply stays_connected_bind; [connected|]. intros data.
  apply stays_connected_bind; [apply stays_connected_lesson_update|]. intros _. connected.
Qed.

Lemma stays_connected_lessons_loop (em : JSON) (ls : list LessonRow) (j : nat) :
  stays_connected (lessons_loop em ls j).
Proof.
  revert j. induction ls as [|l r IH]; intros j; [apply stays_connected_ret|].
  cbn [lessons_loop]. apply stays_connected_bind; [connected|]. intros el.
  apply stays_connected_bind; [connected|]. intros c.
  apply stays_connected_bind; [apply stays_connected_process_lesson|]. intros _. apply IH.
Qed.

Lemma stays_connected_modules_loop (ec : JSON) (ms : list Module) (i : nat) :
  stays_connected (modules_loop ec ms i).
Proof.
  revert i. induction ms as [|m r IH]; intros i; [apply stays_connected_ret|].
  cbn [modules_loop]. apply stays_connected_bind; [connected|]. intros em.
  apply stays_connected_bind; [apply stays_connected_lessons_loop|]. intros _. apply IH.
Qed.

Lemma stays_connected_generateContent (generator : nat -> GenOutcome) :
  stays_connected (generateContent generator).
Proof.
  unfold generateContent. apply stays_connected_bind; [connected|]. intros _ w.
  exists []. destruct (generator (w_calls w));
    (split; [symmetry; apply app_nil_r|constructor]).
Qed.

Lemma stays_connected_retry_loop (generator : nat -> GenOutcome) (fuel attempt : nat) :
  stays_connected (retry_loop generator fuel attempt).
Proof.
  revert attempt. induction fuel as [|fuel IH]; intros attempt; [apply stays_connected_ret|].
  cbn [retry_loop]. destruct (Nat.ltb attempt maxAttempts); [|apply stays_connected_ret].
  apply stays_connected_try_catch.
  - apply stays_connected_bind; [connected|]. intros _.
    apply stays_connected_bind; [apply stays_connected_generateContent|]. intros text.
    connected.
  - intros msg. apply stays_connected_bind; [connected|]. intros _.
    destruct (Nat.eqb (attempt + 1) maxAttempts); [connected|].
    apply stays_connected_bind; [connected|]. intros _. apply IH.
Qed.

Lemma stays_connected_parse_stage (JSON_parse : string -> Res JSON)
  (output : option string) :
  stays_connected (parse_stage JSON_parse output).
Proof.
  unfold parse_stage. apply stays_connected_try_catch.
  - apply stays_connected_bind; [connected|]. intros parsed.
    apply stays_connected_bind; [connected|]. intros mods.
    destruct (negb (truthy mods) || negb (isArray mods)); [|connected].
    destruct parsed; connected.
  - intros msg. connected.
Qed.

(** The writing step ends with [prisma.$disconnect()], called once. *)
Lemma write_stage_disconnects (course : Course) (ec : JSON) (w : World) :
  exists evs,
    w_trace (snd (write_stage course ec w)) = w_trace w ++ evs ++ [Db_disconnect]
    /\ Forall not_disconnect evs.
Proof.
  assert (Hinner : stays_connected
                     (try_catch
                        (bind (modules_loop ec (c_modules course) 0)
                              (fun _ => emit Log_AllSaved))
                        (fun msg => emit (Err_DbUpdateFailed msg)))).
  { apply stays_connected_try_catch; [|intros msg; connected].
    apply stays_connected_bind; [apply stays_connected_modules_loop|]. intros _. connected. }
  unfold write_stage, try_finally. destruct (Hinner w) as (evs & Ht & HP).
  destruct (try_catch
              (bind (modules_loop ec (c_modules course) 0) (fun _ => emit Log_AllSaved))
              (fun msg => emit (Err_DbUpdateFailed msg)) w) as [r w1].
  cbn [snd] in Ht. exists evs. cbn. rewrite Ht. split; [symmetry; apply app_assoc|exact HP].
Qed.

Lemma not_disconnect_absent (evs : list Event) :
  Forall not_disconnect evs -> ~ In Db_disconnect evs.
Proof. intros H Hin. rewrite Forall_forall in H. exact (H _ Hin eq_refl). Qed.

(** X10: [prisma.$disconnect()] is called only by the [finally] of the
    writing step. A run that finds the course, gets an answer from the
    generator and parses enriched content out of it ends with exactly one
    disconnect, as its last event, whether or not an update failed; a run
    that returns early (course not found, three failed attempts, output
    that does not parse or has no usable shape) returns without
    disconnecting. *)
Theorem connection_is_closed_only_by_the_write_stage
  (generator : nat -> GenOutcome) (JSON_parse : string -> Res JSON)
  (courseId : Id) (w : World) :
  exists evs,
    w_trace (snd (test generator JSON_parse courseId w)) = w_trace w ++ evs
    /\ (reaches_write_stage generator JSON_parse courseId w ->
        exists before, evs = before ++ [Db_disconnect] /\ ~ In Db_disconnect before)
    /\ (~ reaches_write_stage generator JSON_parse courseId w -> ~ In Db_disconnect evs).
Proof.
  unfold reaches_write_stage, test, test_with.
  unfold bind at 1, prisma_course_findUnique.
  destruct (course_findUnique (w_db w) courseId) as [course|].
  2:{ exists [Log_CourseNotFound]. split; [reflexivity|]. split.
      - intros (c & _ & _ & _ & Hc & _). discriminate Hc.
      - intros _ [H|[]]. discriminate H. }
  unfold bind at 1.
  destruct (stays_connected_retry_loop generator maxAttempts 0 w) as (evs1 & Ht1 & HP1).
  destruct (retry_loop_exits generator w) as (exit & evs0 & k & He & _ & _ & _ & Hexit).
  rewrite He in Ht1 |- *. cbn [snd advance w_trace] in Ht1.
  apply app_inv_head in Ht1. subst evs0.
  destruct Hexit as [->|[output ->]].
  { exists evs1. split; [reflexivity|]. split.
    - intros (c & o & w1 & ec & _ & Hb & _). discriminate Hb.
    - intros _. exact (not_disconnect_absent _ HP1). }
  unfold bind at 1.
  destruct (stays_connected_parse_stage JSON_parse (Some output) (advance w evs1 k))
    as (evs2 & Ht2 & HP2).
  destruct (parse_stage_quiet JSON_parse (Some output) (advance w evs1 k))
    as (r & evs2' & Hparse & _).
  rewrite Hparse in Ht2 |- *. cbn [snd log_to w_trace] in Ht2.
  apply app_inv_head in Ht2. subst evs2'.
  destruct r as [ec|].
  2:{ exists (evs1 ++ evs2).
      split; [unfold ret; cbn; symmetry; apply app_assoc|].
      split.
      - intros (c & o & w1 & ec & _ & Hb & Hp). injection Hb as <- <-.
        rewrite Hparse in Hp. discriminate Hp.
      - intros _. apply not_disconnect_absent, Forall_app. split; assumption. }
  unfold bind at 1, emit. unfold bind at 1.
  destruct (write_stage_disconnects course ec
              (log_to (log_to (advance w evs1 k) evs2) [Log_EnrichedByAI]))
    as (evs3 & Ht3 & HP3).
  destruct (write_stage_returns course ec
              (log_to (log_to (advance w evs1 k) evs2) [Log_EnrichedByAI]))
    as (w4 & Hw).
  rewrite Hw in Ht3 |- *. cbn [snd] in Ht3. unfold ret. cbn [snd].
  exists ((evs1 ++ evs2 ++ Log_EnrichedByAI :: evs3) ++ [Db_disconnect]).
  split.
  { rewrite Ht3. cbn [log_to advance w_trace].
    rewrite <- !app_assoc. reflexivity. }
  split.
  - intros _. eexists. split; [reflexivity|].
    apply not_disconnect_absent. apply Forall_app. split; [exact HP1|].
    apply Forall_app. split; [exact HP2|].
    constructor; [unfold not_disconnect; discriminate|exact HP3].
  - intros Hnot. exfalso. apply Hnot.
    exists course, output, (advance w evs1 k), ec.
    split; [reflexivity|]. split; [reflexivity|]. rewrite Hparse. reflexivity.
Qed.

Lemma connection_is_closed_only_by_the_write_stage_witness :
  ~ In Db_disconnect (w_trace (snd (test always_fails sample_parse 1 sample_world)))
  /\ exists before,
      w_trace (snd (test (answers "COURSE") sample_parse 1 sample_world))
      = before ++ [Db_disconnect]
      /\ ~ In Db_disconnect before.
Proof.
  split.
  - destruct (connection_is_closed_only_by_the_write_stage
                always_fails sample_parse 1 sample_world) as (evs & Ht & _ & Hno).
    rewrite Ht. cbn [sample_world w_trace app]. apply Hno.
    intros (c & o & w1 & ec & _ & Hb & _). vm_compute in Hb. discriminate Hb.
  - destruct (connection_is_closed_only_by_the_write_stage
                (answers "COURSE") sample_parse 1 sample_world) as (evs & Ht & Hyes & _).
    rewrite Ht. cbn [sample_world w_trace app]. apply Hyes.
    unfold reaches_write_stage.
    eexists _, _, _, _. split; [reflexivity|].
    split; [vm_compute; reflexivity|vm_compute; reflexivity].
Defined.

(* ================================================================== *)
(** ** The length of a course *)

Lemma space_not_digit (c : ascii) : is_space c = true -> is_digit c = false.
Proof. intros H. unfold is_digit. byte_hyps; byte_goal. Qed.

Lemma all_space_not_digit (c : ascii) (r : string) :
  all_space (String c r) = true -> is_digit c = false.
Proof.
  rewrite all_space_cons. destruct (is_space c) eqn:E1; [intros _; exact (space_not_digit c E1)|].
  destruct r as [|c2 r2]; [discriminate|].
  destruct (is_space2 c c2) eqn:E2.
  { intros _. unfold is_digit. clear E1. byte_hyps; byte_goal. }
  destruct r2 as [|c3 r3]; [discriminate|].
  destruct (is_space3 c c2 c3) eqn:E3; [|discriminate].
  intros _. unfold is_digit. clear E1 E2. byte_hyps; byte_goal.
Qed.

Lemma upper_W (c : ascii) :
  upper_ascii c = "W"%char ->
  is_digit c = false /\ is_space c = false /\ (nat_of_ascii c <? 128)%nat = true.
Proof.
  destruct c as [[] [] [] [] [] [] [] []]; vm_compute; intros H;
    solve [repeat split; reflexivity | discriminate H].
Qed.

Lemma week_first (r : string) :
  String.prefix "WEEK" (toUpperCase r) = true ->
  exists c r', r = String c r' /\ is_digit c = false /\ trimStart r = r.
Proof.
  destruct r as [|c r']; [discriminate|]. cbn [toUpperCase String.prefix].
  destruct (ascii_dec "W" (upper_ascii c)) as [E|_]; [|discriminate].
  intros _. exists c, r'. split; [reflexivity|].
  symmetry in E. destruct (upper_W c E) as (Hd & Hs & Ha).
  split; [exact Hd|]. rewrite trimStart_skip, (plain_byte_no_space c r' Ha Hs). reflexivity.
Qed.

Lemma digits_of_run (ds rest : string) :
  all_digits ds = true ->
  digits_of rest = (EmptyString, rest) ->
  digits_of (ds ++ rest) = (ds, rest).
Proof.
  intros Hd Hr. induction ds as [|c ds IH]; [exact Hr|].
  cbn [all_digits] in Hd. apply andb_true_iff in Hd. destruct Hd as [Hc Hd].
  cbn [append digits_of]. rewrite Hc, (IH Hd). reflexivity.
Qed.

Lemma digits_of_stop (c : ascii) (r : string) :
  is_digit c = false -> digits_of (String c r) = (EmptyString, String c r).
Proof. intros H. cbn [digits_of]. rewrite H. reflexivity. Qed.

Lemma match_weeks_skip (p s : string) :
  no_digit p = true -> match_weeks (p ++ s) = match_weeks s.
Proof.
  intros H. induction p as [|c p IH]; [reflexivity|].
  cbn [no_digit] in H. apply andb_true_iff in H. destruct H as [Hc Hp].
  apply negb_true_iff in Hc.
  cbn [append match_weeks]. unfold weeks_here. rewrite (digits_of_stop c _ Hc).
  exact (IH Hp).
Qed.

Lemma match_weeks_here (s ds : string) :
  weeks_here s = Some ds -> match_weeks s = Some ds.
Proof. intros H. destruct s; cbn [match_weeks]; rewrite H; reflexivity. Qed.

Lemma digits_value_nonneg (ds : string) (acc : Z) :
  (0 <= acc)%Z -> (0 <= digits_value acc ds)%Z.
Proof.
  revert acc. induction ds as [|c r IH]; intros acc H; [exact H|].
  cbn [digits_value]. apply IH. lia.
Qed.

(** An integer below 2^53 is a number as it is. *)
Lemma nearest_number_exact (z : Z) :
  (0 <= z < 2 ^ 53)%Z -> nearest_number z = Finite z.
Proof.
  intros [H0 H1]. unfold nearest_number.
  assert (Hk : (Z.log2 z < 53)%Z).
  { destruct (Z.eq_dec z 0) as [->|Hz]; [reflexivity|].
    apply Z.log2_lt_pow2; lia. }
  apply Z.ltb_lt in Hk. rewrite Hk. reflexivity.
Qed.

(** X11: a duration that names a number of weeks gives seven days a
    week. When the first digits of the text are followed, after any
    white space, by [week] in any letter case, and seven times their
    value is below 2^53, [durationDays] is seven times their value; what
    comes before and after is ignored. *)
Theorem weeks_are_counted_as_seven_days (p ds ws rest : string) :
  no_digit p = true ->
  ds <> EmptyString ->
  all_digits ds = true ->
  all_space ws = true ->
  String.prefix "WEEK" (toUpperCase rest) = true ->
  (7 * digits_value 0 ds < 2 ^ 53)%Z ->
  durationDays (p ++ ds ++ ws ++ rest) = Finite (7 * digits_value 0 ds).
Proof.
  intros Hp Hne Hd Hws Hweek Hbound.
  destruct (week_first _ Hweek) as (c & r' & -> & Hcd & Htrim).
  assert (Hstop : digits_of (ws ++ String c r')
                  = (EmptyString, (ws ++ String c r')%string)).
  { destruct ws as [|a ws']; [exact (digits_of_stop c r' Hcd)|].
    exact (digits_of_stop a _ (all_space_not_digit a ws' Hws)). }
  assert (Hhere : weeks_here (ds ++ ws ++ String c r') = Some ds).
  { unfold weeks_here. rewrite (digits_of_run ds _ Hd Hstop).
    destruct ds as [|d ds']; [contradiction Hne; reflexivity|].
    rewrite (trimStart_spaces ws _ Hws), Htrim, Hweek. reflexivity. }
  unfold durationDays. rewrite (match_weeks_skip p _ Hp), (match_weeks_here _ _ Hhere).
  pose proof (digits_value_nonneg ds 0 (Z.le_refl 0)) as H0.
  unfold parseInt_digits. rewrite nearest_number_exact by lia.
  cbn [times_seven]. rewrite nearest_number_exact by lia.
  f_equal. apply Z.mul_comm.
Qed.

Lemma weeks_are_counted_as_seven_days_witness :
  durationDays "about 12 Weeks long" = Finite 84
  /\ durationDays ("3" ++ nbsp ++ "weeks") = Finite 21
  /\ durationDays "1286742750677285 weeks" = Finite 9007199254740996.
Proof.
  split; [|split].
  - apply (weeks_are_counted_as_seven_days "about " "12" " " "Weeks long");
      solve [reflexivity | discriminate].
  - apply (weeks_are_counted_as_seven_days EmptyString "3" nbsp "weeks");
      solve [reflexivity | discriminate].
  - reflexivity.
Defined.

Lemma mentions_week_unfold (s : string) :
  mentions_week s
  = String.prefix "WEEK" (toUpperCase s)
    || match s with
       | EmptyString => false
       | String _ r => mentions_week r
       end.
Proof. destruct s; reflexivity. Qed.

Lemma mentions_week_app (a b : string) :
  mentions_week b = true -> mentions_week (a ++ b) = true.
Proof.
  intros H. induction a as [|c a IH]; [exact H|].
  rewrite mentions_week_unfold. cbn [append]. rewrite IH. apply orb_true_r.
Qed.

Lemma digits_of_split (s : string) :
  s = (fst (digits_of s) ++ snd (digits_of s))%string.
Proof.
  induction s as [|c r IH]; [reflexivity|].
  cbn [digits_of]. destruct (is_digit c); [|reflexivity].
  destruct (digits_of r) as [ds rest]. cbn [fst snd append] in *. rewrite <- IH. reflexivity.
Qed.

Lemma weeks_here_mentions (s ds : string) :
  weeks_here s = Some ds -> mentions_week s = true.
Proof.
  unfold weeks_here. pose proof (digits_of_split s) as Hs.
  destruct (digits_of s) as [d rest]. cbn [fst snd] in Hs.
  destruct d as [|c d']; [discriminate|].
  destruct (String.prefix "WEEK" (toUpperCase (trimStart rest))) eqn:E; [|discriminate].
  intros _. rewrite Hs. apply mentions_week_app.
  destruct (trimStart_split rest) as [ws Hr]. rewrite Hr. apply mentions_week_app.
  rewrite mentions_week_unfold, E. reflexivity.
Qed.

Lemma match_weeks_mentions (s ds : string) :
  match_weeks s = Some ds -> mentions_week s = true.
Proof.
  induction s as [|c r IH]; cbn [match_weeks].
  - destruct (weeks_here EmptyString) eqn:E; [|discriminate].
    intros _. exact (weeks_here_mentions _ _ E).
  - destruct (weeks_here (String c r)) eqn:E.
    + intros _. exact (weeks_here_mentions _ _ E).
    + intros H. rewrite mentions_week_unfold, (IH H). apply orb_true_r.
Qed.

(** X12: only weeks are understood. A duration whose text has no
    [week] in it, in any letter case, gives seven days whatever numbers
    it holds: days, months and years are not read. *)
Theorem duration_without_weeks_is_seven_days (duration : string) :
  mentions_week duration = false -> durationDays duration = Finite 7.
Proof.
  intros H. unfold durationDays.
  destruct (match_weeks duration) as [ds|] eqn:E; [|reflexivity].
  rewrite (match_weeks_mentions _ _ E) in H. discriminate H.
Qed.

Lemma duration_without_weeks_is_seven_days_witness :
  durationDays "10 days" = Finite 7 /\ durationDays "2 months" = Finite 7.
Proof.
  split; apply duration_without_weeks_is_seven_days; reflexivity.
Defined.
